(** * SagaPay Go SDK: webhook verifier and API client

    A shallow embedding of the package [sagapay] (webhook handler, parameter
    validation, client construction and transport) together with the parts
    of the Go standard library the package calls: [crypto/sha256],
    [crypto/hmac], [crypto/subtle], [encoding/hex], [unicode/utf8] and the
    fragment of [encoding/json] and [net/url] that the package exercises.

    Go values are modelled as follows: a [byte] is [Byte.byte]; a [[]byte]
    is [list byte]; a Go [string] (an immutable byte sequence) is a Rocq
    [string]; [uint32] words are [N] reduced modulo [2^32]; a Go [error] is
    a value of the inductive type [error]; a call returning a
    pointer and an error yields a pair of options. *)

From Stdlib Require Import NArith ZArith String Ascii Bool Lia.
From Stdlib Require Import Strings.Byte DecimalString List.
Import ListNotations.

Set Warnings "-register-all".

Local Open Scope string_scope.
Local Open Scope N_scope.
Local Open Scope list_scope.

(** ** Bytes *)

Abbreviation bytes := (list byte).

(** Conversion [byte(n)] of an unsigned integer: the low eight bits. *)
Definition byte_of_N (n : N) : byte :=
  match Byte.of_N (n mod 256) with
  | Some b => b
  | None => x00
  end.

(** [[]byte(s)] and [string(b)]. *)
Definition bytes_of_string (s : string) : bytes := list_byte_of_string s.
Definition string_of_bytes (b : bytes) : string := string_of_list_byte b.

Definition bxor (a b : byte) : byte := byte_of_N (N.lxor (Byte.to_N a) (Byte.to_N b)).
Definition bor (a b : byte) : byte := byte_of_N (N.lor (Byte.to_N a) (Byte.to_N b)).

(** ** crypto/sha256 *)

Module SHA256.

Definition mask32 : N := 0xFFFFFFFF.

(** Arithmetic on [uint32] wraps around. *)
Definition w32 (x : N) : N := N.land x mask32.
Definition add32 (x y : N) : N := w32 (x + y).
Definition not32 (x : N) : N := N.lxor (w32 x) mask32.

(** [bits.RotateLeft32(x, -k)]. *)
Definition rotr (k x : N) : N :=
  w32 (N.lor (N.shiftr x k) (N.shiftl x (32 - k))).

Definition _K : list N :=
  [ 0x428A2F98; 0x71374491; 0xB5C0FBCF; 0xE9B5DBA5; 0x3956C25B; 0x59F111F1;
    0x923F82A4; 0xAB1C5ED5; 0xD807AA98; 0x12835B01; 0x243185BE; 0x550C7DC3;
    0x72BE5D74; 0x80DEB1FE; 0x9BDC06A7; 0xC19BF174; 0xE49B69C1; 0xEFBE4786;
    0x0FC19DC6; 0x240CA1CC; 0x2DE92C6F; 0x4A7484AA; 0x5CB0A9DC; 0x76F988DA;
    0x983E5152; 0xA831C66D; 0xB00327C8; 0xBF597FC7; 0xC6E00BF3; 0xD5A79147;
    0x06CA6351; 0x14292967; 0x27B70A85; 0x2E1B2138; 0x4D2C6DFC; 0x53380D13;
    0x650A7354; 0x766A0ABB; 0x81C2C92E; 0x92722C85; 0xA2BFE8A1; 0xA81A664B;
    0xC24B8B70; 0xC76C51A3; 0xD192E819; 0xD6990624; 0xF40E3585; 0x106AA070;
    0x19A4C116; 0x1E376C08; 0x2748774C; 0x34B0BCB5; 0x391C0CB3; 0x4ED8AA4A;
    0x5B9CCA4F; 0x682E6FF3; 0x748F82EE; 0x78A5636F; 0x84C87814; 0x8CC70208;
    0x90BEFFFA; 0xA4506CEB; 0xBEF9A3F7; 0xC67178F2 ].

Definition init : list N :=
  [ 0x6A09E667; 0xBB67AE85; 0x3C6EF372; 0xA54FF53A;
    0x510E527F; 0x9B05688C; 0x1F83D9AB; 0x5BE0CD19 ].

Definition chunk : nat := 64.
Definition Size : nat := 32.
Definition BlockSize : nat := 64.

(** Big-endian load of the sixteen message words of a block. *)
Fixpoint load_words (n : nat) (p : bytes) : list N :=
  match n with
  | O => []
  | S n' =>
      match p with
      | b0 :: b1 :: b2 :: b3 :: p' =>
          N.lor (N.lor (N.lor (N.shiftl (Byte.to_N b0) 24)
                              (N.shiftl (Byte.to_N b1) 16))
                       (N.shiftl (Byte.to_N b2) 8))
                (Byte.to_N b3)
          :: load_words n' p'
      | _ => []
      end
  end.

(** The schedule loop [for i := 16; i < 64; i++]: [win] holds
    [w[i-16] .. w[i-1]]. *)
Fixpoint extend (n : nat) (win : list N) : list N :=
  match n with
  | O => []
  | S n' =>
      let v1 := nth 14 win 0 in
      let t1 := N.lxor (N.lxor (rotr 17 v1) (rotr 19 v1)) (N.shiftr v1 10) in
      let v2 := nth 1 win 0 in
      let t2 := N.lxor (N.lxor (rotr 7 v2) (rotr 18 v2)) (N.shiftr v2 3) in
      let wi := add32 (add32 (add32 t1 (nth 9 win 0)) t2) (nth 0 win 0) in
      wi :: extend n' (tl win ++ [wi])
  end.

Definition schedule (p : bytes) : list N :=
  let w16 := load_words 16 p in
  w16 ++ extend 48 w16.

Record regs := Regs { ra : N; rb : N; rc : N; rd : N;
                      re : N; rf : N; rg : N; rh : N }.

Definition round (s : regs) (kw : N * N) : regs :=
  let '(k, w) := kw in
  let '(Regs a b c d e f g h) := s in
  let t1 :=
    add32 (add32 (add32 (add32 h
      (N.lxor (N.lxor (rotr 6 e) (rotr 11 e)) (rotr 25 e)))
      (N.lxor (N.land e f) (N.land (not32 e) g))) k) w in
  let t2 :=
    add32 (N.lxor (N.lxor (rotr 2 a) (rotr 13 a)) (rotr 22 a))
          (N.lxor (N.lxor (N.land a b) (N.land a c)) (N.land b c)) in
  Regs (add32 t1 t2) a b c (add32 d t1) e f g.

Definition regs_of (h : list N) : regs :=
  Regs (nth 0 h 0) (nth 1 h 0) (nth 2 h 0) (nth 3 h 0)
       (nth 4 h 0) (nth 5 h 0) (nth 6 h 0) (nth 7 h 0).

(** One iteration of the outer loop of [blockGeneric]. *)
Definition block1 (h : list N) (p : bytes) : list N :=
  let '(Regs a b c d e f g hh) :=
    fold_left round (combine _K (schedule p)) (regs_of h) in
  [ add32 (nth 0 h 0) a; add32 (nth 1 h 0) b; add32 (nth 2 h 0) c;
    add32 (nth 3 h 0) d; add32 (nth 4 h 0) e; add32 (nth 5 h 0) f;
    add32 (nth 6 h 0) g; add32 (nth 7 h 0) hh ].

(** [blockGeneric]: [for len(p) >= chunk { ...; p = p[chunk:] }], with
    [n] the number of whole chunks. *)
Fixpoint blockGeneric (n : nat) (h : list N) (p : bytes) : list N :=
  match n with
  | O => h
  | S n' => blockGeneric n' (block1 h (firstn chunk p)) (skipn chunk p)
  end.

(** Big-endian store of [n] bytes of [x]. *)
Fixpoint be_bytes (n : nat) (x : N) : bytes :=
  match n with
  | O => []
  | S n' => byte_of_N (N.shiftr x (8 * N.of_nat n')) :: be_bytes n' x
  end.

(** Padding of [checkSum]: a [0x80] byte, zeros up to 56 modulo 64, then
    the length in bits as a big-endian [uint64]. *)
Definition pad (msg : bytes) : bytes :=
  let len := length msg in
  let t := Nat.modulo len 64 in
  let zeros := if Nat.ltb t 56 then (55 - t)%nat else (119 - t)%nat in
  msg ++ x80 :: repeat x00 zeros
      ++ be_bytes 8 (N.land (N.shiftl (N.of_nat len) 3) 0xFFFFFFFFFFFFFFFF).

(** [sha256.Sum256] / [New(); Write(msg); Sum(nil)]. *)
Definition Sum256 (msg : bytes) : bytes :=
  let p := pad msg in
  flat_map (be_bytes 4) (blockGeneric (Nat.div (length p) chunk) init p).

End SHA256.

(** ** crypto/hmac *)

Module HMAC.

(** [hmac.New(sha256.New, key)] prepares the two pads; a key longer than
    the block size is first hashed. *)
Definition block_key (key : bytes) : bytes :=
  let key' := if Nat.ltb SHA256.BlockSize (length key)
              then SHA256.Sum256 key else key in
  key' ++ repeat x00 (SHA256.BlockSize - length key').

Definition ipad (key : bytes) : bytes := map (bxor x36) (block_key key).
Definition opad (key : bytes) : bytes := map (bxor x5c) (block_key key).

(** [mac.Write(msg); mac.Sum(nil)]. *)
Definition Sum (key msg : bytes) : bytes :=
  SHA256.Sum256 (opad key ++ SHA256.Sum256 (ipad key ++ msg)).

End HMAC.

(** ** encoding/hex *)

Module Hex.

Definition hextable : bytes :=
  bytes_of_string "0123456789abcdef".

Definition digit (n : N) : byte := nth (N.to_nat n) hextable x00.

(** [hex.Encode]: two lower-case digits per byte, high nibble first. *)
Fixpoint Encode (src : bytes) : bytes :=
  match src with
  | [] => []
  | v :: src' =>
      digit (N.shiftr (Byte.to_N v) 4)
      :: digit (N.land (Byte.to_N v) 0x0f) :: Encode src'
  end.

Definition EncodeToString (src : bytes) : string :=
  string_of_bytes (Encode src).

End Hex.

(** ** crypto/subtle and hmac.Equal *)

Module Subtle.

(** [ConstantTimeByteEq(x, y) = int((uint32(x^y) - 1) >> 31)]. *)
Definition ConstantTimeByteEq (x y : byte) : N :=
  N.shiftr
    (N.land (N.lxor (Byte.to_N x) (Byte.to_N y) + 0xFFFFFFFF) 0xFFFFFFFF) 31.

(** The loop [v |= x[i] ^ y[i]] over two slices of equal length. *)
Fixpoint accumulate (v : byte) (x y : bytes) : byte :=
  match x, y with
  | a :: x', b :: y' => accumulate (bor v (bxor a b)) x' y'
  | _, _ => v
  end.

Definition ConstantTimeCompare (x y : bytes) : N :=
  if negb (Nat.eqb (length x) (length y)) then 0
  else ConstantTimeByteEq (accumulate x00 x y) x00.

End Subtle.

Definition hmac_Equal (mac1 mac2 : bytes) : bool :=
  N.eqb (Subtle.ConstantTimeCompare mac1 mac2) 1.

(** ** unicode/utf8 and unicode/utf16 *)

Module UTF8.

Definition RuneError : N := 0xFFFD.
Definition RuneSelf : N := 0x80.
Definition MaxRune : N := 0x10FFFF.
Definition surrogateMin : N := 0xD800.
Definition surrogateMax : N := 0xDFFF.
Definition rune1Max : N := 0x7F.
Definition rune2Max : N := 0x7FF.
Definition rune3Max : N := 0xFFFF.

Definition t2 : N := 0xC0.
Definition t3 : N := 0xE0.
Definition t4 : N := 0xF0.
Definition tx : N := 0x80.
Definition maskx : N := 0x3F.
Definition mask2 : N := 0x1F.
Definition mask3 : N := 0x0F.
Definition mask4 : N := 0x07.

(** The table [first] together with [acceptRanges]: for a leading byte,
    the length of the sequence and the range accepted for the second
    byte; [None] stands for the entries marked invalid. *)
Definition first (p0 : N) : option (nat * N * N) :=
  if p0 <? 0xC2 then None
  else if p0 <? 0xE0 then Some (2%nat, 0x80, 0xBF)
  else if p0 =? 0xE0 then Some (3%nat, 0xA0, 0xBF)
  else if p0 <? 0xED then Some (3%nat, 0x80, 0xBF)
  else if p0 =? 0xED then Some (3%nat, 0x80, 0x9F)
  else if p0 <? 0xF0 then Some (3%nat, 0x80, 0xBF)
  else if p0 =? 0xF0 then Some (4%nat, 0x90, 0xBF)
  else if p0 <? 0xF4 then Some (4%nat, 0x80, 0xBF)
  else if p0 =? 0xF4 then Some (4%nat, 0x80, 0x8F)
  else None.

Definition cont (b : N) : bool := (0x80 <=? b) && (b <=? 0xBF).

(** [utf8.DecodeRune]: the rune at the head of [p] and its width. *)
Definition DecodeRune (p : bytes) : N * nat :=
  match p with
  | [] => (RuneError, 0%nat)
  | c0 :: p1 =>
      let p0 := Byte.to_N c0 in
      if p0 <? RuneSelf then (p0, 1%nat)
      else
        match first p0 with
        | None => (RuneError, 1%nat)
        | Some (sz, lo, hi) =>
            if Nat.ltb (length p) sz then (RuneError, 1%nat)
            else
              match p1 with
              | [] => (RuneError, 1%nat)
              | c1 :: p2 =>
                  let b1 := Byte.to_N c1 in
                  if (b1 <? lo) || (hi <? b1) then (RuneError, 1%nat)
                  else if Nat.leb sz 2 then
                    (N.lor (N.shiftl (N.land p0 mask2) 6) (N.land b1 maskx),
                     2%nat)
                  else
                    match p2 with
                    | [] => (RuneError, 1%nat)
                    | c2 :: p3 =>
                        let b2 := Byte.to_N c2 in
                        if negb (cont b2) then (RuneError, 1%nat)
                        else if Nat.leb sz 3 then
                          (N.lor (N.lor (N.shiftl (N.land p0 mask3) 12)
                                        (N.shiftl (N.land b1 maskx) 6))
                                 (N.land b2 maskx), 3%nat)
                        else
                          match p3 with
                          | [] => (RuneError, 1%nat)
                          | c3 :: _ =>
                              let b3 := Byte.to_N c3 in
                              if negb (cont b3) then (RuneError, 1%nat)
                              else
                                (N.lor (N.lor (N.lor
                                   (N.shiftl (N.land p0 mask4) 18)
                                   (N.shiftl (N.land b1 maskx) 12))
                                   (N.shiftl (N.land b2 maskx) 6))
                                   (N.land b3 maskx), 4%nat)
                          end
                    end
              end
        end
  end.

Definition enc3 (r : N) : bytes :=
  [ byte_of_N (N.lor t3 (N.shiftr r 12));
    byte_of_N (N.lor tx (N.land (N.shiftr r 6) maskx));
    byte_of_N (N.lor tx (N.land r maskx)) ].

(** [utf8.AppendRune(nil, r)] for a rune given as an unsigned value. *)
Definition EncodeRune (r : N) : bytes :=
  if r <=? rune1Max then [ byte_of_N r ]
  else if r <=? rune2Max then
    [ byte_of_N (N.lor t2 (N.shiftr r 6));
      byte_of_N (N.lor tx (N.land r maskx)) ]
  else if (MaxRune <? r) || ((surrogateMin <=? r) && (r <=? surrogateMax))
  then enc3 RuneError
  else if r <=? rune3Max then enc3 r
  else
    [ byte_of_N (N.lor t4 (N.shiftr r 18));
      byte_of_N (N.lor tx (N.land (N.shiftr r 12) maskx));
      byte_of_N (N.lor tx (N.land (N.shiftr r 6) maskx));
      byte_of_N (N.lor tx (N.land r maskx)) ].

(** [utf8.Valid]: the index loop [i += size], written as a walk over the
    slice in which [skip] counts the bytes of the current rune still to be
    stepped over. *)
Fixpoint Valid_loop (skip : nat) (p : bytes) : bool :=
  match p with
  | [] => true
  | c :: p' =>
      match skip with
      | S k => Valid_loop k p'
      | O =>
          if Byte.to_N c <? RuneSelf then Valid_loop 0 p'
          else
            let '(r, size) := DecodeRune p in
            if Nat.eqb size 1 then false
            else Valid_loop (size - 1) p'
      end
  end.

Definition Valid (p : bytes) : bool := Valid_loop 0 p.
Definition ValidString (s : string) : bool := Valid (bytes_of_string s).

End UTF8.

Module UTF16.

Definition surr1 : N := 0xd800.
Definition surr2 : N := 0xdc00.
Definition surr3 : N := 0xe000.
Definition surrSelf : N := 0x10000.
Definition replacementChar : N := 0xFFFD.

Definition IsSurrogate (r : N) : bool := (surr1 <=? r) && (r <? surr3).

(** [utf16.DecodeRune(r1, r2)]. *)
Definition DecodeRune (r1 r2 : N) : N :=
  if (surr1 <=? r1) && (r1 <? surr2) && (surr2 <=? r2) && (r2 <? surr3)
  then N.lor (N.shiftl (r1 - surr1) 10) (r2 - surr2) + surrSelf
  else replacementChar.

End UTF16.

(** ** encoding/json *)

Module JSON.

Definition isb (c : byte) (n : N) : bool := Byte.to_N c =? n.

(** *** Encoding of strings *)

(** [htmlSafeSet]: the ASCII characters written without escaping when
    [escapeHTML] is set, as it is for [Marshal] and for an [Encoder]. *)
Definition htmlSafeSet (b : N) : bool :=
  (0x20 <=? b) && (b <? 0x80)
  && negb ((b =? 0x22) || (b =? 0x5c) || (b =? 0x3c) || (b =? 0x3e)
           || (b =? 0x26)).

(** The escape written for an ASCII byte outside [htmlSafeSet]. *)
Definition escapeASCII (c : byte) : bytes :=
  let b := Byte.to_N c in
  if (b =? 0x5c) || (b =? 0x22) then [x5c; c]
  else if b =? 0x08 then [x5c; x62]
  else if b =? 0x0c then [x5c; x66]
  else if b =? 0x0a then [x5c; x6e]
  else if b =? 0x0d then [x5c; x72]
  else if b =? 0x09 then [x5c; x74]
  else [x5c; x75; x30; x30; Hex.digit (N.shiftr b 4);
        Hex.digit (N.land b 0xF)].

(** The loop of [appendString]; [skip] counts the bytes of the current
    rune that the index has already passed ([i += size]). *)
Fixpoint appendString_loop (skip : nat) (src : bytes) : bytes :=
  match src with
  | [] => []
  | c :: src' =>
      match skip with
      | S k => appendString_loop k src'
      | O =>
          let b := Byte.to_N c in
          if b <? UTF8.RuneSelf then
            (if htmlSafeSet b then [c] else escapeASCII c)
            ++ appendString_loop 0 src'
          else
            let '(r, size) := UTF8.DecodeRune src in
            if (r =? UTF8.RuneError) && Nat.eqb size 1 then
              [x5c; x75; x66; x66; x66; x64] ++ appendString_loop 0 src'
            else if (r =? 0x2028) || (r =? 0x2029) then
              [x5c; x75; x32; x30; x32; Hex.digit (N.land r 0xF)]
              ++ appendString_loop (size - 1) src'
            else
              firstn size src ++ appendString_loop (size - 1) src'
      end
  end.

(** [appendString(dst, src, true)]. *)
Definition appendString (dst : bytes) (src : string) : bytes :=
  dst ++ x22 :: appendString_loop 0 (bytes_of_string src) ++ [x22].

(** *** Scanning *)

Inductive Value :=
| JNull
| JBool (b : bool)
| JNumber (lit : bytes)
| JString (raw : bytes)
| JArray (elems : list Value)
| JObject (members : list (bytes * Value)).

Definition maxNestingDepth : N := 10000.

Definition isSpace (c : byte) : bool :=
  isb c 0x20 || isb c 0x09 || isb c 0x0d || isb c 0x0a.

Fixpoint skip_space (s : bytes) : bytes :=
  match s with
  | c :: s' => if isSpace c then skip_space s' else s
  | [] => []
  end.

Definition isDigit (c : byte) : bool :=
  (0x30 <=? Byte.to_N c) && (Byte.to_N c <=? 0x39).

Definition isHex (c : byte) : bool :=
  let b := Byte.to_N c in
  ((0x30 <=? b) && (b <=? 0x39)) || ((0x61 <=? b) && (b <=? 0x66))
  || ((0x41 <=? b) && (b <=? 0x46)).

(** The states [stateInString], [stateInStringEsc] and
    [stateInStringEscU..U123] of the scanner, entered after the opening
    quote: the bytes up to the closing quote, escapes left as they are,
    and the input that follows. *)
Fixpoint scan_string (s : bytes) : option (bytes * bytes) :=
  match s with
  | [] => None
  | c :: s1 =>
      if isb c 0x22 then Some ([], s1)
      else if isb c 0x5c then
        match s1 with
        | [] => None
        | e :: s2 =>
            if isb e 0x62 || isb e 0x66 || isb e 0x6e || isb e 0x72
               || isb e 0x74 || isb e 0x5c || isb e 0x2f || isb e 0x22
            then
              match scan_string s2 with
              | Some (raw, rest) => Some (c :: e :: raw, rest)
              | None => None
              end
            else if isb e 0x75 then
              match s2 with
              | h1 :: h2 :: h3 :: h4 :: s6 =>
                  if isHex h1 && isHex h2 && isHex h3 && isHex h4 then
                    match scan_string s6 with
                    | Some (raw, rest) =>
                        Some (c :: e :: h1 :: h2 :: h3 :: h4 :: raw, rest)
                    | None => None
                    end
                  else None
              | _ => None
              end
            else None
        end
      else if Byte.to_N c <? 0x20 then None
      else
        match scan_string s1 with
        | Some (raw, rest) => Some (c :: raw, rest)
        | None => None
        end
  end.

(** The longest run of digits at the head of [s]. *)
Fixpoint digits (s : bytes) : bytes * bytes :=
  match s with
  | c :: s' =>
      if isDigit c then let '(ds, r) := digits s' in (c :: ds, r)
      else ([], s)
  | [] => ([], [])
  end.

(** The states [stateNeg], [state0], [state1], [stateDot], [stateDot0],
    [stateE], [stateESign] and [stateE0]: a number literal and the input
    after it, or [None] where the scanner reports an error. *)
Definition scan_number (s : bytes) : option (bytes * bytes) :=
  let '(sign, s1) :=
    match s with
    | c :: t => if isb c 0x2d then ([c], t) else ([], s)
    | [] => ([], s)
    end in
  match s1 with
  | [] => None
  | c :: t =>
      let int_part :=
        if isb c 0x30 then Some ([c], t)
        else if isDigit c then let '(ds, r) := digits t in Some (c :: ds, r)
        else None in
      match int_part with
      | None => None
      | Some (ip, r1) =>
          let frac_part :=
            match r1 with
            | d :: t1 =>
                if isb d 0x2e then
                  match digits t1 with
                  | ([], _) => None
                  | (ds, r) => Some (d :: ds, r)
                  end
                else Some ([], r1)
            | [] => Some ([], r1)
            end in
          match frac_part with
          | None => None
          | Some (fp, r2) =>
              let exp_part :=
                match r2 with
                | e :: t2 =>
                    if isb e 0x65 || isb e 0x45 then
                      let '(sg, t3) :=
                        match t2 with
                        | g :: t3 =>
                            if isb g 0x2b || isb g 0x2d then ([g], t3)
                            else ([], t2)
                        | [] => ([], t2)
                        end in
                      match digits t3 with
                      | ([], _) => None
                      | (ds, r) => Some (e :: sg ++ ds, r)
                      end
                    else Some ([], r2)
                | [] => Some ([], r2)
                end in
              match exp_part with
              | None => None
              | Some (ep, r3) => Some (sign ++ ip ++ fp ++ ep, r3)
              end
          end
      end
  end.

(** The literal [lit] at the head of [s] (the states [stateT..],
    [stateF..], [stateN..]). *)
Fixpoint scan_literal (lit s : bytes) : option bytes :=
  match lit with
  | [] => Some s
  | l :: lit' =>
      match s with
      | c :: s' => if Byte.eqb c l then scan_literal lit' s' else None
      | [] => None
      end
  end.

(** One JSON value at the head of the input, after optional white space;
    [depth] is the number of arrays and objects currently open.  Each
    call consumes input, so a [fuel] above the length of the input is
    never exhausted. *)
Fixpoint scan_value (fuel : nat) (depth : N) (s : bytes)
  : option (Value * bytes) :=
  match fuel with
  | O => None
  | S fuel' =>
      match skip_space s with
      | [] => None
      | c :: t =>
          if isb c 0x7b then
            if maxNestingDepth <=? depth then None
            else
              match skip_space t with
              | c' :: t' =>
                  if isb c' 0x7d then Some (JObject [], t')
                  else
                    match scan_members fuel' (depth + 1) (c' :: t') with
                    | Some (ms, r) => Some (JObject ms, r)
                    | None => None
                    end
              | [] => None
              end
          else if isb c 0x5b then
            if maxNestingDepth <=? depth then None
            else
              match skip_space t with
              | c' :: t' =>
                  if isb c' 0x5d then Some (JArray [], t')
                  else
                    match scan_elements fuel' (depth + 1) (c' :: t') with
                    | Some (vs, r) => Some (JArray vs, r)
                    | None => None
                    end
              | [] => None
              end
          else if isb c 0x22 then
            match scan_string t with
            | Some (raw, r) => Some (JString raw, r)
            | None => None
            end
          else if isb c 0x2d || isDigit c then
            match scan_number (c :: t) with
            | Some (lit, r) => Some (JNumber lit, r)
            | None => None
            end
          else if isb c 0x74 then
            option_map (pair (JBool true))
                       (scan_literal (bytes_of_string "true") (c :: t))
          else if isb c 0x66 then
            option_map (pair (JBool false))
                       (scan_literal (bytes_of_string "false") (c :: t))
          else if isb c 0x6e then
            option_map (pair JNull)
                       (scan_literal (bytes_of_string "null") (c :: t))
          else None
      end
  end

(** The members of an object from the first key to the closing brace. *)
with scan_members (fuel : nat) (depth : N) (s : bytes)
  : option (list (bytes * Value) * bytes) :=
  match fuel with
  | O => None
  | S fuel' =>
      match skip_space s with
      | q :: t =>
          if isb q 0x22 then
            match scan_string t with
            | Some (key, r) =>
                match skip_space r with
                | col :: r1 =>
                    if isb col 0x3a then
                      match scan_value fuel' depth r1 with
                      | Some (v, r2) =>
                          match skip_space r2 with
                          | d :: r3 =>
                              if isb d 0x2c then
                                match scan_members fuel' depth r3 with
                                | Some (ms, r4) => Some ((key, v) :: ms, r4)
                                | None => None
                                end
                              else if isb d 0x7d then Some ([(key, v)], r3)
                              else None
                          | [] => None
                          end
                      | None => None
                      end
                    else None
                | [] => None
                end
            | None => None
            end
          else None
      | [] => None
      end
  end

(** The elements of an array from the first one to the closing bracket. *)
with scan_elements (fuel : nat) (depth : N) (s : bytes)
  : option (list Value * bytes) :=
  match fuel with
  | O => None
  | S fuel' =>
      match scan_value fuel' depth s with
      | Some (v, r) =>
          match skip_space r with
          | d :: r1 =>
              if isb d 0x2c then
                match scan_elements fuel' depth r1 with
                | Some (vs, r2) => Some (v :: vs, r2)
                | None => None
                end
              else if isb d 0x5d then Some ([v], r1)
              else None
          | [] => None
          end
      | None => None
      end
  end.

(** [checkValid] followed by the decoding pass of [Unmarshal]: the whole
    input is one value surrounded by optional white space. *)
Definition parse (data : bytes) : option Value :=
  match scan_value (S (S (length data))) 0 data with
  | Some (v, rest) =>
      match skip_space rest with
      | [] => Some v
      | _ :: _ => None
      end
  | None => None
  end.

(** [Decoder.Decode] on a fresh stream: the first value of the input;
    what follows it is left unread. *)
Definition parse_first (data : bytes) : option Value :=
  option_map fst (scan_value (S (S (length data))) 0 data).

(** *** Unquoting *)

Definition unhex (c : byte) : option N :=
  let b := Byte.to_N c in
  if (0x30 <=? b) && (b <=? 0x39) then Some (b - 0x30)
  else if (0x61 <=? b) && (b <=? 0x66) then Some (b - 0x61 + 10)
  else if (0x41 <=? b) && (b <=? 0x46) then Some (b - 0x41 + 10)
  else None.

(** [getu4]: the rune of a [\uXXXX] escape at the head of [s]; [None]
    stands for the result [-1]. *)
Definition getu4 (s : bytes) : option N :=
  match s with
  | b0 :: b1 :: h1 :: h2 :: h3 :: h4 :: _ =>
      if isb b0 0x5c && isb b1 0x75 then
        match unhex h1, unhex h2, unhex h3, unhex h4 with
        | Some d1, Some d2, Some d3, Some d4 =>
            Some (((d1 * 16 + d2) * 16 + d3) * 16 + d4)
        | _, _, _, _ => None
        end
      else None
  | _ => None
  end.

(** The character of a one-letter escape in [unquoteBytes]. *)
Definition unescape1 (e : byte) : option byte :=
  if isb e 0x22 || isb e 0x5c || isb e 0x2f || isb e 0x27 then Some e
  else if isb e 0x62 then Some x08
  else if isb e 0x66 then Some x0c
  else if isb e 0x6e then Some x0a
  else if isb e 0x72 then Some x0d
  else if isb e 0x74 then Some x09
  else None.

Definition prepend (pre : bytes) (o : option bytes) : option bytes :=
  option_map (app pre) o.

(** The loop of [unquoteBytes] over the bytes between the quotes.  The
    first loop of the Go function only finds the prefix that needs no
    rewriting; the second, modelled here, maps such a prefix to itself. *)
Fixpoint unquote_loop (skip : nat) (s : bytes) : option bytes :=
  match s with
  | [] => Some []
  | c :: s' =>
      match skip with
      | S k => unquote_loop k s'
      | O =>
          let b := Byte.to_N c in
          if b =? 0x5c then
            match s' with
            | [] => None
            | e :: _ =>
                match unescape1 e with
                | Some d => prepend [d] (unquote_loop 1 s')
                | None =>
                    if isb e 0x75 then
                      match getu4 s with
                      | None => None
                      | Some rr =>
                          if UTF16.IsSurrogate rr then
                            let dec :=
                              match getu4 (skipn 6 s) with
                              | Some rr1 => UTF16.DecodeRune rr rr1
                              | None => UTF16.replacementChar
                              end in
                            if negb (dec =? UTF16.replacementChar) then
                              prepend (UTF8.EncodeRune dec)
                                      (unquote_loop 11 s')
                            else
                              prepend (UTF8.EncodeRune UTF16.replacementChar)
                                      (unquote_loop 5 s')
                          else
                            prepend (UTF8.EncodeRune rr) (unquote_loop 5 s')
                      end
                    else None
                end
            end
          else if (b =? 0x22) || (b <? 0x20) then None
          else if b <? UTF8.RuneSelf then prepend [c] (unquote_loop 0 s')
          else
            let '(rr, size) := UTF8.DecodeRune s in
            prepend (UTF8.EncodeRune rr) (unquote_loop (size - 1) s')
      end
  end.

(** [unquote] of a string literal whose content is [raw]. *)
Definition unquote (raw : bytes) : option string :=
  option_map string_of_bytes (unquote_loop 0 raw).

(** *** Field names *)

(** [foldRune] on the runes that matter for ASCII names: besides the
    ASCII letters only U+017F and U+212A have an ASCII letter in their
    fold orbit. *)
Definition foldRune (r : N) : N :=
  if r =? 0x17F then 0x53
  else if r =? 0x212A then 0x4B
  else r.

(** [foldName]. *)
Fixpoint foldName_loop (skip : nat) (s : bytes) : bytes :=
  match s with
  | [] => []
  | c :: s' =>
      match skip with
      | S k => foldName_loop k s'
      | O =>
          let b := Byte.to_N c in
          if b <? UTF8.RuneSelf then
            (if (0x61 <=? b) && (b <=? 0x7a) then byte_of_N (b - 0x20)
             else c) :: foldName_loop 0 s'
          else
            let '(r, n) := UTF8.DecodeRune s in
            UTF8.EncodeRune (foldRune r) ++ foldName_loop (n - 1) s'
      end
  end.

Definition foldName (s : string) : string :=
  string_of_bytes (foldName_loop 0 (bytes_of_string s)).

(** The field selected for an object key: an exact match of the name,
    or else the first field with the same folded name. *)
Definition lookup_field {F : Type} (fields : list (string * F))
           (key : string) : option F :=
  match find (fun nf => String.eqb (fst nf) key) fields with
  | Some nf => Some (snd nf)
  | None =>
      match find (fun nf => String.eqb (foldName (fst nf)) (foldName key))
                 fields with
      | Some nf => Some (snd nf)
      | None => None
      end
  end.

(** *** Compacting the output of a MarshalJSON method *)

(** The rewriting that [compact] applies inside a string literal when
    [escapeHTML] is set: the characters [<], [>] and [&] and the
    sequences for U+2028 and U+2029 are replaced by escapes. *)
Fixpoint compact_string (s : bytes) : bytes :=
  match s with
  | [] => []
  | c :: s1 =>
      let b := Byte.to_N c in
      if (b =? 0x3c) || (b =? 0x3e) || (b =? 0x26) then
        [x5c; x75; x30; x30; Hex.digit (N.shiftr b 4);
         Hex.digit (N.land b 0xF)] ++ compact_string s1
      else
        match s1 with
        | c1 :: c2 :: s3 =>
            if (b =? 0xE2) && isb c1 0x80
               && (isb c2 0xA8 || isb c2 0xA9)
            then [x5c; x75; x32; x30; x32;
                  Hex.digit (N.land (Byte.to_N c2) 0xF)]
                 ++ compact_string s3
            else c :: compact_string s1
        | _ => c :: compact_string s1
        end
  end.

(** [compact] on bytes that open with a quote: they must be exactly one
    string literal, which is copied with the rewriting above. *)
Definition compact_literal (b : bytes) : option bytes :=
  match b with
  | c :: b1 =>
      if isb c 0x22 then
        match scan_string b1 with
        | Some (raw, []) => Some (x22 :: compact_string raw ++ [x22])
        | _ => None
        end
      else None
  | [] => None
  end.

(** *** Decoding into an empty interface *)

Section Interface.

(** [float64] and [strconv.ParseFloat(s, 64)] are left to the
    library. *)
Variable float64 : Type.
Variable ParseFloat : bytes -> option float64.

Inductive GoValue :=
| GNil
| GBool (b : bool)
| GFloat64 (f : float64)
| GString (s : string)
| GSlice (elems : list GoValue)
| GMap (m : list (string * GoValue)).

(** [m[k] = v] on a map kept as a list of bindings with distinct
    keys. *)
Fixpoint map_set (m : list (string * GoValue)) (k : string)
         (v : GoValue) : list (string * GoValue) :=
  match m with
  | [] => [(k, v)]
  | (k', v') :: m' =>
      if String.eqb k' k then (k, v) :: m'
      else (k', v') :: map_set m' k v
  end.

(** [valueInterface]: the Go value of a JSON value and whether a
    number in it failed to convert ([d.saveError]). *)
Fixpoint valueInterface (v : Value) : GoValue * bool :=
  match v with
  | JNull => (GNil, false)
  | JBool b => (GBool b, false)
  | JNumber lit =>
      match ParseFloat lit with
      | Some f => (GFloat64 f, false)
      | None => (GNil, true)
      end
  | JString raw =>
      match unquote raw with
      | Some s => (GString s, false)
      | None => (GNil, true)
      end
  | JArray elems =>
      let rs := map valueInterface elems in
      (GSlice (map fst rs), existsb snd rs)
  | JObject members =>
      fold_left
        (fun (acc : GoValue * bool) (kv : bytes * Value) =>
           let '(k, x) := kv in
           let '(g, bad) := valueInterface x in
           match acc, unquote k with
           | (GMap m, bad0), Some key => (GMap (map_set m key g), bad0 || bad)
           | (a, bad0), _ => (a, bad0 || bad)
           end)
        members (GMap [], false)
  end.

End Interface.

Arguments GNil {float64}.
Arguments GBool {float64}.
Arguments GString {float64}.
Arguments GFloat64 {float64}.
Arguments GSlice {float64}.
Arguments GMap {float64}.

(** *** Encoding of maps with string keys *)

Inductive Scalar :=
| SBool (b : bool)
| SString (s : string).

Definition encode_scalar (v : Scalar) : bytes :=
  match v with
  | SBool true => bytes_of_string "true"
  | SBool false => bytes_of_string "false"
  | SString s => appendString [] s
  end.

(** [strings.Compare(a, b) <= 0]: byte-wise order. *)
Fixpoint bytes_leb (a b : bytes) : bool :=
  match a, b with
  | [], _ => true
  | _ :: _, [] => false
  | x :: a', y :: b' =>
      if Byte.to_N x <? Byte.to_N y then true
      else if Byte.to_N y <? Byte.to_N x then false
      else bytes_leb a' b'
  end.

Fixpoint insert_sorted (kv : string * Scalar)
         (m : list (string * Scalar)) : list (string * Scalar) :=
  match m with
  | [] => [kv]
  | kv' :: m' =>
      if bytes_leb (bytes_of_string (fst kv)) (bytes_of_string (fst kv'))
      then kv :: m
      else kv' :: insert_sorted kv m'
  end.

Definition sort_keys (m : list (string * Scalar))
  : list (string * Scalar) :=
  fold_right insert_sorted [] m.

Fixpoint encode_members (m : list (string * Scalar)) : bytes :=
  match m with
  | [] => []
  | [(k, v)] => appendString [] k ++ x3a :: encode_scalar v
  | (k, v) :: m' =>
      appendString [] k ++ x3a :: encode_scalar v ++ x2c :: encode_members m'
  end.

(** The encoding of a map: the members in the order of their keys. *)
Definition encode_map (m : list (string * Scalar)) : bytes :=
  x7b :: encode_members (sort_keys m) ++ [x7d].

(** [Encoder.Encode(v)] writes the encoding followed by a newline. *)
Definition Encoder_Encode_map (m : list (string * Scalar)) : bytes :=
  encode_map m ++ [x0a].

End JSON.

(** ** net/url *)

Module URL.

Fixpoint hasPrefix (s pre : bytes) : bool :=
  match pre with
  | [] => true
  | p :: pre' =>
      match s with
      | c :: s' => Byte.eqb c p && hasPrefix s' pre'
      | [] => false
      end
  end.

(** [strings.Cut(s, sep)] for a one-byte separator: the text before the
    first [sep], the text after it, and whether [sep] occurs. *)
Fixpoint cut (s : bytes) (sep : byte) : bytes * bytes * bool :=
  match s with
  | [] => ([], [], false)
  | c :: s' =>
      if Byte.eqb c sep then ([], s', true)
      else let '(b, a, found) := cut s' sep in (c :: b, a, found)
  end.

Definition count (s : bytes) (sep : byte) : nat :=
  length (filter (Byte.eqb sep) s).

Definition contains (s : bytes) (sep : byte) : bool :=
  existsb (Byte.eqb sep) s.

Definition stringContainsCTLByte (s : bytes) : bool :=
  existsb (fun c => (Byte.to_N c <? 0x20) || (Byte.to_N c =? 0x7f)) s.

Definition isAlpha (b : N) : bool :=
  ((0x61 <=? b) && (b <=? 0x7a)) || ((0x41 <=? b) && (b <=? 0x5a)).

Definition isNum (b : N) : bool := (0x30 <=? b) && (b <=? 0x39).

Definition toLower (s : bytes) : bytes :=
  map (fun c => let b := Byte.to_N c in
                if (0x41 <=? b) && (b <=? 0x5a) then byte_of_N (b + 0x20)
                else c) s.

Inductive url_error :=
| ErrControlCharacter       (* invalid control character in URL *)
| ErrMissingScheme          (* missing protocol scheme *)
| ErrColonInFirstSegment    (* first path segment in URL cannot contain colon *)
| ErrEscape (s : bytes)     (* EscapeError *)
| ErrAuthority.             (* an error of parseAuthority *)

(** [getScheme]: [pre] is [rawURL[:i]] in reverse and [s] is
    [rawURL[i:]]. *)
Fixpoint getScheme_loop (raw pre s : bytes)
  : url_error + (bytes * bytes) :=
  match s with
  | [] => inr ([], raw)
  | c :: s' =>
      let b := Byte.to_N c in
      if isAlpha b then getScheme_loop raw (c :: pre) s'
      else if isNum b || (b =? 0x2b) || (b =? 0x2d) || (b =? 0x2e) then
        match pre with
        | [] => inr ([], raw)
        | _ :: _ => getScheme_loop raw (c :: pre) s'
        end
      else if b =? 0x3a then
        match pre with
        | [] => inl ErrMissingScheme
        | _ :: _ => inr (rev pre, s')
        end
      else inr ([], raw)
  end.

Definition getScheme (rawURL : bytes) : url_error + (bytes * bytes) :=
  getScheme_loop rawURL [] rawURL.

Inductive encoding := encodePath | encodeFragment.

Definition ishex (c : byte) : bool := JSON.isHex c.

Definition unhex (c : byte) : N :=
  match JSON.unhex c with Some d => d | None => 0 end.

(** [unescape(s, mode)] for the two modes used when a URL is parsed:
    every [%] must be followed by two hexadecimal digits. *)
Fixpoint unescape (s : bytes) : url_error + bytes :=
  match s with
  | [] => inr []
  | c :: s1 =>
      if Byte.eqb c x25 then
        match s1 with
        | h1 :: h2 :: s3 =>
            if ishex h1 && ishex h2 then
              match unescape s3 with
              | inr t => inr (byte_of_N (N.lor (N.shiftl (unhex h1) 4)
                                               (unhex h2)) :: t)
              | inl e => inl e
              end
            else inl (ErrEscape (firstn 3 s))
        | _ => inl (ErrEscape (firstn 3 s))
        end
      else
        match unescape s1 with
        | inr t => inr (c :: t)
        | inl e => inl e
        end
  end.

Definition shouldEscape (c : byte) (mode : encoding) : bool :=
  let b := Byte.to_N c in
  if isAlpha b || isNum b then false
  else if (b =? 0x2d) || (b =? 0x5f) || (b =? 0x2e) || (b =? 0x7e)
  then false
  else if (b =? 0x24) || (b =? 0x26) || (b =? 0x2b) || (b =? 0x2c)
          || (b =? 0x2f) || (b =? 0x3a) || (b =? 0x3b) || (b =? 0x3d)
          || (b =? 0x3f) || (b =? 0x40)
  then match mode with
       | encodePath => b =? 0x3f
       | encodeFragment => false
       end
  else match mode with
       | encodeFragment =>
           negb ((b =? 0x21) || (b =? 0x28) || (b =? 0x29) || (b =? 0x2a))
       | encodePath => true
       end.

Definition upperhex : bytes := bytes_of_string "0123456789ABCDEF".

Definition escape (s : bytes) (mode : encoding) : bytes :=
  flat_map
    (fun c =>
       if shouldEscape c mode then
         [ x25; nth (N.to_nat (N.shiftr (Byte.to_N c) 4)) upperhex x00;
           nth (N.to_nat (N.land (Byte.to_N c) 15)) upperhex x00 ]
       else [c]) s.

Definition bytes_eqb (a b : bytes) : bool :=
  String.eqb (string_of_bytes a) (string_of_bytes b).

Section WithAuthority.

(** [*url.Userinfo] and [parseAuthority] are left to the library: the
    latter yields the user information and the host, or fails. *)
Variable Userinfo : Type.
Variable parseAuthority : string -> option (option Userinfo * string).

Record URL := mkURL {
  Scheme : string;
  Opaque : string;
  User : option Userinfo;
  Host : string;
  Path : string;
  RawPath : string;
  OmitHost : bool;
  ForceQuery : bool;
  RawQuery : string;
  Fragment : string;
  RawFragment : string
}.

Definition empty : URL :=
  mkURL EmptyString EmptyString None EmptyString EmptyString EmptyString
        false false EmptyString EmptyString EmptyString.

(** [u.IsAbs()]. *)
Definition IsAbs (u : URL) : bool :=
  negb (String.eqb (Scheme u) EmptyString).

(** [u.setPath(p)]. *)
Definition setPath (u : URL) (p : bytes) : url_error + URL :=
  match unescape p with
  | inl e => inl e
  | inr path =>
      let raw := if bytes_eqb p (escape path encodePath) then []
                 else p in
      inr (mkURL (Scheme u) (Opaque u) (User u) (Host u)
                 (string_of_bytes path) (string_of_bytes raw)
                 (OmitHost u) (ForceQuery u) (RawQuery u)
                 (Fragment u) (RawFragment u))
  end.

(** [u.setFragment(f)]. *)
Definition setFragment (u : URL) (f : bytes) : url_error + URL :=
  match unescape f with
  | inl e => inl e
  | inr frag =>
      let raw := if bytes_eqb f (escape frag encodeFragment) then []
                 else f in
      inr (mkURL (Scheme u) (Opaque u) (User u) (Host u) (Path u)
                 (RawPath u) (OmitHost u) (ForceQuery u) (RawQuery u)
                 (string_of_bytes frag) (string_of_bytes raw))
  end.

(** [parse(rawURL, false)]. *)
Definition parse (rawURL : bytes) : url_error + URL :=
  if stringContainsCTLByte rawURL then inl ErrControlCharacter
  else if bytes_eqb rawURL [x2a] then
    inr (mkURL EmptyString EmptyString None EmptyString
               (string_of_bytes [x2a]) EmptyString false false
               EmptyString EmptyString EmptyString)
  else
    match getScheme rawURL with
    | inl e => inl e
    | inr (scheme, rest0) =>
        let scheme := toLower scheme in
        let '(rest, rawQuery, forceQuery) :=
          match rev rest0 with
          | x3f :: before =>
              if Nat.eqb (count rest0 x3f) 1
              then (rev before, [], true)
              else let '(b, a, _) := cut rest0 x3f in (b, a, false)
          | _ => let '(b, a, _) := cut rest0 x3f in (b, a, false)
          end in
        let u0 :=
          mkURL (string_of_bytes scheme) EmptyString None EmptyString
                EmptyString EmptyString false forceQuery
                (string_of_bytes rawQuery) EmptyString EmptyString in
        let rootless := negb (hasPrefix rest [x2f]) in
        if rootless && negb (bytes_eqb scheme []) then
          inr (mkURL (Scheme u0) (string_of_bytes rest) None EmptyString
                     EmptyString EmptyString false forceQuery
                     (RawQuery u0) EmptyString EmptyString)
        else if rootless
                && contains (fst (fst (cut rest x2f))) x3a
        then inl ErrColonInFirstSegment
        else if (negb (bytes_eqb scheme [])
                 || negb (hasPrefix rest [x2f; x2f; x2f]))
                && hasPrefix rest [x2f; x2f]
        then
          let auth0 := skipn 2 rest in
          let '(authority, rest') :=
            let '(b, a, found) := cut auth0 x2f in
            if found then (b, x2f :: a) else (auth0, []) in
          match parseAuthority (string_of_bytes authority) with
          | None => inl ErrAuthority
          | Some (user, host) =>
              setPath (mkURL (Scheme u0) EmptyString user host
                             EmptyString EmptyString false forceQuery
                             (RawQuery u0) EmptyString EmptyString)
                      rest'
          end
        else if negb (bytes_eqb scheme []) && hasPrefix rest [x2f] then
          setPath (mkURL (Scheme u0) EmptyString None EmptyString
                         EmptyString EmptyString true forceQuery
                         (RawQuery u0) EmptyString EmptyString)
                  rest
        else setPath u0 rest
    end.

(** [url.Parse(rawURL)]. *)
Definition Parse (rawURL : string) : url_error + URL :=
  let '(u, frag, _) := cut (bytes_of_string rawURL) x23 in
  match parse u with
  | inl e => inl e
  | inr url =>
      match frag with
      | [] => inr url
      | _ :: _ => setFragment url frag
      end
  end.

End WithAuthority.

Arguments Scheme {Userinfo}.
Arguments Path {Userinfo}.
Arguments Host {Userinfo}.
Arguments IsAbs {Userinfo}.

End URL.

(** ** net/textproto *)

Module Textproto.

(** [validHeaderFieldByte]: the token characters of RFC 7230. *)
Definition validHeaderFieldByte (c : byte) : bool :=
  let b := Byte.to_N c in
  URL.isAlpha b || URL.isNum b
  || existsb (N.eqb b)
       [0x21; 0x23; 0x24; 0x25; 0x26; 0x27; 0x2a; 0x2b; 0x2d; 0x2e;
        0x5e; 0x5f; 0x60; 0x7c; 0x7e].

(** The rewriting loop of [canonicalMIMEHeaderKey]: upper case at the
    start and after each dash, lower case elsewhere. *)
Fixpoint canon (upper : bool) (a : bytes) : bytes :=
  match a with
  | [] => []
  | c :: a' =>
      let b := Byte.to_N c in
      let c' :=
        if upper && (0x61 <=? b) && (b <=? 0x7a) then byte_of_N (b - 0x20)
        else if negb upper && (0x41 <=? b) && (b <=? 0x5a)
        then byte_of_N (b + 0x20)
        else c in
      c' :: canon (Byte.eqb c' x2d) a'
  end.

(** [CanonicalMIMEHeaderKey]: a key with a byte that is not a token
    character is returned unchanged. *)
Definition CanonicalMIMEHeaderKey (s : string) : string :=
  let a := bytes_of_string s in
  if forallb validHeaderFieldByte a then string_of_bytes (canon true a)
  else s.

End Textproto.

(** ** Package sagapay: types (types.go) *)

Definition NetworkType := string.
Definition NetworkTypeERC20 : NetworkType := "ERC20".
Definition NetworkTypeBEP20 : NetworkType := "BEP20".
Definition NetworkTypeTRC20 : NetworkType := "TRC20".
Definition NetworkTypePOLYGON : NetworkType := "POLYGON".
Definition NetworkTypeSOLANA : NetworkType := "SOLANA".

Definition TransactionType := string.
Definition TransactionTypeDeposit : TransactionType := "deposit".
Definition TransactionTypeWithdrawal : TransactionType := "withdrawal".

Definition TransactionStatus := string.
Definition TransactionStatusPending : TransactionStatus := "PENDING".
Definition TransactionStatusProcessing : TransactionStatus := "PROCESSING".
Definition TransactionStatusCompleted : TransactionStatus := "COMPLETED".
Definition TransactionStatusFailed : TransactionStatus := "FAILED".
Definition TransactionStatusCancelled : TransactionStatus := "CANCELLED".

Definition AddressType := string.
Definition AddressTypeTemporary : AddressType := "TEMPORARY".
Definition AddressTypePermanent : AddressType := "PERMANENT".

(** The enumerated constants of each string type. *)
Definition NetworkTypes : list NetworkType :=
  [ NetworkTypeERC20; NetworkTypeBEP20; NetworkTypeTRC20;
    NetworkTypePOLYGON; NetworkTypeSOLANA ].
Definition TransactionTypes : list TransactionType :=
  [ TransactionTypeDeposit; TransactionTypeWithdrawal ].
Definition TransactionStatuses : list TransactionStatus :=
  [ TransactionStatusPending; TransactionStatusProcessing;
    TransactionStatusCompleted; TransactionStatusFailed;
    TransactionStatusCancelled ].

Module CreateDepositParams.
Record t := mk {
  NetworkType : NetworkType;
  ContractAddress : string;
  Amount : string;
  IPNUrl : string;
  UDF : string;
  Type_ : AddressType
}.
End CreateDepositParams.

Module CreateWithdrawalParams.
Record t := mk {
  NetworkType : NetworkType;
  ContractAddress : string;
  Address : string;
  Amount : string;
  IPNUrl : string;
  UDF : string
}.
End CreateWithdrawalParams.

Module DepositResponse.
Record t {Time : Type} := mk {
  ID : string;
  Address : string;
  ExpiresAt : Time;
  Amount : string;
  Status : TransactionStatus
}.
Arguments t : clear implicits.
Arguments mk {Time}.
End DepositResponse.

Module WithdrawalResponse.
Record t := mk {
  ID : string;
  Status : TransactionStatus;
  Fee : string
}.
End WithdrawalResponse.

Module Token.
Record t := mk {
  NetworkType : NetworkType;
  ContractAddress : string;
  Symbol : string;
  Name : string;
  Decimals : Z
}.
End Token.

Module Transaction.
Record t {Time : Type} := mk {
  ID : string;
  TransactionType : TransactionType;
  Status : TransactionStatus;
  Amount : string;
  CreatedAt : Time;
  UpdatedAt : Time;
  TxHash : string;
  NetworkType : NetworkType;
  ContractAddress : string;
  Address : string;
  Token : Token.t
}.
Arguments t : clear implicits.
Arguments mk {Time}.
End Transaction.

Module TransactionStatusResponse.
Record t {Time : Type} := mk {
  Address : string;
  TransactionType : TransactionType;
  Count : Z;
  Transactions : list (Transaction.t Time)
}.
Arguments t : clear implicits.
Arguments mk {Time}.
End TransactionStatusResponse.

Module Balance.
Record t := mk {
  Raw : string;
  Formatted : string
}.
End Balance.

Module WalletBalanceResponse.
Record t := mk {
  Address : string;
  NetworkType : NetworkType;
  ContractAddress : string;
  Token : Token.t;
  Balance : Balance.t
}.
End WalletBalanceResponse.

Module WebhookPayload.
Record t {Time : Type} := mk {
  ID : string;
  Type_ : TransactionType;
  Status : TransactionStatus;
  Address : string;
  NetworkType : NetworkType;
  Amount : string;
  UDF : string;
  TxHash : string;
  Timestamp : Time
}.
Arguments t : clear implicits.
Arguments mk {Time}.

(** The JSON fields of the struct, in the order of declaration. *)
Inductive field :=
| f_id | f_type | f_status | f_address | f_networkType | f_amount
| f_udf | f_txHash | f_timestamp.

Definition fields : list (string * field) :=
  [ ("id", f_id); ("type", f_type); ("status", f_status);
    ("address", f_address); ("networkType", f_networkType);
    ("amount", f_amount); ("udf", f_udf); ("txHash", f_txHash);
    ("timestamp", f_timestamp) ].
End WebhookPayload.

Module APIError.
Record t {float64 : Type} := mk {
  Error : string;
  Message : string;
  Data : JSON.GoValue float64;
  Code : Z
}.
Arguments t : clear implicits.
Arguments mk {float64}.

(** The JSON fields: [Code] carries the tag [json:"-"] and is none of
    them. *)
Inductive field := f_error | f_message | f_data.

Definition fields : list (string * field) :=
  [ ("error", f_error); ("message", f_message); ("data", f_data) ].
End APIError.

(** Errors created inside the standard library. *)
Inductive ext_error :=
| json_SyntaxError
| json_UnmarshalTypeError (value : string)
| json_MarshalerError
| time_ParseError
| time_NotAString
| url_Error (op : string) (e : URL.url_error)
| http_NilContext
| http_InvalidMethod (method : string)
| io_Error (n : N).

(** The value kinds named by an [UnmarshalTypeError]. *)
Definition value_kind (v : JSON.Value) : string :=
  match v with
  | JSON.JNull => "null"
  | JSON.JBool _ => "bool"
  | JSON.JNumber _ => "number"
  | JSON.JString _ => "string"
  | JSON.JArray _ => "array"
  | JSON.JObject _ => "object"
  end.

(** Decoding of a JSON value into a field of kind string: the new content
    of the field, if it changes, and the error saved, if any. *)
Definition decode_string (v : JSON.Value)
  : option string * option ext_error :=
  match v with
  | JSON.JNull => (None, None)
  | JSON.JString raw =>
      match JSON.unquote raw with
      | Some s => (Some s, None)
      | None => (None, None)
      end
  | _ => (None, Some (json_UnmarshalTypeError (value_kind v)))
  end.

Definition http_StatusOK : Z := 200.
Definition http_MethodGet : string := "GET".
Definition http_MethodPost : string := "POST".

(** [http.Header]: a map from canonical keys to lists of values, kept as
    a list of bindings. *)
Definition Header := list (string * list string).

Fixpoint Header_lookup (h : Header) (key : string) : list string :=
  match h with
  | [] => []
  | (k, v) :: h' => if String.eqb k key then v else Header_lookup h' key
  end.

(** [h.Get(key)]: the first value under the canonical form of [key]. *)
Definition Header_Get (h : Header) (key : string) : string :=
  match Header_lookup h (Textproto.CanonicalMIMEHeaderKey key) with
  | [] => EmptyString
  | v :: _ => v
  end.

Fixpoint Header_store (h : Header) (key : string) (v : list string)
  : Header :=
  match h with
  | [] => [(key, v)]
  | (k, v') :: h' =>
      if String.eqb k key then (key, v) :: h'
      else (k, v') :: Header_store h' key v
  end.

(** [h.Set(key, value)]. *)
Definition Header_Set (h : Header) (key value : string) : Header :=
  Header_store h (Textproto.CanonicalMIMEHeaderKey key) [value].

(** The calls made on an [http.ResponseWriter], oldest first. *)
Inductive rw_call :=
| rw_HeaderSet (key value : string)
| rw_WriteHeader (statusCode : Z)
| rw_Write (data : bytes).

Definition ResponseWriter := list rw_call.

(** [fmt.Sprintf] with the verb [%d]. *)
Definition fmt_d (n : Z) : string := NilZero.string_of_int (Z.to_int n).

Definition DefaultBaseURL : string := "https://api.sagapay.net".

(** [30 * time.Second], in nanoseconds. *)
Definition DefaultTimeout : Z := 30 * 1000000000.

(** ** Package sagapay: webhook.go and client.go *)

(** *** What the package takes from the standard library *)

(** [time.Time] with its zero value and the two functions behind
    [MarshalJSON] and [UnmarshalJSON]; [float64] and [strconv.ParseFloat];
    the message of an error of the standard library; [url.Userinfo],
    [parseAuthority], [URL.ResolveReference], [URL.String],
    [url.Values.Encode] and [removeEmptyPort]; [context.Context]; and
    [json.NewDecoder(body).Decode(&response)] for the four response
    structs. *)
Class StdLib := {
  Time : Type;
  Time_zero : Time;
  appendStrictRFC3339 : Time -> option bytes;
  parseStrictRFC3339 : bytes -> option Time;
  float64 : Type;
  ParseFloat : bytes -> option float64;
  ext_text : ext_error -> string;
  Userinfo : Type;
  parseAuthority : string -> option (option Userinfo * string);
  ResolveReference :
    URL.URL Userinfo -> URL.URL Userinfo -> URL.URL Userinfo;
  URL_String : URL.URL Userinfo -> string;
  Values_Encode : list (string * string) -> string;
  removeEmptyPort : string -> string;
  Ctx : Type;
  Decode_DepositResponse : bytes -> ext_error + DepositResponse.t Time;
  Decode_WithdrawalResponse : bytes -> ext_error + WithdrawalResponse.t;
  Decode_TransactionStatusResponse :
    bytes -> ext_error + TransactionStatusResponse.t Time;
  Decode_WalletBalanceResponse :
    bytes -> ext_error + WalletBalanceResponse.t
}.

Section Sagapay.

Context {L : StdLib}.

Abbreviation URL := (URL.URL Userinfo).
Abbreviation WebhookPayload := (WebhookPayload.t Time).
Abbreviation APIError := (APIError.t float64).

(** *** Errors *)

Inductive error :=
| errorString (s : string)
| wrapError (prefix : string) (err : error)
| APIErrorPtr (e : APIError)
| external (e : ext_error).

(** [errors.New(text)]. *)
Definition errors_New (text : string) : error := errorString text.

(** [fmt.Errorf(prefix + "%w", err)]. *)
Definition fmt_Errorf_w (prefix : string) (err : error) : error :=
  wrapError prefix err.

(** [APIError.Error]. *)
Definition APIError_Error (e : APIError) : string :=
  ("API error: " ++ APIError.Error e ++ " - " ++ APIError.Message e)%string.

(** [err.Error()]. *)
Fixpoint Error (err : error) : string :=
  match err with
  | errorString s => s
  | wrapError prefix e => (prefix ++ Error e)%string
  | APIErrorPtr e => APIError_Error e
  | external e => ext_text e
  end.

(** *** Validation (types.go) *)

Definition is_empty (s : string) : bool := String.eqb s EmptyString.

(** [CreateDepositParams.Validate]. *)
Definition CreateDepositParams_Validate (p : CreateDepositParams.t)
  : option error :=
  if is_empty (CreateDepositParams.NetworkType p) then
    Some (errors_New "networkType is required")
  else if is_empty (CreateDepositParams.ContractAddress p) then
    Some (errors_New "contractAddress is required")
  else if is_empty (CreateDepositParams.Amount p) then
    Some (errors_New "amount is required")
  else if is_empty (CreateDepositParams.IPNUrl p) then
    Some (errors_New "ipnUrl is required")
  else None.

(** [CreateWithdrawalParams.Validate]. *)
Definition CreateWithdrawalParams_Validate (p : CreateWithdrawalParams.t)
  : option error :=
  if is_empty (CreateWithdrawalParams.NetworkType p) then
    Some (errors_New "networkType is required")
  else if is_empty (CreateWithdrawalParams.ContractAddress p) then
    Some (errors_New "contractAddress is required")
  else if is_empty (CreateWithdrawalParams.Address p) then
    Some (errors_New "address is required")
  else if is_empty (CreateWithdrawalParams.Amount p) then
    Some (errors_New "amount is required")
  else if is_empty (CreateWithdrawalParams.IPNUrl p) then
    Some (errors_New "ipnUrl is required")
  else None.

(** *** JSON forms of the structs *)

(** [Time.MarshalJSON]. *)
Definition Time_MarshalJSON (t : Time) : option bytes :=
  match appendStrictRFC3339 t with
  | Some b => Some (x22 :: b ++ [x22])
  | None => None
  end.

(** [Time.UnmarshalJSON]. *)
Definition Time_UnmarshalJSON (t : Time) (data : bytes)
  : ext_error + Time :=
  if URL.bytes_eqb data (bytes_of_string "null") then inr t
  else
    match data with
    | c :: rest =>
        if Nat.ltb (length data) 2 || negb (JSON.isb c 0x22)
           || negb (JSON.isb (last data x00) 0x22)
        then inl time_NotAString
        else
          match parseStrictRFC3339 (removelast rest) with
          | Some t' => inr t'
          | None => inl time_ParseError
          end
    | [] => inl time_NotAString
    end.

Definition name (s : string) : bytes := JSON.appendString [] s ++ [x3a].

(** A member of kind string: [,"name":"value"]; with [omitempty] it is
    left out when the value is empty. *)
Definition member (first omitempty : bool) (n v : string) : bytes :=
  if omitempty && is_empty v then []
  else (if first then [] else [x2c]) ++ name n ++ JSON.appendString [] v.

(** [json.Marshal] of a [WebhookPayload]. *)
Definition Marshal_WebhookPayload (p : WebhookPayload)
  : ext_error + bytes :=
  match Time_MarshalJSON (WebhookPayload.Timestamp p) with
  | None => inl json_MarshalerError
  | Some b =>
      match JSON.compact_literal b with
      | None => inl json_MarshalerError
      | Some ts =>
          inr (x7b
               :: member true false "id" (WebhookPayload.ID p)
               ++ member false false "type" (WebhookPayload.Type_ p)
               ++ member false false "status" (WebhookPayload.Status p)
               ++ member false false "address" (WebhookPayload.Address p)
               ++ member false false "networkType"
                    (WebhookPayload.NetworkType p)
               ++ member false false "amount" (WebhookPayload.Amount p)
               ++ member false true "udf" (WebhookPayload.UDF p)
               ++ member false true "txHash" (WebhookPayload.TxHash p)
               ++ x2c :: name "timestamp" ++ ts ++ [x7d])
      end
  end.

(** [json.Marshal] of the two parameter structs. *)
Definition Marshal_CreateDepositParams (p : CreateDepositParams.t)
  : bytes :=
  x7b
  :: member true false "networkType" (CreateDepositParams.NetworkType p)
  ++ member false false "contractAddress"
       (CreateDepositParams.ContractAddress p)
  ++ member false false "amount" (CreateDepositParams.Amount p)
  ++ member false false "ipnUrl" (CreateDepositParams.IPNUrl p)
  ++ member false true "udf" (CreateDepositParams.UDF p)
  ++ member false true "type" (CreateDepositParams.Type_ p)
  ++ [x7d].

Definition Marshal_CreateWithdrawalParams (p : CreateWithdrawalParams.t)
  : bytes :=
  x7b
  :: member true false "networkType"
       (CreateWithdrawalParams.NetworkType p)
  ++ member false false "contractAddress"
       (CreateWithdrawalParams.ContractAddress p)
  ++ member false false "address" (CreateWithdrawalParams.Address p)
  ++ member false false "amount" (CreateWithdrawalParams.Amount p)
  ++ member false false "ipnUrl" (CreateWithdrawalParams.IPNUrl p)
  ++ member false true "udf" (CreateWithdrawalParams.UDF p)
  ++ [x7d].

Definition set_string (p : WebhookPayload) (f : WebhookPayload.field)
           (s : string) : WebhookPayload :=
  let '(WebhookPayload.mk id ty st ad nt am udf tx ts) := p in
  match f with
  | WebhookPayload.f_id => WebhookPayload.mk s ty st ad nt am udf tx ts
  | WebhookPayload.f_type => WebhookPayload.mk id s st ad nt am udf tx ts
  | WebhookPayload.f_status => WebhookPayload.mk id ty s ad nt am udf tx ts
  | WebhookPayload.f_address => WebhookPayload.mk id ty st s nt am udf tx ts
  | WebhookPayload.f_networkType =>
      WebhookPayload.mk id ty st ad s am udf tx ts
  | WebhookPayload.f_amount => WebhookPayload.mk id ty st ad nt s udf tx ts
  | WebhookPayload.f_udf => WebhookPayload.mk id ty st ad nt am s tx ts
  | WebhookPayload.f_txHash => WebhookPayload.mk id ty st ad nt am udf s ts
  | WebhookPayload.f_timestamp => p
  end.

Definition set_Timestamp (p : WebhookPayload) (t : Time)
  : WebhookPayload :=
  let '(WebhookPayload.mk id ty st ad nt am udf tx _) := p in
  WebhookPayload.mk id ty st ad nt am udf tx t.

(** The bytes of a literal handed to [UnmarshalJSON]. *)
Definition literal_bytes (v : JSON.Value) : option bytes :=
  match v with
  | JSON.JNull => Some (bytes_of_string "null")
  | JSON.JBool true => Some (bytes_of_string "true")
  | JSON.JBool false => Some (bytes_of_string "false")
  | JSON.JNumber lit => Some lit
  | JSON.JString raw => Some (x22 :: raw ++ [x22])
  | JSON.JArray _ | JSON.JObject _ => None
  end.

Definition first_error (saved new : option ext_error)
  : option ext_error :=
  match saved with
  | Some e => Some e
  | None => new
  end.

(** One member of the object decoded into a [WebhookPayload]: an error
    of [UnmarshalJSON] stops the decoding, a mismatch of kinds is saved
    and the decoding goes on, an unknown key is skipped. *)
Definition decode_member (p : WebhookPayload) (saved : option ext_error)
           (kv : bytes * JSON.Value)
  : ext_error + (WebhookPayload * option ext_error) :=
  let '(k, v) := kv in
  match JSON.unquote k with
  | None => inr (p, saved)
  | Some key =>
      match JSON.lookup_field WebhookPayload.fields key with
      | None => inr (p, saved)
      | Some WebhookPayload.f_timestamp =>
          match literal_bytes v with
          | None => inl time_NotAString
          | Some data =>
              match Time_UnmarshalJSON (WebhookPayload.Timestamp p) data with
              | inl e => inl e
              | inr t => inr (set_Timestamp p t, saved)
              end
          end
      | Some f =>
          let '(s, e) := decode_string v in
          inr (match s with Some s' => set_string p f s' | None => p end,
               first_error saved e)
      end
  end.

Fixpoint decode_members (p : WebhookPayload) (saved : option ext_error)
         (ms : list (bytes * JSON.Value))
  : ext_error + (WebhookPayload * option ext_error) :=
  match ms with
  | [] => inr (p, saved)
  | kv :: ms' =>
      match decode_member p saved kv with
      | inl e => inl e
      | inr (p', saved') => decode_members p' saved' ms'
      end
  end.

(** [json.Unmarshal(data, &payload)] for a [WebhookPayload] holding
    [p]. *)
Definition Unmarshal_WebhookPayload (data : bytes) (p : WebhookPayload)
  : ext_error + WebhookPayload :=
  match JSON.parse data with
  | None => inl json_SyntaxError
  | Some JSON.JNull => inr p
  | Some (JSON.JObject ms) =>
      match decode_members p None ms with
      | inl e => inl e
      | inr (_, Some e) => inl e
      | inr (p', None) => inr p'
      end
  | Some v => inl (json_UnmarshalTypeError (value_kind v))
  end.

Definition WebhookPayload_zero : WebhookPayload :=
  WebhookPayload.mk EmptyString EmptyString EmptyString EmptyString
                    EmptyString EmptyString EmptyString EmptyString
                    Time_zero.

Definition APIError_zero : APIError :=
  APIError.mk EmptyString EmptyString JSON.GNil 0%Z.

Definition decode_APIError_member (a : APIError)
           (saved : option ext_error) (kv : bytes * JSON.Value)
  : APIError * option ext_error :=
  let '(k, v) := kv in
  match JSON.unquote k with
  | None => (a, saved)
  | Some key =>
      match JSON.lookup_field APIError.fields key with
      | None => (a, saved)
      | Some APIError.f_error =>
          let '(s, e) := decode_string v in
          (match s with
           | Some s' => APIError.mk s' (APIError.Message a)
                                    (APIError.Data a) (APIError.Code a)
           | None => a
           end, first_error saved e)
      | Some APIError.f_message =>
          let '(s, e) := decode_string v in
          (match s with
           | Some s' => APIError.mk (APIError.Error a) s'
                                    (APIError.Data a) (APIError.Code a)
           | None => a
           end, first_error saved e)
      | Some APIError.f_data =>
          let '(g, bad) := JSON.valueInterface float64 ParseFloat v in
          (APIError.mk (APIError.Error a) (APIError.Message a) g
                       (APIError.Code a),
           first_error saved
             (if bad then Some (json_UnmarshalTypeError "number")
              else None))
      end
  end.

(** [json.NewDecoder(body).Decode(&apiErr)] for a zero [APIError]. *)
Definition Decode_APIError (body : bytes) : ext_error + APIError :=
  match JSON.parse_first body with
  | None => inl json_SyntaxError
  | Some JSON.JNull => inr APIError_zero
  | Some (JSON.JObject ms) =>
      match fold_left (fun st kv => decode_APIError_member (fst st) (snd st) kv)
                      ms (APIError_zero, None) with
      | (_, Some e) => inl e
      | (a, None) => inr a
      end
  | Some v => inl (json_UnmarshalTypeError (value_kind v))
  end.

(** *** The webhook handler (webhook.go) *)

Record WebhookHandler := mkWebhookHandler { apiSecret : string }.

(** [NewWebhookHandler]. *)
Definition NewWebhookHandler (apiSecret : string) : WebhookHandler :=
  mkWebhookHandler apiSecret.

(** [WebhookHandler.VerifySignature]. *)
Definition VerifySignature (h : WebhookHandler) (payload : bytes)
           (signature : string) : bool :=
  let expectedSignature :=
    Hex.EncodeToString
      (HMAC.Sum (bytes_of_string (apiSecret h)) payload) in
  hmac_Equal (bytes_of_string expectedSignature)
             (bytes_of_string signature).

(** [WebhookHandler.ProcessWebhook]. *)
Definition ProcessWebhook (h : WebhookHandler) (body : bytes)
           (signature : string) : option WebhookPayload * option error :=
  if negb (VerifySignature h body signature) then
    (None, Some (errors_New "invalid webhook signature"))
  else
    match Unmarshal_WebhookPayload body WebhookPayload_zero with
    | inl err =>
        (None, Some (fmt_Errorf_w "failed to parse webhook payload: "
                                  (external err)))
    | inr payload => (Some payload, None)
    end.

(** An [io.Reader] as [io.ReadAll] sees it: the bytes it delivers and
    the error, if any, that ends the stream instead of [io.EOF]. *)
Record Reader := mkReader { content : bytes; failure : option error }.

Definition io_ReadAll (r : Reader) : bytes * option error :=
  (content r, failure r).

(** The parts of an incoming [*http.Request] that the handler reads. *)
Record Request := mkRequest { Header_ : Header; Body : Reader }.

(** [WebhookHandler.HandleRequest]. *)
Definition HandleRequest (h : WebhookHandler) (r : Request)
  : option WebhookPayload * option error :=
  let signature := Header_Get (Header_ r) "x-sagapay-signature" in
  if is_empty signature then
    (None, Some (errors_New "missing SagaPay signature in headers"))
  else
    let '(body, err) := io_ReadAll (Body r) in
    match err with
    | Some e =>
        (None, Some (fmt_Errorf_w "failed to read request body: " e))
    | None =>
        if negb (VerifySignature h body signature) then
          (None, Some (errors_New "invalid webhook signature"))
        else
          match Unmarshal_WebhookPayload body WebhookPayload_zero with
          | inl err' =>
              (None,
               Some (fmt_Errorf_w "failed to parse webhook payload: "
                                  (external err')))
          | inr payload => (Some payload, None)
          end
    end.

(** [SendSuccessResponse]. *)
Definition SendSuccessResponse (w : ResponseWriter) : ResponseWriter :=
  w ++ [ rw_HeaderSet "Content-Type" "application/json";
         rw_WriteHeader http_StatusOK;
         rw_Write (JSON.Encoder_Encode_map [("received", JSON.SBool true)]) ].

(** [SendErrorResponse]. *)
Definition SendErrorResponse (w : ResponseWriter) (err : error)
  : ResponseWriter :=
  w ++ [ rw_HeaderSet "Content-Type" "application/json";
         rw_WriteHeader http_StatusOK;
         rw_Write (JSON.Encoder_Encode_map
                     [ ("received", JSON.SBool false);
                       ("error", JSON.SString (Error err)) ]) ].

(** *** The client (client.go) *)

(** An outgoing [*http.Request]. *)
Record ClientRequest := mkClientRequest {
  req_ctx : Ctx;
  req_Method : string;
  req_URL : URL;
  req_Header : Header;
  req_Body : option bytes
}.

(** An [*http.Response]: the status code and the bytes of the body. *)
Record Response := mkResponse { StatusCode : Z; Response_Body : bytes }.

(** An [*http.Client]: its timeout and the answer of [Do] to a
    request. *)
Record http_Client := mk_http_Client {
  http_Timeout : Z;
  http_Do : ClientRequest -> error + Response
}.

(** [Do] of a client built as [&http.Client{Timeout: timeout}]. *)
Class DefaultTransport := {
  default_Do : Z -> ClientRequest -> error + Response
}.

Context {D : DefaultTransport}.

Record Config := mkConfig {
  BaseURL : string;
  APIKey : string;
  APISecret : string;
  Timeout : Z;
  HTTPClient : option http_Client
}.

Record Client := mkClient {
  c_client : http_Client;
  c_baseURL : URL;
  c_apiKey : string;
  c_apiSecret : string
}.

(** [url.Parse]. *)
Definition url_Parse (rawURL : string) : error + URL :=
  match URL.Parse Userinfo parseAuthority rawURL with
  | inl e => inl (external (url_Error "parse" e))
  | inr u => inr u
  end.

(** [NewClient]. *)
Definition NewClient (config : Config) : option Client * option error :=
  if is_empty (APIKey config) then
    (None, Some (errorString "API key is required"))
  else if is_empty (APISecret config) then
    (None, Some (errorString "API secret is required"))
  else
    let baseURL :=
      if negb (is_empty (BaseURL config)) then BaseURL config
      else DefaultBaseURL in
    match url_Parse baseURL with
    | inl err => (None, Some (fmt_Errorf_w "invalid base URL: " err))
    | inr parsedURL =>
        let httpClient :=
          match HTTPClient config with
          | Some hc => hc
          | None =>
              let timeout :=
                if (0 <? Timeout config)%Z then Timeout config
                else DefaultTimeout in
              mk_http_Client timeout (default_Do timeout)
          end in
        (Some (mkClient httpClient parsedURL (APIKey config)
                        (APISecret config)), None)
    end.

(** The values passed as [body] to [sendRequest]. *)
Inductive body_value :=
| body_deposit (p : CreateDepositParams.t)
| body_withdrawal (p : CreateWithdrawalParams.t).

(** [json.NewEncoder(buf).Encode(body)]: the bytes left in [buf]. *)
Definition Encode_body (b : body_value) : error + bytes :=
  match b with
  | body_deposit p => inr (Marshal_CreateDepositParams p ++ [x0a])
  | body_withdrawal p => inr (Marshal_CreateWithdrawalParams p ++ [x0a])
  end.

Definition validMethod (method : string) : bool :=
  negb (is_empty method)
  && forallb Textproto.validHeaderFieldByte (bytes_of_string method).

Definition set_Host (u : URL) (host : string) : URL :=
  URL.mkURL Userinfo (URL.Scheme u) (URL.Opaque Userinfo u)
            (URL.User Userinfo u) host (URL.Path u)
            (URL.RawPath Userinfo u) (URL.OmitHost Userinfo u)
            (URL.ForceQuery Userinfo u) (URL.RawQuery Userinfo u)
            (URL.Fragment Userinfo u) (URL.RawFragment Userinfo u).

Definition set_RawQuery (u : URL) (q : string) : URL :=
  URL.mkURL Userinfo (URL.Scheme u) (URL.Opaque Userinfo u)
            (URL.User Userinfo u) (URL.Host u) (URL.Path u)
            (URL.RawPath Userinfo u) (URL.OmitHost Userinfo u)
            (URL.ForceQuery Userinfo u) q
            (URL.Fragment Userinfo u) (URL.RawFragment Userinfo u).

(** [http.NewRequestWithContext]. *)
Definition http_NewRequestWithContext (ctx : option Ctx)
           (method url : string) (body : option bytes)
  : error + ClientRequest :=
  let method := if is_empty method then http_MethodGet else method in
  if negb (validMethod method) then
    inl (external (http_InvalidMethod method))
  else
    match ctx with
    | None => inl (external http_NilContext)
    | Some cx =>
        match url_Parse url with
        | inl err => inl err
        | inr u =>
            inr (mkClientRequest
                   cx method (set_Host u (removeEmptyPort (URL.Host u)))
                   [] body)
        end
    end.

Definition set_Header (req : ClientRequest) (key value : string)
  : ClientRequest :=
  mkClientRequest (req_ctx req) (req_Method req) (req_URL req)
                  (Header_Set (req_Header req) key value) (req_Body req).

(** The outcome of a call that may reach the network: the error
    returned, the value stored through the result pointer, and the
    requests handed to [Do], oldest first. *)
Definition outcome (T : Type) : Type :=
  (option error * option T * list ClientRequest)%type.

(** [sendRequestWithQuery]; [v] is the decoder of the type that the
    result pointer points to, [None] for a nil pointer. *)
Definition sendRequestWithQuery {T : Type} (c : Client)
           (ctx : option Ctx) (method path : string)
           (query : option (list (string * string)))
           (body : option body_value)
           (v : option (bytes -> ext_error + T)) : outcome T :=
  match url_Parse path with
  | inl err => (Some err, None, [])
  | inr u =>
      let u := ResolveReference (c_baseURL c) u in
      let u :=
        match query with
        | Some q => set_RawQuery u (Values_Encode q)
        | None => u
        end in
      let buf :=
        match body with
        | Some b =>
            match Encode_body b with
            | inl err => inl err
            | inr data => inr (Some data)
            end
        | None => inr None
        end in
      match buf with
      | inl err => (Some err, None, [])
      | inr buf =>
          match http_NewRequestWithContext ctx method (URL_String u) buf with
          | inl err => (Some err, None, [])
          | inr req =>
              let req := set_Header req "Content-Type" "application/json" in
              let req := set_Header req "Accept" "application/json" in
              let req := set_Header req "x-api-key" (c_apiKey c) in
              let req := set_Header req "x-api-secret" (c_apiSecret c) in
              match http_Do (c_client c) req with
              | inl err => (Some err, None, [req])
              | inr resp =>
                  if (400 <=? StatusCode resp)%Z then
                    match Decode_APIError (Response_Body resp) with
                    | inl _ =>
                        (Some (errorString
                                 ("HTTP error: " ++ fmt_d (StatusCode resp)
                                  ++ " - failed to parse error response")),
                         None, [req])
                    | inr apiErr => (Some (APIErrorPtr apiErr), None, [req])
                    end
                  else
                    match v with
                    | Some decode =>
                        match decode (Response_Body resp) with
                        | inl err => (Some (external err), None, [req])
                        | inr x => (None, Some x, [req])
                        end
                    | None => (None, None, [req])
                    end
              end
          end
      end
  end.

(** [sendRequest]. *)
Definition sendRequest {T : Type} (c : Client) (ctx : option Ctx)
           (method path : string) (body : option body_value)
           (v : option (bytes -> ext_error + T)) : outcome T :=
  sendRequestWithQuery c ctx method path None body v.

(** The return statements shared by the four operations:
    [if err != nil { return nil, err }; return &response, nil]. *)
Definition finish {T : Type} (o : outcome T)
  : option T * option error * list ClientRequest :=
  let '(err, response, log) := o in
  match err with
  | Some e => (None, Some e, log)
  | None => (response, None, log)
  end.

(** [CreateDeposit]. *)
Definition CreateDeposit (c : Client) (ctx : option Ctx)
           (params : CreateDepositParams.t)
  : option (DepositResponse.t Time) * option error * list ClientRequest :=
  let endpoint := "/create-deposit" in
  match CreateDepositParams_Validate params with
  | Some err => (None, Some err, [])
  | None =>
      finish (sendRequest c ctx http_MethodPost endpoint
                          (Some (body_deposit params))
                          (Some Decode_DepositResponse))
  end.

(** [CreateWithdrawal]. *)
Definition CreateWithdrawal (c : Client) (ctx : option Ctx)
           (params : CreateWithdrawalParams.t)
  : option WithdrawalResponse.t * option error * list ClientRequest :=
  let endpoint := "/create-withdrawal" in
  match CreateWithdrawalParams_Validate params with
  | Some err => (None, Some err, [])
  | None =>
      finish (sendRequest c ctx http_MethodPost endpoint
                          (Some (body_withdrawal params))
                          (Some Decode_WithdrawalResponse))
  end.

(** [CheckTransactionStatus]. *)
Definition CheckTransactionStatus (c : Client) (ctx : option Ctx)
           (address : string) (transactionType : TransactionType)
  : option (TransactionStatusResponse.t Time) * option error
    * list ClientRequest :=
  let endpoint := "/check-transaction-status" in
  if is_empty address then
    (None, Some (errorString "address is required"), [])
  else
    let queryParams := [("address", address); ("type", transactionType)] in
    finish (sendRequestWithQuery c ctx http_MethodGet endpoint
                                 (Some queryParams) None
                                 (Some Decode_TransactionStatusResponse)).

(** [FetchWalletBalance]. *)
Definition FetchWalletBalance (c : Client) (ctx : option Ctx)
           (address : string) (networkType : NetworkType)
           (contractAddress : string)
  : option WalletBalanceResponse.t * option error * list ClientRequest :=
  let endpoint := "/fetch-wallet-balance" in
  if is_empty address then
    (None, Some (errorString "address is required"), [])
  else
    let queryParams :=
      [("address", address); ("networkType", networkType)]
      ++ (if negb (is_empty contractAddress)
          then [("contractAddress", contractAddress)] else []) in
    finish (sendRequestWithQuery c ctx http_MethodGet endpoint
                                 (Some queryParams) None
                                 (Some Decode_WalletBalanceResponse)).

End Sagapay.

(** ** A platform for examples *)

(** Whole-second UTC timestamps with their RFC 3339 text, as an instance
    of [time.Time] small enough to compute with. *)
Module UTC.

Record t := mk {
  year : N; month : N; day : N;
  hour : N; minute : N; second : N
}.

(** January 1, year 1, 00:00:00 UTC. *)
Definition zero : t := mk 1 1 1 0 0 0.

Definition digit (d : N) : byte := byte_of_N (0x30 + d mod 10).

Definition dec2 (n : N) : bytes := [digit (n / 10); digit n].

Definition dec4 (n : N) : bytes :=
  [digit (n / 1000); digit (n / 100); digit (n / 10); digit n].

Definition format (x : t) : option bytes :=
  if 9999 <? year x then None
  else Some (dec4 (year x) ++ x2d :: dec2 (month x) ++ x2d :: dec2 (day x)
             ++ x54 :: dec2 (hour x) ++ x3a :: dec2 (minute x)
             ++ x3a :: dec2 (second x) ++ [x5a]).

Definition num (ds : bytes) : option N :=
  fold_left (fun acc c =>
               match acc with
               | Some n =>
                   if JSON.isDigit c then Some (n * 10 + (Byte.to_N c - 0x30))
                   else None
               | None => None
               end) ds (Some 0).

Definition leap (y : N) : bool :=
  (y mod 4 =? 0) && (negb (y mod 100 =? 0) || (y mod 400 =? 0)).

Definition days_in (y m : N) : N :=
  if m =? 2 then (if leap y then 29 else 28)
  else if (m =? 4) || (m =? 6) || (m =? 9) || (m =? 11) then 30
  else 31.

Definition parse (b : bytes) : option t :=
  match b with
  | [y1; y2; y3; y4; s1; m1; m2; s2; d1; d2; s3; h1; h2; s4; i1; i2; s5;
     c1; c2; z] =>
      if JSON.isb s1 0x2d && JSON.isb s2 0x2d && JSON.isb s3 0x54
         && JSON.isb s4 0x3a && JSON.isb s5 0x3a && JSON.isb z 0x5a
      then
        match num [y1; y2; y3; y4], num [m1; m2], num [d1; d2],
              num [h1; h2], num [i1; i2], num [c1; c2] with
        | Some y, Some m, Some d, Some h, Some i, Some c =>
            if (1 <=? m) && (m <=? 12) && (1 <=? d) && (d <=? days_in y m)
               && (h <? 24) && (i <? 60) && (c <? 60)
            then Some (mk y m d h i c)
            else None
        | _, _, _, _, _, _ => None
        end
      else None
  | _ => None
  end.

End UTC.

Definition sample_ext_text (e : ext_error) : string :=
  match e with
  | json_SyntaxError => "json: syntax error"
  | json_UnmarshalTypeError v => "json: cannot unmarshal " ++ v
  | json_MarshalerError => "json: error calling MarshalJSON"
  | time_ParseError => "parsing time: cannot parse"
  | time_NotAString => "Time.UnmarshalJSON: input is not a JSON string"
  | url_Error op _ => op ++ ": invalid URL"
  | http_NilContext => "net/http: nil Context"
  | http_InvalidMethod m => "net/http: invalid method " ++ m
  | io_Error _ => "unexpected EOF"
  end.

Definition sample_ResolveReference (base ref : URL.URL unit) : URL.URL unit :=
  URL.mkURL unit (URL.Scheme base) EmptyString None (URL.Host base)
            (URL.Path ref) EmptyString false false (URL.RawQuery unit ref)
            EmptyString EmptyString.

Definition sample_URL_String (u : URL.URL unit) : string :=
  (URL.Scheme u ++ "://" ++ URL.Host u ++ URL.Path u
   ++ (if String.eqb (URL.RawQuery unit u) EmptyString then EmptyString
       else "?" ++ URL.RawQuery unit u))%string.

Fixpoint sample_Values_Encode (q : list (string * string)) : string :=
  match q with
  | [] => EmptyString
  | [(k, v)] => (k ++ "=" ++ v)%string
  | (k, v) :: q' => (k ++ "=" ++ v ++ "&" ++ sample_Values_Encode q')%string
  end.

(** The platform of the examples: UTC timestamps, numbers kept as their
    literals, authorities without user information, and response decoders
    that accept nothing (no example reads a decoded response). *)
Instance sample : StdLib := {
  Time := UTC.t;
  Time_zero := UTC.zero;
  appendStrictRFC3339 := UTC.format;
  parseStrictRFC3339 := UTC.parse;
  float64 := bytes;
  ParseFloat := @Some bytes;
  ext_text := sample_ext_text;
  Userinfo := unit;
  parseAuthority := fun a => Some (None, a);
  ResolveReference := sample_ResolveReference;
  URL_String := sample_URL_String;
  Values_Encode := sample_Values_Encode;
  removeEmptyPort := fun h => h;
  Ctx := unit;
  Decode_DepositResponse := fun _ => inl json_SyntaxError;
  Decode_WithdrawalResponse := fun _ => inl json_SyntaxError;
  Decode_TransactionStatusResponse := fun _ => inl json_SyntaxError;
  Decode_WalletBalanceResponse := fun _ => inl json_SyntaxError
}.

(** A default transport without a network: every request fails. *)
Instance offline : DefaultTransport := {
  default_Do := fun _ _ => inl (errorString "dial tcp: network is unreachable")
}.

(** A client whose transport answers every request with [resp], as a mock
    server does. *)
Definition mock_client (resp : Response) : http_Client :=
  mk_http_Client 0%Z (fun _ => inr resp).

(** The quote character and a few texts with quotes in them. *)
Definition quote : string := String (Ascii.ascii_of_nat 34) EmptyString.

Definition sample_body : bytes :=
  bytes_of_string
    ("{" ++ quote ++ "id" ++ quote ++ ":" ++ quote ++ "t1" ++ quote ++ ","
     ++ quote ++ "type" ++ quote ++ ":" ++ quote ++ "deposit" ++ quote ++ ","
     ++ quote ++ "status" ++ quote ++ ":" ++ quote ++ "COMPLETED" ++ quote ++ ","
     ++ quote ++ "address" ++ quote ++ ":" ++ quote ++ "a" ++ quote ++ ","
     ++ quote ++ "networkType" ++ quote ++ ":" ++ quote ++ "ERC20" ++ quote ++ ","
     ++ quote ++ "amount" ++ quote ++ ":" ++ quote ++ "5" ++ quote ++ ","
     ++ quote ++ "timestamp" ++ quote ++ ":" ++ quote ++ "2025-01-01T00:00:00Z"
     ++ quote ++ "}")%string.

Definition sample_payload : WebhookPayload.t UTC.t :=
  WebhookPayload.mk "t1" TransactionTypeDeposit TransactionStatusCompleted
                    "a" NetworkTypeERC20 "5" EmptyString EmptyString
                    (UTC.mk 2025 1 1 0 0 0).

(** ** Single-bit changes *)

(** Bit [k] of a byte inverted. *)
Definition flip_bit (k : N) (b : byte) : byte := bxor b (byte_of_N (2 ^ k)).

(** Bit [k] of the byte at index [i] inverted. *)
Fixpoint flip_at (i : nat) (k : N) (s : bytes) : bytes :=
  match s, i with
  | [], _ => []
  | b :: s', O => flip_bit k b :: s'
  | b :: s', S i' => b :: flip_at i' k s'
  end.

Definition flip_string (i : nat) (k : N) (s : string) : string :=
  string_of_bytes (flip_at i k (bytes_of_string s)).

(** ** Notions used in the statements *)

(** The signature that the handler expects for a body. *)
Definition expected_signature `{StdLib} (h : WebhookHandler) (body : bytes)
  : string :=
  Hex.EncodeToString (HMAC.Sum (bytes_of_string (apiSecret h)) body).

(** The header that carries the signature, as written in the handler and
    in its canonical form. *)
Definition signature_header : string := "x-sagapay-signature".
Definition canonical_signature_header : string := "X-Sagapay-Signature".

(** The two errors of the handler that do not wrap another one. *)
Definition ErrInvalidSignature `{StdLib} : error :=
  errors_New "invalid webhook signature".

(** A request that carries [sig] in the signature header and whose body
    reads as [body]. *)
Definition signed_request `{StdLib} (sig : string) (body : bytes) : Request :=
  mkRequest [(canonical_signature_header, [sig])] (mkReader body None).

(** The signature of [sample_body] under the secret [s2]. *)
Definition sample_signature : string :=
  "990253095b79f009016a5fc67f21ca2741ae79ac153192c11f075d398ab0c683".

(** The required fields of the two parameter structs. *)
Definition deposit_required (p : CreateDepositParams.t) : list string :=
  [ CreateDepositParams.NetworkType p; CreateDepositParams.ContractAddress p;
    CreateDepositParams.Amount p; CreateDepositParams.IPNUrl p ].

Definition withdrawal_required (p : CreateWithdrawalParams.t)
  : list string :=
  [ CreateWithdrawalParams.NetworkType p;
    CreateWithdrawalParams.ContractAddress p;
    CreateWithdrawalParams.Address p; CreateWithdrawalParams.Amount p;
    CreateWithdrawalParams.IPNUrl p ].

Definition all_nonempty (fields : list string) : Prop :=
  Forall (fun s => s <> EmptyString) fields.

(** An error of validation: [<field> is required]. *)
Definition is_validation_error `{StdLib} (e : error) : Prop :=
  exists field, e = errors_New (field ++ " is required")%string.

(** The base URL that [NewClient] parses. *)
Definition effective_base `{StdLib} `{DefaultTransport} (config : Config)
  : string :=
  if is_empty (BaseURL config) then DefaultBaseURL else BaseURL config.

(** The HTTP client that [NewClient] stores. *)
Definition chosen_client `{StdLib} `{DefaultTransport} (config : Config)
  : http_Client :=
  match HTTPClient config with
  | Some hc => hc
  | None =>
      let timeout :=
        if (0 <? Timeout config)%Z then Timeout config else DefaultTimeout in
      mk_http_Client timeout (default_Do timeout)
  end.

(** [raw] parses, and the URL parsed is absolute. *)
Definition parses_as_absolute `{StdLib} (raw : string) : Prop :=
  exists u, url_Parse raw = inr u /\ URL.IsAbs u = true.

(** A configuration whose base URL lacks the scheme. *)
Definition schemeless_config : Config :=
  mkConfig "api.sagapay.net" "k" "s" 0%Z None.

(** The end-to-end scenario of a rejected call: status 401 with a
    structured error body. *)
Definition unauthorized_response : Response :=
  mkResponse 401%Z
    (bytes_of_string
       ("{" ++ quote ++ "error" ++ quote ++ ":" ++ quote ++ "unauthorized"
        ++ quote ++ "," ++ quote ++ "message" ++ quote ++ ":" ++ quote
        ++ "bad key" ++ quote ++ "}")%string).

Definition sample_base : URL.URL unit :=
  URL.mkURL unit "https" EmptyString None "api.sagapay.net" EmptyString
            EmptyString false false EmptyString EmptyString EmptyString.

Definition unauthorized_client : Client :=
  mkClient (mock_client unauthorized_response) sample_base "k" "s".

Definition sample_deposit : CreateDepositParams.t :=
  CreateDepositParams.mk NetworkTypeBEP20 "0" "1.5" "https://x/webhook"
                         EmptyString EmptyString.

(** A byte of a multi-byte UTF-8 sequence. *)
Definition high (c : byte) : Prop := 0x80 <= Byte.to_N c.

(** [pre] put in front of the literal found by [scan_string]. *)
Definition cons_raw (pre : bytes) (o : option (bytes * bytes))
  : option (bytes * bytes) :=
  match o with
  | Some (raw, rest) => Some (pre ++ raw, rest)
  | None => None
  end.

(** The chunk written for a well-formed multi-byte rune. *)
Definition rune_chunk (r : N) (enc : bytes) : bytes :=
  if (r =? 0x2028) || (r =? 0x2029)
  then [x5c; x75; x32; x30; x32; Hex.digit (N.land r 0xF)]
  else enc.

(** ** The JSON form of a payload *)

(** The bytes of the members of an object whose keys and values are
    string literals given by their content; [R] follows the closing
    brace. *)
Fixpoint members_bytes (ms : list (bytes * bytes)) (R : bytes) : bytes :=
  match ms with
  | [] => x7d :: R
  | [(k, v)] => x22 :: k ++ x22 :: x3a :: x22 :: v ++ x22 :: x7d :: R
  | (k, v) :: ms' =>
      x22 :: k ++ x22 :: x3a :: x22 :: v ++ x22 :: x2c :: members_bytes ms' R
  end.

(** A literal content that the scanner reads up to the closing quote. *)
Definition scannable (raw : bytes) : Prop :=
  forall X, JSON.scan_string (raw ++ x22 :: X) = Some (raw, X).

Definition string_member (kv : bytes * bytes) : bytes * JSON.Value :=
  (fst kv, JSON.JString (snd kv)).

(** The content of the literal written for a string. *)
Definition enc (s : string) : bytes :=
  JSON.appendString_loop 0 (bytes_of_string s).

(** The characters of an RFC 3339 text as [time.Time] writes it. *)
Definition rfc3339_char (c : byte) : bool :=
  JSON.isDigit c || existsb (Byte.eqb c) [x2d; x3a; x2e; x54; x5a; x2b].

Definition rfc3339_text (txt : bytes) : bool := forallb rfc3339_char txt.

(** The members that [Marshal_WebhookPayload] writes, as pairs of literal
    contents; [txt] is the text of the timestamp. *)
Definition payload_members `{StdLib} (p : WebhookPayload.t Time)
           (txt : bytes)
  : list (bytes * bytes) :=
  [ (enc "id", enc (WebhookPayload.ID p));
    (enc "type", enc (WebhookPayload.Type_ p));
    (enc "status", enc (WebhookPayload.Status p));
    (enc "address", enc (WebhookPayload.Address p));
    (enc "networkType", enc (WebhookPayload.NetworkType p));
    (enc "amount", enc (WebhookPayload.Amount p)) ]
  ++ (if is_empty (WebhookPayload.UDF p) then []
      else [(enc "udf", enc (WebhookPayload.UDF p))])
  ++ (if is_empty (WebhookPayload.TxHash p) then []
      else [(enc "txHash", enc (WebhookPayload.TxHash p))])
  ++ [(enc "timestamp", txt)].

(** The fields of a payload that hold free text. *)
Definition text_fields `{StdLib} (p : WebhookPayload.t Time)
  : list string :=
  [ WebhookPayload.ID p; WebhookPayload.Address p; WebhookPayload.Amount p;
    WebhookPayload.UDF p; WebhookPayload.TxHash p ].

(** Type, status and network are enumerated constants. *)
Definition enumerated `{StdLib} (p : WebhookPayload.t Time) : Prop :=
  In (WebhookPayload.Type_ p) TransactionTypes
  /\ In (WebhookPayload.Status p) TransactionStatuses
  /\ In (WebhookPayload.NetworkType p) NetworkTypes.

Definition valid_text `{StdLib} (p : WebhookPayload.t Time) : Prop :=
  forallb UTF8.ValidString (text_fields p) = true.

(** [time.Time] writes [t] as an RFC 3339 text that it reads back as
    [t]. *)
Definition timestamp_round_trips `{StdLib} (t : Time) : Prop :=
  exists txt, appendStrictRFC3339 t = Some txt
              /\ rfc3339_text txt = true
              /\ parseStrictRFC3339 txt = Some t.

(** Encoding [p] and decoding the result into a zero payload gives [p]. *)
Definition round_trips `{StdLib} (p : WebhookPayload.t Time) : Prop :=
  exists data, Marshal_WebhookPayload p = inr data
               /\ Unmarshal_WebhookPayload data WebhookPayload_zero = inr p.

(** A payload whose identifier is the single byte 0xff, which is not
    UTF-8, and the payload that decoding its encoding gives: the
    identifier has become U+FFFD. *)
Definition invalid_id_payload : WebhookPayload.t UTC.t :=
  WebhookPayload.mk (string_of_bytes [xff]) TransactionTypeDeposit
                    TransactionStatusCompleted "a" NetworkTypeERC20 "5"
                    EmptyString EmptyString (UTC.mk 2025 1 1 0 0 0).

Definition replaced_id_payload : WebhookPayload.t UTC.t :=
  WebhookPayload.mk (string_of_bytes [xef; xbf; xbd]) TransactionTypeDeposit
                    TransactionStatusCompleted "a" NetworkTypeERC20 "5"
                    EmptyString EmptyString (UTC.mk 2025 1 1 0 0 0).

(** A digit of lower-case hexadecimal. *)
Definition lower_hex (c : byte) : bool := existsb (Byte.eqb c) Hex.hextable.

(** What [sendRequestWithQuery] returns once the transport has answered
    with a status of 400 or more. *)
Definition error_of_response `{StdLib} (resp : Response) : error :=
  match Decode_APIError (Response_Body resp) with
  | inl _ =>
      errorString ("HTTP error: " ++ fmt_d (StatusCode resp)
                   ++ " - failed to parse error response")
  | inr apiErr => APIErrorPtr apiErr
  end.

(** ** Acknowledgments

    The three calls both senders make on the response writer, and the
    bodies [json.Encoder.Encode] writes for the two maps (keys sorted, a
    newline at the end). *)
Definition acknowledgment (body : bytes) : list rw_call :=
  [ rw_HeaderSet "Content-Type" "application/json";
    rw_WriteHeader 200;
    rw_Write body ].

Definition success_body : bytes :=
  bytes_of_string ("{" ++ quote ++ "received" ++ quote ++ ":true}") ++ [x0a].

Definition error_prefix : bytes :=
  bytes_of_string ("{" ++ quote ++ "error" ++ quote ++ ":").

Definition error_suffix : bytes :=
  bytes_of_string ("," ++ quote ++ "received" ++ quote ++ ":false}") ++ [x0a].

Definition error_body (msg : string) : bytes :=
  error_prefix ++ JSON.appendString [] msg ++ error_suffix.

(** The status codes passed to [WriteHeader] in a trace. *)
Definition status_codes (w : ResponseWriter) : list Z :=
  flat_map (fun c => match c with rw_WriteHeader n => [n] | _ => [] end) w.

(** ** More about the webhook *)

(** The signature of the end-to-end scenario in upper-case digits. *)
Definition upper_case_signature : string :=
  "990253095B79F009016A5FC67F21CA2741AE79AC153192C11F075D398AB0C683".

(** All the fields of kind string of a payload, the enumerated ones
    included. *)
Definition string_fields {L : StdLib} (p : WebhookPayload.t Time)
  : list string :=
  [ WebhookPayload.ID p; WebhookPayload.Type_ p; WebhookPayload.Status p;
    WebhookPayload.Address p; WebhookPayload.NetworkType p;
    WebhookPayload.Amount p; WebhookPayload.UDF p;
    WebhookPayload.TxHash p ].

(** A payload whose status is none of the enumerated constants. *)
Definition unlisted_status_payload : WebhookPayload.t UTC.t :=
  WebhookPayload.mk "t1" TransactionTypeDeposit "REFUNDED" "a"
                    NetworkTypeERC20 "5" EmptyString EmptyString
                    (UTC.mk 2025 1 1 0 0 0).

(** The member has a name that is a field of [WebhookPayload]. *)
Definition known_member (kv : bytes * JSON.Value) : bool :=
  match JSON.unquote (fst kv) with
  | Some key =>
      match JSON.lookup_field WebhookPayload.fields key with
      | Some _ => true
      | None => false
      end
  | None => false
  end.

(** A body with a member that the payload has no field for, and the same
    body without it. *)
Definition body_with_extra : bytes :=
  bytes_of_string
    ("{" ++ quote ++ "id" ++ quote ++ ":" ++ quote ++ "t1" ++ quote ++ ","
     ++ quote ++ "fee" ++ quote ++ ":[1,2]}")%string.

Definition body_without_extra : bytes :=
  bytes_of_string
    ("{" ++ quote ++ "id" ++ quote ++ ":" ++ quote ++ "t1" ++ quote
     ++ "}")%string.

(** A value that is neither a string nor [null]. *)
Definition mistyped (v : JSON.Value) : bool :=
  match v with
  | JSON.JNull | JSON.JString _ => false
  | _ => true
  end.

(** The member names a field of kind string of [WebhookPayload]. *)
Definition names_string_field (k : bytes) : bool :=
  match JSON.unquote k with
  | Some key =>
      match JSON.lookup_field WebhookPayload.fields key with
      | Some WebhookPayload.f_timestamp | None => false
      | Some _ => true
      end
  | None => false
  end.

(** A body whose amount is a number. *)
Definition body_with_number : bytes :=
  bytes_of_string
    ("{" ++ quote ++ "id" ++ quote ++ ":" ++ quote ++ "t1" ++ quote ++ ","
     ++ quote ++ "amount" ++ quote ++ ":10.5}")%string.

(** ** The example server (examples/webhook) *)

Definition http_StatusMethodNotAllowed : Z := 405.

Section ExampleServer.

Context {L : StdLib}.

(** [http.Error(w, error, code)] is left to the library: the writer after
    the call. *)
Variable http_Error : ResponseWriter -> string -> Z -> ResponseWriter.

(** An incoming request with its method. *)
Record ServerRequest := mkServerRequest {
  sr_Method : string;
  sr_Request : Request
}.

(** The [switch] on the status of the payload: the line it logs, if
    any. *)
Definition status_line (p : WebhookPayload.t Time) : list string :=
  let st := WebhookPayload.Status p in
  let tail := (": " ++ WebhookPayload.Amount p ++ " "
               ++ WebhookPayload.Type_ p)%string in
  if String.eqb st TransactionStatusCompleted then
    [("Transaction " ++ WebhookPayload.ID p ++ " completed" ++ tail)%string]
  else if String.eqb st TransactionStatusFailed then
    [("Transaction " ++ WebhookPayload.ID p ++ " failed" ++ tail)%string]
  else if String.eqb st TransactionStatusProcessing
          || String.eqb st TransactionStatusPending then
    [("Transaction " ++ WebhookPayload.ID p ++ " is " ++ st ++ tail)%string]
  else if String.eqb st TransactionStatusCancelled then
    [("Transaction " ++ WebhookPayload.ID p ++ " cancelled" ++ tail)%string]
  else [].

(** The function registered for [/webhook]: the writer after the call and
    the messages given to [log.Printf], oldest first; [None] stands for
    the panic of reading a field through a nil payload. *)
Definition webhook_endpoint (webhookHandler : WebhookHandler)
           (w : ResponseWriter) (r : ServerRequest)
  : option (ResponseWriter * list string) :=
  if negb (String.eqb (sr_Method r) http_MethodPost) then
    Some (http_Error w "Method not allowed" http_StatusMethodNotAllowed, [])
  else
    let '(payload, err) := HandleRequest webhookHandler (sr_Request r) in
    match err with
    | Some e =>
        Some (SendErrorResponse w e,
              [("Error processing webhook: " ++ Error e)%string])
    | None =>
        match payload with
        | None => None
        | Some p =>
            Some (SendSuccessResponse w,
                  ("Received webhook: ID=" ++ WebhookPayload.ID p
                   ++ ", Type=" ++ WebhookPayload.Type_ p
                   ++ ", Status=" ++ WebhookPayload.Status p)%string
                  :: status_line p)
        end
    end.

End ExampleServer.

(** ** The requests of the client *)

(** The four headers that [sendRequestWithQuery] sets on a request. *)
Definition carries_credentials {L : StdLib} (c : Client)
           (req : ClientRequest) : Prop :=
  Header_Get (req_Header req) "Content-Type" = "application/json"
  /\ Header_Get (req_Header req) "Accept" = "application/json"
  /\ Header_Get (req_Header req) "x-api-key" = c_apiKey c
  /\ Header_Get (req_Header req) "x-api-secret" = c_apiSecret c.

(** The bytes that [json.NewEncoder(buf).Encode(body)] leaves in the
    buffer, [None] for a nil body. *)
Definition encoded_body {L : StdLib}
           (body : option body_value) : option bytes :=
  match body with
  | Some (body_deposit p) => Some (Marshal_CreateDepositParams p ++ [x0a])
  | Some (body_withdrawal p) =>
      Some (Marshal_CreateWithdrawalParams p ++ [x0a])
  | None => None
  end.

(** The reference that [url.Parse] makes of the path of an endpoint. *)
Definition endpoint {L : StdLib} (path : string) : URL.URL Userinfo :=
  URL.mkURL Userinfo EmptyString EmptyString None EmptyString path
            EmptyString false false EmptyString EmptyString EmptyString.

(** The text handed to [http.NewRequestWithContext] as the URL: the
    reference resolved against the base URL, with the encoded query when
    there is one. *)
Definition request_url {L : StdLib} (c : Client)
           (ref : URL.URL Userinfo)
           (query : option (list (string * string))) : string :=
  let u := ResolveReference (c_baseURL c) ref in
  URL_String match query with
             | Some q => set_RawQuery u (Values_Encode q)
             | None => u
             end.

(** The query parameters of the two lookups. *)
Definition status_query (address : string) (ty : TransactionType)
  : list (string * string) :=
  [("address", address); ("type", ty)].

Definition balance_query (address : string) (nt : NetworkType)
           (contract : string) : list (string * string) :=
  [("address", address); ("networkType", nt)]
  ++ (if String.eqb contract EmptyString then []
      else [("contractAddress", contract)]).

(** What [sendRequestWithQuery] returns for the answer of [Do]: the
    error and the value stored through the result pointer. *)
Definition answered {L : StdLib} {T : Type}
           (v : option (bytes -> ext_error + T)) (r : error + Response)
  : option error * option T :=
  match r with
  | inl err => (Some err, None)
  | inr resp =>
      if (400 <=? StatusCode resp)%Z then
        (Some (error_of_response resp), None)
      else
        match v with
        | Some decode =>
            match decode (Response_Body resp) with
            | inl err => (Some (external err), None)
            | inr x => (None, Some x)
            end
        | None => (None, None)
        end
  end.

(** The shape of what an operation of the client returns: either it
    fails before it has a request, or it hands one request to [Do], made
    from the context, the method, the URL text and the body given and
    carrying the four headers, and returns what the answer to that request
    decides. *)
Definition one_exchange {L : StdLib} {T : Type}
           (c : Client) (ctx : option Ctx) (method url : string)
           (body : option bytes) (decode : bytes -> ext_error + T)
           (r : option T * option error * list ClientRequest) : Prop :=
  (exists e, r = (None, Some e, []))
  \/ (exists req,
        snd r = [req]
        /\ carries_credentials c req
        /\ ctx = Some (req_ctx req)
        /\ req_Method req = method
        /\ (exists u, url_Parse url = inr u
                      /\ req_URL req
                         = set_Host u (removeEmptyPort (URL.Host u)))
        /\ req_Body req = body
        /\ fst r
           = match http_Do (c_client c) req with
             | inl err => (None, Some err)
             | inr resp =>
                 if (400 <=? StatusCode resp)%Z then
                   (None, Some (error_of_response resp))
                 else
                   match decode (Response_Body resp) with
                   | inl err => (None, Some (external err))
                   | inr x => (Some x, None)
                   end
             end).

(** [url.Parse] accepts the text. *)
Definition parses {L : StdLib} (url : string) : Prop :=
  exists u, url_Parse url = inr u.

(** The request is the one that [http.NewRequestWithContext] makes of the
    method, the URL text and the body. *)
Definition request_for {L : StdLib} (method url : string)
           (body : option bytes) (req : ClientRequest) : Prop :=
  req_Method req = method
  /\ (exists u, url_Parse url = inr u
                /\ req_URL req = set_Host u (removeEmptyPort (URL.Host u)))
  /\ req_Body req = body.

(** A client whose transport fails, one whose transport answers 200 with
    an empty object, and the request that [CreateDeposit] makes of
    [sample_deposit] for a client with the base URL [sample_base], the key
    [k] and the secret [s]. *)
Definition unreachable : error :=
  errorString "dial tcp: network is unreachable".

Definition offline_client : Client :=
  mkClient (mk_http_Client 0%Z (fun _ => inl unreachable))
           sample_base "k" "s".

Definition accepted_response : Response :=
  mkResponse 200%Z (bytes_of_string "{}").

Definition accepting_client : Client :=
  mkClient (mock_client accepted_response) sample_base "k" "s".

Definition withdrawal_sample : CreateWithdrawalParams.t :=
  CreateWithdrawalParams.mk NetworkTypeERC20 "0" "0x742d" "10.5"
                            "https://x/webhook" "withdrawal-456".

Definition sample_request : ClientRequest :=
  mkClientRequest
    tt "POST"
    (URL.mkURL unit "https" EmptyString None "api.sagapay.net"
               "/create-deposit" EmptyString false false EmptyString
               EmptyString EmptyString)
    [ ("Content-Type", ["application/json"]);
      ("Accept", ["application/json"]);
      ("X-Api-Key", ["k"]); ("X-Api-Secret", ["s"]) ]
    (Some (Marshal_CreateDepositParams sample_deposit ++ [x0a])).

(** ** Reading a request body back *)

(** A JSON object all of whose members are strings, as the list of its
    names and values in the order of the text. *)
Definition member_strings (kv : bytes * JSON.Value)
  : option (string * string) :=
  match JSON.unquote (fst kv), snd kv with
  | Some k, JSON.JString raw =>
      match JSON.unquote raw with
      | Some v => Some (k, v)
      | None => None
      end
  | _, _ => None
  end.

Fixpoint all_some {A : Type} (l : list (option A)) : option (list A) :=
  match l with
  | [] => Some []
  | Some a :: l' =>
      match all_some l' with
      | Some r => Some (a :: r)
      | None => None
      end
  | None :: _ => None
  end.

Definition read_object (data : bytes) : option (list (string * string)) :=
  match JSON.parse data with
  | Some (JSON.JObject ms) => all_some (map member_strings ms)
  | _ => None
  end.

(** A member tagged [omitempty]. *)
Definition optional (n v : string) : list (string * string) :=
  if String.eqb v EmptyString then [] else [(n, v)].

(** The members of the two parameter structs, by their JSON names. *)
Definition deposit_fields (p : CreateDepositParams.t)
  : list (string * string) :=
  [ ("networkType", CreateDepositParams.NetworkType p);
    ("contractAddress", CreateDepositParams.ContractAddress p);
    ("amount", CreateDepositParams.Amount p);
    ("ipnUrl", CreateDepositParams.IPNUrl p) ]
  ++ optional "udf" (CreateDepositParams.UDF p)
  ++ optional "type" (CreateDepositParams.Type_ p).

Definition withdrawal_fields (p : CreateWithdrawalParams.t)
  : list (string * string) :=
  [ ("networkType", CreateWithdrawalParams.NetworkType p);
    ("contractAddress", CreateWithdrawalParams.ContractAddress p);
    ("address", CreateWithdrawalParams.Address p);
    ("amount", CreateWithdrawalParams.Amount p);
    ("ipnUrl", CreateWithdrawalParams.IPNUrl p) ]
  ++ optional "udf" (CreateWithdrawalParams.UDF p).

(** Every text of the list is valid UTF-8. *)
Definition all_valid (fields : list (string * string)) : Prop :=
  forallb (fun kv => UTF8.ValidString (snd kv)) fields = true.

(** The literal contents written for a list of members. *)
Definition enc_members (fields : list (string * string))
  : list (bytes * bytes) :=
  map (fun kv => (enc (fst kv), enc (snd kv))) fields.

(** ** Decoding the responses of the two creations *)

(** The JSON fields of [DepositResponse] and [WithdrawalResponse], in the
    order of declaration. *)
Inductive deposit_response_field :=
| dr_id | dr_address | dr_expiresAt | dr_amount | dr_status.

Definition deposit_response_fields
  : list (string * deposit_response_field) :=
  [ ("id", dr_id); ("address", dr_address); ("expiresAt", dr_expiresAt);
    ("amount", dr_amount); ("status", dr_status) ].

Inductive withdrawal_response_field := wr_id | wr_status | wr_fee.

Definition withdrawal_response_fields
  : list (string * withdrawal_response_field) :=
  [ ("id", wr_id); ("status", wr_status); ("fee", wr_fee) ].

Section ResponseDecoding.

Context {L : StdLib}.

Definition DepositResponse_zero : DepositResponse.t Time :=
  DepositResponse.mk EmptyString EmptyString Time_zero EmptyString
                     EmptyString.

Definition WithdrawalResponse_zero : WithdrawalResponse.t :=
  WithdrawalResponse.mk EmptyString EmptyString EmptyString.

Definition set_deposit_response (r : DepositResponse.t Time)
           (f : deposit_response_field) (s : string)
  : DepositResponse.t Time :=
  let '(DepositResponse.mk id ad ex am st) := r in
  match f with
  | dr_id => DepositResponse.mk s ad ex am st
  | dr_address => DepositResponse.mk id s ex am st
  | dr_expiresAt => r
  | dr_amount => DepositResponse.mk id ad ex s st
  | dr_status => DepositResponse.mk id ad ex am s
  end.

Definition set_ExpiresAt (r : DepositResponse.t Time) (t : Time)
  : DepositResponse.t Time :=
  let '(DepositResponse.mk id ad _ am st) := r in
  DepositResponse.mk id ad t am st.

(** One member of the object decoded into a [DepositResponse], as for
    [decode_member]. *)
Definition decode_deposit_response_member (r : DepositResponse.t Time)
           (saved : option ext_error) (kv : bytes * JSON.Value)
  : ext_error + (DepositResponse.t Time * option ext_error) :=
  let '(k, v) := kv in
  match JSON.unquote k with
  | None => inr (r, saved)
  | Some key =>
      match JSON.lookup_field deposit_response_fields key with
      | None => inr (r, saved)
      | Some dr_expiresAt =>
          match literal_bytes v with
          | None => inl time_NotAString
          | Some data =>
              match Time_UnmarshalJSON (DepositResponse.ExpiresAt r) data
              with
              | inl e => inl e
              | inr t => inr (set_ExpiresAt r t, saved)
              end
          end
      | Some f =>
          let '(s, e) := decode_string v in
          inr (match s with
               | Some s' => set_deposit_response r f s'
               | None => r
               end, first_error saved e)
      end
  end.

Fixpoint decode_deposit_response_members (r : DepositResponse.t Time)
         (saved : option ext_error) (ms : list (bytes * JSON.Value))
  : ext_error + (DepositResponse.t Time * option ext_error) :=
  match ms with
  | [] => inr (r, saved)
  | kv :: ms' =>
      match decode_deposit_response_member r saved kv with
      | inl e => inl e
      | inr (r', saved') => decode_deposit_response_members r' saved' ms'
      end
  end.

(** What [Decode(&response)] stores in a zero [DepositResponse] for a
    body whose first JSON value is [v]. *)
Definition DepositResponse_of_value (v : JSON.Value)
  : ext_error + DepositResponse.t Time :=
  match v with
  | JSON.JNull => inr DepositResponse_zero
  | JSON.JObject ms =>
      match decode_deposit_response_members DepositResponse_zero None ms
      with
      | inl e => inl e
      | inr (_, Some e) => inl e
      | inr (r, None) => inr r
      end
  | _ => inl (json_UnmarshalTypeError (value_kind v))
  end.

Definition set_withdrawal_response (r : WithdrawalResponse.t)
           (f : withdrawal_response_field) (s : string)
  : WithdrawalResponse.t :=
  let '(WithdrawalResponse.mk id st fee) := r in
  match f with
  | wr_id => WithdrawalResponse.mk s st fee
  | wr_status => WithdrawalResponse.mk id s fee
  | wr_fee => WithdrawalResponse.mk id st s
  end.

Definition decode_withdrawal_response_member (r : WithdrawalResponse.t)
           (saved : option ext_error) (kv : bytes * JSON.Value)
  : WithdrawalResponse.t * option ext_error :=
  let '(k, v) := kv in
  match JSON.unquote k with
  | None => (r, saved)
  | Some key =>
      match JSON.lookup_field withdrawal_response_fields key with
      | None => (r, saved)
      | Some f =>
          let '(s, e) := decode_string v in
          (match s with
           | Some s' => set_withdrawal_response r f s'
           | None => r
           end, first_error saved e)
      end
  end.

(** The same for a zero [WithdrawalResponse]. *)
Definition WithdrawalResponse_of_value (v : JSON.Value)
  : ext_error + WithdrawalResponse.t :=
  match v with
  | JSON.JNull => inr WithdrawalResponse_zero
  | JSON.JObject ms =>
      match fold_left (fun st kv =>
                         decode_withdrawal_response_member (fst st) (snd st)
                                                           kv)
                      ms (WithdrawalResponse_zero, None) with
      | (_, Some e) => inl e
      | (r, None) => inr r
      end
  | _ => inl (json_UnmarshalTypeError (value_kind v))
  end.

(** The decoders of the platform store what [encoding/json] stores for
    the first JSON value of the body. *)
Definition decodes_as_json : Prop :=
  forall (body : bytes) (v : JSON.Value),
    JSON.parse_first body = Some v ->
    Decode_DepositResponse body = DepositResponse_of_value v
    /\ Decode_WithdrawalResponse body = WithdrawalResponse_of_value v.

(** The text of a deposit response and of a withdrawal response; [R]
    follows the object. *)
Definition deposit_response_body (r : DepositResponse.t Time)
           (expires R : bytes) : bytes :=
  x7b :: members_bytes
           [ (enc "id", enc (DepositResponse.ID r));
             (enc "address", enc (DepositResponse.Address r));
             (enc "expiresAt", expires);
             (enc "amount", enc (DepositResponse.Amount r));
             (enc "status", enc (DepositResponse.Status r)) ] R.

Definition withdrawal_response_body (r : WithdrawalResponse.t)
           (R : bytes) : bytes :=
  x7b :: members_bytes
           [ (enc "id", enc (WithdrawalResponse.ID r));
             (enc "status", enc (WithdrawalResponse.Status r));
             (enc "fee", enc (WithdrawalResponse.Fee r)) ] R.

End ResponseDecoding.

(** The platform of the examples with decoders that store what
    [encoding/json] stores, and the scenario of a deposit that the gateway
    accepts: the answer, the client, the request and the response
    returned. *)
Definition sample_json : StdLib := {|
  Time := UTC.t;
  Time_zero := UTC.zero;
  appendStrictRFC3339 := UTC.format;
  parseStrictRFC3339 := UTC.parse;
  float64 := bytes;
  ParseFloat := @Some bytes;
  ext_text := sample_ext_text;
  Userinfo := unit;
  parseAuthority := fun a => Some (None, a);
  ResolveReference := sample_ResolveReference;
  URL_String := sample_URL_String;
  Values_Encode := sample_Values_Encode;
  removeEmptyPort := fun h => h;
  Ctx := unit;
  Decode_DepositResponse := fun body =>
    match JSON.parse_first body with
    | Some v => DepositResponse_of_value (L := sample) v
    | None => inl json_SyntaxError
    end;
  Decode_WithdrawalResponse := fun body =>
    match JSON.parse_first body with
    | Some v => WithdrawalResponse_of_value v
    | None => inl json_SyntaxError
    end;
  Decode_TransactionStatusResponse := fun _ => inl json_SyntaxError;
  Decode_WalletBalanceResponse := fun _ => inl json_SyntaxError
|}.

Definition created_deposit : DepositResponse.t UTC.t :=
  DepositResponse.mk "d1" "bnb1" (UTC.mk 2025 1 1 0 0 0) "1.5"
                     TransactionStatusPending.

Definition created_response : Response :=
  mkResponse 200%Z
    (deposit_response_body (L := sample_json) created_deposit
       (bytes_of_string "2025-01-01T00:00:00Z") [x0a]).

Definition creating_client : @Client sample_json :=
  @mkClient sample_json
            (@mk_http_Client sample_json 0%Z (fun _ => inr created_response))
            sample_base "k" "s".

Definition creating_request : @ClientRequest sample_json :=
  @mkClientRequest
    sample_json tt "POST"
    (URL.mkURL unit "https" EmptyString None "api.sagapay.net"
               "/create-deposit" EmptyString false false EmptyString
               EmptyString EmptyString)
    [ ("Content-Type", ["application/json"]);
      ("Accept", ["application/json"]);
      ("X-Api-Key", ["k"]); ("X-Api-Secret", ["s"]) ]
    (Some (Marshal_CreateDepositParams sample_deposit ++ [x0a])).

Definition created_withdrawal : WithdrawalResponse.t :=
  WithdrawalResponse.mk "w1" TransactionStatusProcessing "0.1".

Definition withdrawing_response : Response :=
  mkResponse 201%Z (withdrawal_response_body created_withdrawal []).

Definition withdrawing_client : @Client sample_json :=
  @mkClient sample_json
            (@mk_http_Client sample_json 0%Z
                             (fun _ => inr withdrawing_response))
            sample_base "k" "s".

Definition withdrawing_request : @ClientRequest sample_json :=
  @mkClientRequest
    sample_json tt "POST"
    (URL.mkURL unit "https" EmptyString None "api.sagapay.net"
               "/create-withdrawal" EmptyString false false EmptyString
               EmptyString EmptyString)
    [ ("Content-Type", ["application/json"]);
      ("Accept", ["application/json"]);
      ("X-Api-Key", ["k"]); ("X-Api-Secret", ["s"]) ]
    (Some (Marshal_CreateWithdrawalParams withdrawal_sample ++ [x0a])).

(** ** Configuration and validation *)

(** A control character, as [stringContainsCTLByte] has it. *)
Definition control (c : byte) : Prop :=
  Byte.to_N c < 0x20 \/ Byte.to_N c = 0x7f.

(** A configuration whose base URL ends in a newline, and one without
    credentials. *)
Definition newline_config : Config :=
  mkConfig (string_of_bytes
              (bytes_of_string "https://api.sagapay.net" ++ [x0a]))
           "k" "s" 0%Z None.

Definition blank_config : Config :=
  mkConfig EmptyString EmptyString EmptyString 0%Z None.

(** The name of the first field of the list that is empty. *)
Fixpoint first_empty (fields : list (string * string)) : option string :=
  match fields with
  | [] => None
  | (n, v) :: fields' =>
      if String.eqb v EmptyString then Some n else first_empty fields'
  end.

(** The required fields of the two parameter structs with their JSON
    names, in the order of the struct. *)
Definition deposit_required_named (p : CreateDepositParams.t)
  : list (string * string) :=
  [ ("networkType", CreateDepositParams.NetworkType p);
    ("contractAddress", CreateDepositParams.ContractAddress p);
    ("amount", CreateDepositParams.Amount p);
    ("ipnUrl", CreateDepositParams.IPNUrl p) ].

Definition withdrawal_required_named (p : CreateWithdrawalParams.t)
  : list (string * string) :=
  [ ("networkType", CreateWithdrawalParams.NetworkType p);
    ("contractAddress", CreateWithdrawalParams.ContractAddress p);
    ("address", CreateWithdrawalParams.Address p);
    ("amount", CreateWithdrawalParams.Amount p);
    ("ipnUrl", CreateWithdrawalParams.IPNUrl p) ].

(** The error of validation for a field, if one is named. *)
Definition required_error {L : StdLib} (field : option string)
  : option error :=
  option_map (fun n => errors_New (n ++ " is required")%string) field.

(** * Properties *)

(** ** Bytes and bit operations *)

Lemma to_N_lt (b : byte) : Byte.to_N b < 256.
Proof. pose proof (Byte.to_N_bounded b). lia. Qed.

Lemma byte_of_to_N (b : byte) : byte_of_N (Byte.to_N b) = b.
Proof.
  unfold byte_of_N. rewrite N.mod_small by apply to_N_lt.
  now rewrite Byte.of_to_N.
Qed.

Lemma to_N_byte_of_N (n : N) : n < 256 -> Byte.to_N (byte_of_N n) = n.
Proof.
  intros Hn. unfold byte_of_N. rewrite N.mod_small by assumption.
  destruct (Byte.of_N n) as [b|] eqn:E.
  - now apply Byte.to_of_N.
  - apply Byte.of_N_None_iff in E. lia.
Qed.

Lemma to_N_inj (a b : byte) : Byte.to_N a = Byte.to_N b -> a = b.
Proof.
  intros H. rewrite <- (byte_of_to_N a), <- (byte_of_to_N b). now rewrite H.
Qed.

Lemma lt_pow2_log2 (a n : N) : a < 2 ^ n -> a = 0 \/ N.log2 a < n.
Proof.
  intros H. destruct (N.eq_dec a 0) as [->|Ha]; [now left|right].
  apply N.log2_lt_pow2; lia.
Qed.

Lemma lor_lt_pow2 (a b n : N) : a < 2 ^ n -> b < 2 ^ n -> N.lor a b < 2 ^ n.
Proof.
  intros Ha Hb.
  destruct (lt_pow2_log2 a n Ha) as [->|La]; [now rewrite N.lor_0_l|].
  destruct (lt_pow2_log2 b n Hb) as [->|Lb]; [now rewrite N.lor_0_r|].
  destruct (N.eq_dec (N.lor a b) 0) as [E|E]; [rewrite E; lia|].
  apply N.log2_lt_pow2; [lia|]. rewrite N.log2_lor. lia.
Qed.

Lemma lxor_lt_pow2 (a b n : N) : a < 2 ^ n -> b < 2 ^ n -> N.lxor a b < 2 ^ n.
Proof.
  intros Ha Hb.
  destruct (lt_pow2_log2 a n Ha) as [->|La]; [now rewrite N.lxor_0_l|].
  destruct (lt_pow2_log2 b n Hb) as [->|Lb]; [now rewrite N.lxor_0_r|].
  destruct (N.eq_dec (N.lxor a b) 0) as [E|E]; [rewrite E; lia|].
  apply N.log2_lt_pow2; [lia|].
  eapply N.le_lt_trans; [apply N.log2_lxor|]. lia.
Qed.

Lemma to_N_bxor (a b : byte) :
  Byte.to_N (bxor a b) = N.lxor (Byte.to_N a) (Byte.to_N b).
Proof.
  apply to_N_byte_of_N. apply (lxor_lt_pow2 _ _ 8); apply to_N_lt.
Qed.

Lemma to_N_bor (a b : byte) :
  Byte.to_N (bor a b) = N.lor (Byte.to_N a) (Byte.to_N b).
Proof.
  apply to_N_byte_of_N. apply (lor_lt_pow2 _ _ 8); apply to_N_lt.
Qed.

Lemma bxor_x00_iff (a b : byte) : bxor a b = x00 <-> a = b.
Proof.
  split.
  - intros H. apply to_N_inj, N.lxor_eq.
    rewrite <- to_N_bxor, H. reflexivity.
  - intros ->. apply to_N_inj. rewrite to_N_bxor, N.lxor_nilpotent.
    reflexivity.
Qed.

Lemma bor_x00_iff (a b : byte) : bor a b = x00 <-> a = x00 /\ b = x00.
Proof.
  split.
  - intros H. assert (E : N.lor (Byte.to_N a) (Byte.to_N b) = 0)
      by (rewrite <- to_N_bor, H; reflexivity).
    apply N.lor_eq_0_iff in E. destruct E as [Ea Eb].
    split; apply to_N_inj; assumption.
  - intros [-> ->]. reflexivity.
Qed.

Lemma bytes_of_string_inj (s t : string) :
  bytes_of_string s = bytes_of_string t -> s = t.
Proof.
  unfold bytes_of_string. intros H.
  rewrite <- (string_of_list_byte_of_string s),
          <- (string_of_list_byte_of_string t).
  now rewrite H.
Qed.

Lemma is_empty_true (s : string) : is_empty s = true <-> s = EmptyString.
Proof. apply String.eqb_eq. Qed.

Lemma is_empty_false (s : string) : is_empty s = false <-> s <> EmptyString.
Proof. apply String.eqb_neq. Qed.

(** ** crypto/subtle: the constant-time comparison decides equality *)

Lemma ConstantTimeByteEq_x00 (v : byte) :
  Subtle.ConstantTimeByteEq v x00 = 1 <-> v = x00.
Proof.
  split; [|intros ->; reflexivity].
  destruct v; vm_compute; intros H; first [reflexivity | discriminate H].
Qed.

Lemma accumulate_x00 (x y : bytes) (v : byte) :
  length x = length y ->
  (Subtle.accumulate v x y = x00 <-> v = x00 /\ x = y).
Proof.
  revert y v. induction x as [|a x IH]; intros [|b y] v Hlen;
    simpl in *; try discriminate.
  - intuition.
  - rewrite IH by congruence. rewrite bor_x00_iff, bxor_x00_iff.
    split.
    + intros [[-> ->] ->]. auto.
    + intros [-> E]. inversion E. auto.
Qed.

Lemma ConstantTimeCompare_iff (x y : bytes) :
  Subtle.ConstantTimeCompare x y = 1 <-> x = y.
Proof.
  unfold Subtle.ConstantTimeCompare.
  destruct (Nat.eqb (length x) (length y)) eqn:E; simpl.
  - apply Nat.eqb_eq in E.
    rewrite ConstantTimeByteEq_x00, accumulate_x00 by assumption.
    intuition.
  - apply Nat.eqb_neq in E. split; [discriminate|].
    intros ->. now elim E.
Qed.

Lemma hmac_Equal_iff (mac1 mac2 : bytes) :
  hmac_Equal mac1 mac2 = true <-> mac1 = mac2.
Proof.
  unfold hmac_Equal. rewrite N.eqb_eq. apply ConstantTimeCompare_iff.
Qed.

(** ** unicode/utf8: encoding undoes decoding *)

Ltac Zify.zify_post_hook ::= Z.to_euclidean_division_equations.

Lemma land_disjoint (a b n : N) :
  a mod 2 ^ n = 0 -> b < 2 ^ n -> N.land a b = 0.
Proof.
  intros Ha Hb. apply N.bits_inj_0. intros i.
  rewrite N.land_spec.
  destruct (N.lt_ge_cases i n) as [Hi|Hi].
  - rewrite <- (N.mod_pow2_bits_low a n i Hi), Ha, N.bits_0. reflexivity.
  - rewrite andb_comm.
    replace b with (b mod 2 ^ n) by (apply N.mod_small; assumption).
    rewrite N.mod_pow2_bits_high by assumption. reflexivity.
Qed.

Lemma lor_add (n a b : N) :
  a mod 2 ^ n = 0 -> b < 2 ^ n -> N.lor a b = a + b.
Proof.
  intros Ha Hb. pose proof (land_disjoint a b n Ha Hb) as H.
  rewrite <- N.lxor_lor by assumption.
  symmetry. now apply N.add_nocarry_lxor.
Qed.

Lemma land_mask (n a : N) : N.land a (N.ones n) = a mod 2 ^ n.
Proof. apply N.land_ones. Qed.

Ltac arith :=
  repeat first
    [ rewrite N.shiftl_mul_pow2
    | rewrite N.shiftr_div_pow2
    | progress change UTF8.maskx with (N.ones 6)
    | progress change UTF8.mask2 with (N.ones 5)
    | progress change UTF8.mask3 with (N.ones 4)
    | progress change UTF8.mask4 with (N.ones 3)
    | rewrite land_mask ];
  change (2 ^ 3) with 8 in *; change (2 ^ 4) with 16 in *;
  change (2 ^ 5) with 32 in *; change (2 ^ 6) with 64 in *;
  change (2 ^ 12) with 4096 in *; change (2 ^ 18) with 262144 in *.


Ltac pow2 :=
  change (2 ^ 3) with 8 in *; change (2 ^ 4) with 16 in *;
  change (2 ^ 5) with 32 in *; change (2 ^ 6) with 64 in *;
  change (2 ^ 12) with 4096 in *; change (2 ^ 18) with 262144 in *.

Lemma first_spec (p0 : N) (sz : nat) (lo hi : N) :
  UTF8.first p0 = Some (sz, lo, hi) ->
  (sz = 2%nat /\ 0xC2 <= p0 <= 0xDF /\ lo = 0x80 /\ hi = 0xBF)
  \/ (sz = 3%nat /\ 0xE0 <= p0 <= 0xEF /\ 0x80 <= lo /\ hi <= 0xBF
      /\ (p0 = 0xE0 -> lo = 0xA0) /\ (p0 = 0xED -> hi = 0x9F))
  \/ (sz = 4%nat /\ 0xF0 <= p0 <= 0xF4 /\ 0x80 <= lo /\ hi <= 0xBF
      /\ (p0 = 0xF0 -> lo = 0x90) /\ (p0 = 0xF4 -> hi = 0x8F)).
Proof.
  unfold UTF8.first.
  repeat match goal with
         | |- context [?a <? ?b] => destruct (N.ltb_spec a b)
         | |- context [?a =? ?b] => destruct (N.eqb_spec a b)
         end;
    intros E; inversion E; subst; clear E;
    first [ left; lia | right; left; lia | right; right; lia ].
Qed.

Lemma enc2 (p0 b1 : N) :
  0xC2 <= p0 <= 0xDF -> 0x80 <= b1 <= 0xBF ->
  UTF8.EncodeRune
    (N.lor (N.shiftl (N.land p0 UTF8.mask2) 6) (N.land b1 UTF8.maskx))
  = [byte_of_N p0; byte_of_N b1].
Proof.
  intros H0 H1.
  set (r := N.lor _ _).
  assert (Hr : r = (p0 mod 32) * 64 + b1 mod 64).
  { subst r. arith. rewrite (lor_add 6); pow2; lia. }
  clearbody r.
  unfold UTF8.EncodeRune, UTF8.rune1Max, UTF8.rune2Max.
  destruct (N.leb_spec r 127); [lia|].
  destruct (N.leb_spec r 2047); [|lia].
  unfold UTF8.t2, UTF8.tx. arith.
  rewrite (lor_add 6 192) by (pow2; lia).
  rewrite (lor_add 6 128) by (pow2; lia).
  f_equal; [f_equal; lia|]. f_equal. f_equal. lia.
Qed.

Lemma enc3 (p0 b1 b2 : N) :
  0xE0 <= p0 <= 0xEF -> 0x80 <= b1 <= 0xBF -> 0x80 <= b2 <= 0xBF ->
  (p0 = 0xE0 -> 0xA0 <= b1) -> (p0 = 0xED -> b1 <= 0x9F) ->
  UTF8.EncodeRune
    (N.lor (N.lor (N.shiftl (N.land p0 UTF8.mask3) 12)
                  (N.shiftl (N.land b1 UTF8.maskx) 6))
           (N.land b2 UTF8.maskx))
  = [byte_of_N p0; byte_of_N b1; byte_of_N b2].
Proof.
  intros H0 H1 H2 Hlo Hhi.
  set (r := N.lor _ _).
  assert (Hr : r = (p0 mod 16) * 4096 + (b1 mod 64) * 64 + b2 mod 64).
  { subst r. arith.
    rewrite (lor_add 12 (p0 mod 16 * 4096) (b1 mod 64 * 64)) by (pow2; lia).
    rewrite (lor_add 6); pow2; lia. }
  clearbody r.
  unfold UTF8.EncodeRune, UTF8.rune1Max, UTF8.rune2Max, UTF8.rune3Max,
    UTF8.MaxRune, UTF8.surrogateMin, UTF8.surrogateMax.
  destruct (N.leb_spec r 127); [lia|].
  destruct (N.leb_spec r 2047); [lia|].
  destruct (N.ltb_spec 1114111 r); [lia|].
  assert (Hs : (55296 <=? r) && (r <=? 57343) = false).
  { destruct (N.leb_spec 55296 r); [|reflexivity].
    destruct (N.leb_spec r 57343); [|reflexivity]. lia. }
  rewrite Hs. cbn [orb].
  destruct (N.leb_spec r 65535); [|lia].
  unfold UTF8.enc3, UTF8.t3, UTF8.tx. arith.
  rewrite (lor_add 4 224) by (pow2; lia).
  rewrite !(lor_add 6 128) by (pow2; lia).
  repeat (f_equal; try lia).
Qed.

Lemma enc4 (p0 b1 b2 b3 : N) :
  0xF0 <= p0 <= 0xF4 -> 0x80 <= b1 <= 0xBF -> 0x80 <= b2 <= 0xBF ->
  0x80 <= b3 <= 0xBF ->
  (p0 = 0xF0 -> 0x90 <= b1) -> (p0 = 0xF4 -> b1 <= 0x8F) ->
  UTF8.EncodeRune
    (N.lor (N.lor (N.lor (N.shiftl (N.land p0 UTF8.mask4) 18)
                         (N.shiftl (N.land b1 UTF8.maskx) 12))
                  (N.shiftl (N.land b2 UTF8.maskx) 6))
           (N.land b3 UTF8.maskx))
  = [byte_of_N p0; byte_of_N b1; byte_of_N b2; byte_of_N b3].
Proof.
  intros H0 H1 H2 H3 Hlo Hhi.
  set (r := N.lor _ _).
  assert (Hr : r = (p0 mod 8) * 262144 + (b1 mod 64) * 4096
                   + (b2 mod 64) * 64 + b3 mod 64).
  { subst r. arith.
    rewrite (lor_add 18 (p0 mod 8 * 262144) (b1 mod 64 * 4096))
      by (pow2; lia).
    rewrite (lor_add 12 _ (b2 mod 64 * 64)) by (pow2; lia).
    rewrite (lor_add 6); pow2; lia. }
  clearbody r.
  unfold UTF8.EncodeRune, UTF8.rune1Max, UTF8.rune2Max, UTF8.rune3Max,
    UTF8.MaxRune, UTF8.surrogateMin, UTF8.surrogateMax.
  destruct (N.leb_spec r 127); [lia|].
  destruct (N.leb_spec r 2047); [lia|].
  destruct (N.ltb_spec 1114111 r); [lia|].
  assert (Hs : (55296 <=? r) && (r <=? 57343) = false).
  { destruct (N.leb_spec 55296 r); [|reflexivity].
    destruct (N.leb_spec r 57343); [|reflexivity]. lia. }
  rewrite Hs. cbn [orb].
  destruct (N.leb_spec r 65535); [lia|].
  unfold UTF8.t4, UTF8.tx. arith.
  rewrite (lor_add 3 240) by (pow2; lia).
  rewrite !(lor_add 6 128) by (pow2; lia).
  repeat (f_equal; try lia).
Qed.

Lemma cont_spec (b : N) : UTF8.cont b = true <-> (0x80 <= b <= 0xBF).
Proof.
  unfold UTF8.cont. rewrite andb_true_iff, !N.leb_le. reflexivity.
Qed.

Lemma range_spec (b lo hi : N) :
  ((b <? lo) || (hi <? b) = false) <-> (lo <= b <= hi).
Proof.
  rewrite orb_false_iff, !N.ltb_ge. reflexivity.
Qed.

Lemma DecodeRune_valid (c0 : byte) (p1 : bytes) (r : N) (size : nat) :
  0x80 <= Byte.to_N c0 ->
  UTF8.DecodeRune (c0 :: p1) = (r, size) -> size <> 1%nat ->
  exists conts rest,
    p1 = conts ++ rest /\ size = S (length conts)
    /\ UTF8.EncodeRune r = c0 :: conts
    /\ Forall high conts
    /\ forall X, UTF8.DecodeRune (c0 :: conts ++ X) = (r, size).
Proof.
  intros Hc Hd Hs. unfold UTF8.DecodeRune in Hd.
  assert (E0 : (Byte.to_N c0 <? UTF8.RuneSelf) = false)
    by (apply N.ltb_ge; exact Hc).
  rewrite E0 in Hd.
  destruct (UTF8.first (Byte.to_N c0)) as [[[sz lo] hi]|] eqn:Ef;
    [|inversion Hd; congruence].
  destruct (first_spec _ _ _ _ Ef)
    as [(-> & H0 & -> & ->)
       |[(-> & H0 & Hlo & Hhi & Hlo' & Hhi')
        |(-> & H0 & Hlo & Hhi & Hlo' & Hhi')]].
  - (* two bytes *)
    destruct p1 as [|c1 p2]; cbn [length Nat.ltb Nat.leb] in Hd;
      [inversion Hd; congruence|].
    destruct ((Byte.to_N c1 <? 128) || (191 <? Byte.to_N c1)) eqn:E1;
      [inversion Hd; congruence|].
    inversion Hd; subst r size; clear Hd.
    pose proof (proj1 (range_spec _ _ _) E1) as R1.
    exists [c1], p2. split; [reflexivity|]. split; [reflexivity|].
    split; [|split].
    + rewrite enc2 by assumption. now rewrite !byte_of_to_N.
    + constructor; [unfold high; lia|constructor].
    + intros X. unfold UTF8.DecodeRune. rewrite E0, Ef.
      cbn [app length Nat.ltb Nat.leb]. rewrite E1. reflexivity.
  - (* three bytes *)
    destruct p1 as [|c1 [|c2 p3]]; cbn [length Nat.ltb Nat.leb] in Hd;
      try (inversion Hd; congruence).
    destruct ((Byte.to_N c1 <? lo) || (hi <? Byte.to_N c1)) eqn:E1;
      [inversion Hd; congruence|].
    destruct (UTF8.cont (Byte.to_N c2)) eqn:E2;
      cbn [negb] in Hd; [|inversion Hd; congruence].
    inversion Hd; subst r size; clear Hd.
    pose proof (proj1 (range_spec _ _ _) E1) as R1.
    pose proof (proj1 (cont_spec _) E2) as R2.
    exists [c1; c2], p3. split; [reflexivity|]. split; [reflexivity|].
    split; [|split].
    + rewrite enc3 by lia. now rewrite !byte_of_to_N.
    + repeat constructor; unfold high; lia.
    + intros X. unfold UTF8.DecodeRune. rewrite E0, Ef.
      cbn [app length Nat.ltb Nat.leb]. rewrite E1, E2. reflexivity.
  - (* four bytes *)
    destruct p1 as [|c1 [|c2 [|c3 p4]]];
      cbn [length Nat.ltb Nat.leb] in Hd; try (inversion Hd; congruence).
    destruct ((Byte.to_N c1 <? lo) || (hi <? Byte.to_N c1)) eqn:E1;
      [inversion Hd; congruence|].
    destruct (UTF8.cont (Byte.to_N c2)) eqn:E2;
      cbn [negb] in Hd; [|inversion Hd; congruence].
    destruct (UTF8.cont (Byte.to_N c3)) eqn:E3;
      cbn [negb] in Hd; [|inversion Hd; congruence].
    inversion Hd; subst r size; clear Hd.
    pose proof (proj1 (range_spec _ _ _) E1) as R1.
    pose proof (proj1 (cont_spec _) E2) as R2.
    pose proof (proj1 (cont_spec _) E3) as R3.
    exists [c1; c2; c3], p4. split; [reflexivity|]. split; [reflexivity|].
    split; [|split].
    + rewrite enc4 by lia. now rewrite !byte_of_to_N.
    + repeat constructor; unfold high; lia.
    + intros X. unfold UTF8.DecodeRune. rewrite E0, Ef.
      cbn [app length Nat.ltb Nat.leb]. rewrite E1, E2, E3. reflexivity.
Qed.

(** ** encoding/json: string literals *)

Lemma appendString_loop_skip (k : nat) (s : bytes) :
  JSON.appendString_loop k s = JSON.appendString_loop 0 (skipn k s).
Proof.
  revert k. induction s as [|c s IH]; intros [|k]; try reflexivity.
  cbn [skipn]. rewrite <- IH. reflexivity.
Qed.

Lemma unquote_loop_skip (k : nat) (s : bytes) :
  JSON.unquote_loop k s = JSON.unquote_loop 0 (skipn k s).
Proof.
  revert k. induction s as [|c s IH]; intros [|k]; try reflexivity.
  cbn [skipn]. rewrite <- IH. reflexivity.
Qed.

Lemma Valid_loop_skip (k : nat) (s : bytes) :
  UTF8.Valid_loop k s = UTF8.Valid_loop 0 (skipn k s).
Proof.
  revert k. induction s as [|c s IH]; intros [|k]; try reflexivity.
  cbn [skipn]. rewrite <- IH. reflexivity.
Qed.

Lemma skipn_length_app {A : Type} (l X : list A) :
  skipn (length l) (l ++ X) = X.
Proof. induction l; simpl; auto. Qed.

Lemma appendString_loop_ascii (c : byte) (s : bytes) :
  Byte.to_N c < 0x80 ->
  JSON.appendString_loop 0 (c :: s)
  = (if JSON.htmlSafeSet (Byte.to_N c) then [c] else JSON.escapeASCII c)
    ++ JSON.appendString_loop 0 s.
Proof.
  intros H. apply N.ltb_lt in H. cbn [JSON.appendString_loop].
  unfold UTF8.RuneSelf. rewrite H. reflexivity.
Qed.

Lemma appendString_loop_invalid (c : byte) (s : bytes) :
  0x80 <= Byte.to_N c ->
  snd (UTF8.DecodeRune (c :: s)) = 1%nat ->
  JSON.appendString_loop 0 (c :: s)
  = [x5c; x75; x66; x66; x66; x64] ++ JSON.appendString_loop 0 s.
Proof.
  intros H Hd. apply N.ltb_ge in H. cbn [JSON.appendString_loop].
  unfold UTF8.RuneSelf. rewrite H.
  destruct (UTF8.DecodeRune (c :: s)) as [r size] eqn:E. simpl in Hd.
  subst size.
  assert (r = UTF8.RuneError).
  { unfold UTF8.DecodeRune in E. unfold UTF8.RuneSelf in E. rewrite H in E.
    repeat match type of E with
           | context [match ?x with _ => _ end] => destruct x
           end; inversion E; reflexivity. }
  subst r. reflexivity.
Qed.

Lemma htmlSafe_bounds (b : N) :
  JSON.htmlSafeSet b = true ->
  0x20 <= b < 0x80 /\ b <> 0x22 /\ b <> 0x5c /\ b <> 0x3c /\ b <> 0x3e
  /\ b <> 0x26.
Proof.
  unfold JSON.htmlSafeSet.
  rewrite !andb_true_iff, negb_true_iff, !orb_false_iff, N.leb_le, N.ltb_lt,
    !N.eqb_neq.
  tauto.
Qed.

Lemma scan_string_pass (c : byte) (X : bytes) :
  0x20 <= Byte.to_N c -> Byte.to_N c <> 0x22 -> Byte.to_N c <> 0x5c ->
  JSON.scan_string (c :: X) = cons_raw [c] (JSON.scan_string X).
Proof.
  intros H1 H2 H3. cbn [JSON.scan_string]. unfold JSON.isb.
  apply N.eqb_neq in H2, H3. rewrite H2, H3.
  apply N.ltb_ge in H1. rewrite H1.
  destruct (JSON.scan_string X) as [[raw rest]|]; reflexivity.
Qed.

Lemma scan_string_plain (c : byte) (X : bytes) :
  JSON.htmlSafeSet (Byte.to_N c) = true ->
  JSON.scan_string (c :: X) = cons_raw [c] (JSON.scan_string X).
Proof.
  intros H. apply htmlSafe_bounds in H. apply scan_string_pass; lia.
Qed.

Lemma cons_raw_app (a b : bytes) (o : option (bytes * bytes)) :
  cons_raw a (cons_raw b o) = cons_raw (a ++ b) o.
Proof. destruct o as [[raw rest]|]; simpl; [|reflexivity]. now rewrite app_assoc. Qed.

Lemma scan_string_high (l X : bytes) :
  Forall high l ->
  JSON.scan_string (l ++ X) = cons_raw l (JSON.scan_string X).
Proof.
  induction 1 as [|c l Hc Hl IH]; simpl app.
  - destruct (JSON.scan_string X) as [[raw rest]|]; reflexivity.
  - unfold high in Hc. rewrite scan_string_pass by lia.
    rewrite IH. apply (cons_raw_app [c] l).
Qed.

Lemma scan_string_escapeASCII (c : byte) (X : bytes) :
  Byte.to_N c < 0x80 -> JSON.htmlSafeSet (Byte.to_N c) = false ->
  JSON.scan_string (JSON.escapeASCII c ++ X)
  = cons_raw (JSON.escapeASCII c) (JSON.scan_string X).
Proof.
  intros H1 H2.
  destruct c; try discriminate H1; try discriminate H2;
    cbv [JSON.escapeASCII]; simpl;
    destruct (JSON.scan_string X) as [[raw rest]|]; reflexivity.
Qed.

Lemma firstn_length_app {A : Type} (l X : list A) :
  firstn (length l) (l ++ X) = l.
Proof. induction l; simpl; congruence. Qed.

Lemma appendString_loop_rune (c : byte) (conts rest : bytes) (r : N) :
  0x80 <= Byte.to_N c -> conts <> [] ->
  UTF8.DecodeRune (c :: conts ++ rest) = (r, S (length conts)) ->
  JSON.appendString_loop 0 (c :: conts ++ rest)
  = rune_chunk r (c :: conts) ++ JSON.appendString_loop 0 rest.
Proof.
  intros H Hne Hd. apply N.ltb_ge in H. cbn [JSON.appendString_loop].
  unfold UTF8.RuneSelf. rewrite H, Hd.
  assert (E1 : Nat.eqb (S (length conts)) 1 = false).
  { destruct conts; [congruence|reflexivity]. }
  rewrite E1, andb_false_r.
  replace (S (length conts) - 1)%nat with (length conts) by lia.
  rewrite appendString_loop_skip, skipn_length_app.
  unfold rune_chunk.
  destruct ((r =? 0x2028) || (r =? 0x2029)); [reflexivity|].
  change (firstn (S (length conts)) (c :: conts ++ rest))
    with (c :: firstn (length conts) (conts ++ rest)).
  now rewrite firstn_length_app.
Qed.

(** The three ways the head of a byte string is read by the encoder. *)
Lemma head_cases (c : byte) (s : bytes) :
  (Byte.to_N c < 0x80)
  \/ (0x80 <= Byte.to_N c /\ snd (UTF8.DecodeRune (c :: s)) = 1%nat)
  \/ (0x80 <= Byte.to_N c /\
      exists conts rest r,
        s = conts ++ rest /\ conts <> []
        /\ UTF8.DecodeRune (c :: conts ++ rest) = (r, S (length conts))
        /\ UTF8.EncodeRune r = c :: conts /\ Forall high conts
        /\ (forall X, UTF8.DecodeRune (c :: conts ++ X)
                      = (r, S (length conts)))).
Proof.
  destruct (N.lt_ge_cases (Byte.to_N c) 0x80) as [H|H]; [now left|right].
  destruct (UTF8.DecodeRune (c :: s)) as [r size] eqn:E.
  destruct (Nat.eq_dec size 1) as [->|Hs]; [left; auto|right].
  split; [assumption|].
  destruct (DecodeRune_valid c s r size H E Hs)
    as (conts & rest & -> & -> & He & Hh & HX).
  exists conts, rest, r. repeat split; auto.
  intros ->. now elim Hs.
Qed.

Lemma scan_rune_chunk (c : byte) (conts X : bytes) (r : N) :
  0x80 <= Byte.to_N c -> Forall high conts ->
  JSON.scan_string (rune_chunk r (c :: conts) ++ X)
  = cons_raw (rune_chunk r (c :: conts)) (JSON.scan_string X).
Proof.
  intros H Hh. unfold rune_chunk.
  destruct (N.eqb_spec r 0x2028) as [->|H1].
  { simpl. destruct (JSON.scan_string X) as [[raw rest]|]; reflexivity. }
  destruct (N.eqb_spec r 0x2029) as [->|H2].
  { simpl. destruct (JSON.scan_string X) as [[raw rest]|]; reflexivity. }
  apply (scan_string_high (c :: conts)). constructor; assumption.
Qed.

Lemma scan_appendString_loop_le (n : nat) :
  forall src rest, (length src <= n)%nat ->
    JSON.scan_string (JSON.appendString_loop 0 src ++ x22 :: rest)
    = Some (JSON.appendString_loop 0 src, rest).
Proof.
  induction n as [|n IH]; intros [|c s] rest Hn; simpl in Hn;
    try lia; try reflexivity.
  assert (IHs : forall t, (length t <= length s)%nat ->
                JSON.scan_string (JSON.appendString_loop 0 t ++ x22 :: rest)
                = Some (JSON.appendString_loop 0 t, rest)).
  { intros t Ht. apply IH. lia. }
  destruct (head_cases c s)
    as [H|[[H Hd]|[H (conts & rest' & r & -> & Hne & Hd & He & Hh & HX)]]].
  - rewrite appendString_loop_ascii by assumption.
    rewrite <- app_assoc.
    destruct (JSON.htmlSafeSet (Byte.to_N c)) eqn:Es.
    + change ([c] ++ ?l) with (c :: l).
      rewrite scan_string_plain, IHs by auto. reflexivity.
    + rewrite scan_string_escapeASCII, IHs by auto. reflexivity.
  - rewrite appendString_loop_invalid by assumption.
    rewrite <- app_assoc.
    change (JSON.scan_string ([x5c; x75; x66; x66; x66; x64] ++ ?l))
      with (cons_raw [x5c; x75; x66; x66; x66; x64] (JSON.scan_string l)).
    rewrite IHs by auto. reflexivity.
  - rewrite (appendString_loop_rune c conts rest' r) by assumption.
    rewrite <- app_assoc, scan_rune_chunk by assumption.
    rewrite IHs; [reflexivity|]. rewrite length_app. lia.
Qed.

Lemma scan_appendString_loop (src rest : bytes) :
  JSON.scan_string (JSON.appendString_loop 0 src ++ x22 :: rest)
  = Some (JSON.appendString_loop 0 src, rest).
Proof. now apply (scan_appendString_loop_le (length src)). Qed.

Lemma prepend_app (a b : bytes) (o : option bytes) :
  JSON.prepend a (JSON.prepend b o) = JSON.prepend (a ++ b) o.
Proof.
  destruct o as [l|]; simpl; [|reflexivity]. now rewrite app_assoc.
Qed.

Lemma unquote_loop_plain (c : byte) (X : bytes) :
  JSON.htmlSafeSet (Byte.to_N c) = true ->
  JSON.unquote_loop 0 (c :: X) = JSON.prepend [c] (JSON.unquote_loop 0 X).
Proof.
  intros H. apply htmlSafe_bounds in H.
  destruct H as ([H1 H2] & H3 & H4 & _).
  cbn [JSON.unquote_loop]. unfold UTF8.RuneSelf.
  apply N.eqb_neq in H3, H4. rewrite H3, H4.
  apply N.ltb_ge in H1. rewrite H1. apply N.ltb_lt in H2. rewrite H2.
  reflexivity.
Qed.

Lemma unquote_loop_escapeASCII (c : byte) (X : bytes) :
  Byte.to_N c < 0x80 -> JSON.htmlSafeSet (Byte.to_N c) = false ->
  JSON.unquote_loop 0 (JSON.escapeASCII c ++ X)
  = JSON.prepend [c] (JSON.unquote_loop 0 X).
Proof.
  intros H1 H2.
  destruct c; try discriminate H1; try discriminate H2; reflexivity.
Qed.

Lemma unquote_loop_rune (c : byte) (conts X : bytes) (r : N) :
  0x80 <= Byte.to_N c ->
  UTF8.EncodeRune r = c :: conts ->
  UTF8.DecodeRune (c :: conts ++ X) = (r, S (length conts)) ->
  JSON.unquote_loop 0 (rune_chunk r (c :: conts) ++ X)
  = JSON.prepend (c :: conts) (JSON.unquote_loop 0 X).
Proof.
  intros H He Hd. unfold rune_chunk.
  destruct (N.eqb_spec r 0x2028) as [->|H1].
  { rewrite <- He. reflexivity. }
  destruct (N.eqb_spec r 0x2029) as [->|H2].
  { rewrite <- He. reflexivity. }
  cbn [orb app JSON.unquote_loop]. unfold UTF8.RuneSelf.
  assert (E1 : (Byte.to_N c =? 0x5c) = false) by (apply N.eqb_neq; lia).
  assert (E2 : (Byte.to_N c =? 0x22) = false) by (apply N.eqb_neq; lia).
  assert (E3 : (Byte.to_N c <? 0x20) = false) by (apply N.ltb_ge; lia).
  assert (E4 : (Byte.to_N c <? 0x80) = false) by (apply N.ltb_ge; lia).
  rewrite E1, E2, E3, E4, Hd, He. cbn [orb].
  replace (S (length conts) - 1)%nat with (length conts) by lia.
  now rewrite unquote_loop_skip, skipn_length_app.
Qed.

Lemma Valid_loop_ascii (c : byte) (s : bytes) :
  Byte.to_N c < 0x80 -> UTF8.Valid_loop 0 (c :: s) = UTF8.Valid_loop 0 s.
Proof.
  intros H. apply N.ltb_lt in H. cbn [UTF8.Valid_loop].
  unfold UTF8.RuneSelf. now rewrite H.
Qed.

Lemma Valid_loop_invalid (c : byte) (s : bytes) :
  0x80 <= Byte.to_N c -> snd (UTF8.DecodeRune (c :: s)) = 1%nat ->
  UTF8.Valid_loop 0 (c :: s) = false.
Proof.
  intros H Hd. apply N.ltb_ge in H. cbn [UTF8.Valid_loop].
  unfold UTF8.RuneSelf. rewrite H.
  destruct (UTF8.DecodeRune (c :: s)) as [r size]. simpl in Hd. subst size.
  reflexivity.
Qed.

Lemma Valid_loop_rune (c : byte) (conts rest : bytes) (r : N) :
  0x80 <= Byte.to_N c -> conts <> [] ->
  UTF8.DecodeRune (c :: conts ++ rest) = (r, S (length conts)) ->
  UTF8.Valid_loop 0 (c :: conts ++ rest) = UTF8.Valid_loop 0 rest.
Proof.
  intros H Hne Hd. apply N.ltb_ge in H. cbn [UTF8.Valid_loop].
  unfold UTF8.RuneSelf. rewrite H, Hd.
  assert (E1 : Nat.eqb (S (length conts)) 1 = false).
  { destruct conts; [congruence|reflexivity]. }
  rewrite E1.
  replace (S (length conts) - 1)%nat with (length conts) by lia.
  now rewrite Valid_loop_skip, skipn_length_app.
Qed.

Lemma unquote_appendString_loop_le (n : nat) :
  forall src, (length src <= n)%nat -> UTF8.Valid src = true ->
    JSON.unquote_loop 0 (JSON.appendString_loop 0 src) = Some src.
Proof.
  unfold UTF8.Valid.
  induction n as [|n IH]; intros [|c s] Hn Hv; simpl in Hn;
    try lia; try reflexivity.
  destruct (head_cases c s)
    as [H|[[H Hd]|[H (conts & rest' & r & -> & Hne & Hd & He & Hh & HX)]]].
  - rewrite appendString_loop_ascii by assumption.
    rewrite Valid_loop_ascii in Hv by assumption.
    destruct (JSON.htmlSafeSet (Byte.to_N c)) eqn:Es.
    + change ([c] ++ ?l) with (c :: l).
      rewrite unquote_loop_plain, IH by (auto; lia). reflexivity.
    + rewrite unquote_loop_escapeASCII, IH by (auto; lia). reflexivity.
  - rewrite Valid_loop_invalid in Hv by assumption. discriminate Hv.
  - rewrite (appendString_loop_rune c conts rest' r) by assumption.
    rewrite (Valid_loop_rune c conts rest' r) in Hv by assumption.
    rewrite unquote_loop_rune by auto.
    rewrite IH; [reflexivity| |assumption]. rewrite length_app in Hn. lia.
Qed.

Lemma unquote_appendString_loop (s : string) :
  UTF8.ValidString s = true ->
  JSON.unquote (JSON.appendString_loop 0 (bytes_of_string s)) = Some s.
Proof.
  intros Hv. unfold JSON.unquote.
  rewrite (unquote_appendString_loop_le (length (bytes_of_string s)))
    by auto.
  simpl. unfold string_of_bytes, bytes_of_string.
  now rewrite string_of_list_byte_of_string.
Qed.

(** ** encoding/json: objects of string members *)

Lemma scan_value_string (f : nat) (depth : N) (raw R : bytes) :
  scannable raw ->
  JSON.scan_value (S f) depth (x22 :: raw ++ x22 :: R)
  = Some (JSON.JString raw, R).
Proof.
  intros H. cbn [JSON.scan_value JSON.skip_space].
  change (JSON.isSpace x22) with false. cbv iota.
  change (JSON.isb x22 0x7b) with false.
  change (JSON.isb x22 0x5b) with false.
  change (JSON.isb x22 0x22) with true. cbv iota.
  now rewrite H.
Qed.

Lemma scan_members_bytes (ms : list (bytes * bytes)) :
  ms <> [] ->
  Forall (fun kv => scannable (fst kv) /\ scannable (snd kv)) ms ->
  forall (f : nat) (depth : N) (R : bytes),
    (length ms < f)%nat ->
    JSON.scan_members f depth (members_bytes ms R)
    = Some (map string_member ms, R).
Proof.
  induction ms as [|[k v] ms IH]; intros Hne Hs f depth R Hf;
    [now elim Hne|].
  inversion Hs as [|x l [Hk Hv] Hs']; subst; simpl in Hk, Hv.
  destruct f as [|[|f]]; simpl in Hf; try lia.
  assert (Hhead : forall T,
             JSON.scan_members (S (S f)) depth
               (x22 :: k ++ x22 :: x3a :: x22 :: v ++ x22 :: T)
             = match JSON.skip_space T with
               | d :: r3 =>
                   if JSON.isb d 0x2c then
                     match JSON.scan_members (S f) depth r3 with
                     | Some (ms', r4) =>
                         Some ((k, JSON.JString v) :: ms', r4)
                     | None => None
                     end
                   else if JSON.isb d 0x7d
                        then Some ([(k, JSON.JString v)], r3)
                        else None
               | [] => None
               end).
  { intros T. cbn [JSON.scan_members JSON.skip_space].
    change (JSON.isSpace x22) with false. cbv iota.
    change (JSON.isb x22 0x22) with true. cbv iota.
    rewrite Hk. cbn [JSON.skip_space].
    change (JSON.isSpace x3a) with false. cbv iota.
    change (JSON.isb x3a 0x3a) with true. cbv iota.
    rewrite scan_value_string by assumption. reflexivity. }
  destruct ms as [|kv' ms].
  - cbn [members_bytes map]. rewrite Hhead. reflexivity.
  - change (members_bytes ((k, v) :: kv' :: ms) R)
      with (x22 :: k ++ x22 :: x3a :: x22 :: v ++ x22 :: x2c
                :: members_bytes (kv' :: ms) R).
    rewrite Hhead. cbn [JSON.skip_space].
    change (JSON.isSpace x2c) with false. cbv iota.
    change (JSON.isb x2c 0x2c) with true. cbv iota.
    rewrite IH; [reflexivity|discriminate|assumption|simpl in *; lia].
Qed.

Lemma members_bytes_length (ms : list (bytes * bytes)) (R : bytes) :
  (length ms <= length (members_bytes ms R))%nat.
Proof.
  induction ms as [|[k v] [|kv' ms] IH]; simpl in *; try lia.
  rewrite !length_app. simpl. rewrite !length_app. simpl. 
  destruct kv'. simpl in *. lia.
Qed.

Lemma parse_object (ms : list (bytes * bytes)) :
  ms <> [] ->
  Forall (fun kv => scannable (fst kv) /\ scannable (snd kv)) ms ->
  JSON.parse (x7b :: members_bytes ms [])
  = Some (JSON.JObject (map string_member ms)).
Proof.
  intros Hne Hs. unfold JSON.parse.
  cbn [JSON.scan_value JSON.skip_space].
  change (JSON.isSpace x7b) with false. cbv iota.
  change (JSON.isb x7b 0x7b) with true. cbv iota.
  change (JSON.maxNestingDepth <=? 0) with false. cbv iota.
  destruct ms as [|[k v] ms]; [now elim Hne|].
  assert (Hm : exists T, members_bytes ((k, v) :: ms) [] = x22 :: T).
  { destruct ms; simpl; eauto. }
  destruct Hm as [T HT]. rewrite HT. cbn [JSON.skip_space].
  change (JSON.isSpace x22) with false. cbv iota.
  change (JSON.isb x22 0x7d) with false. cbv iota.
  rewrite <- HT.
  rewrite scan_members_bytes; [reflexivity|assumption|assumption|].
  pose proof (members_bytes_length ((k, v) :: ms) []).
  cbn [length] in *. lia.
Qed.

Lemma rfc3339_char_plain (c : byte) :
  rfc3339_char c = true -> JSON.htmlSafeSet (Byte.to_N c) = true.
Proof. destruct c; try discriminate; reflexivity. Qed.

Lemma scannable_enc (s : string) : scannable (enc s).
Proof. intros X. apply scan_appendString_loop. Qed.

Lemma scannable_rfc3339 (txt : bytes) :
  rfc3339_text txt = true -> scannable txt.
Proof.
  unfold rfc3339_text, scannable.
  induction txt as [|c txt IH]; intros H X; [reflexivity|].
  simpl in H. apply andb_true_iff in H. destruct H as [Hc Ht].
  simpl app. rewrite scan_string_plain by now apply rfc3339_char_plain.
  now rewrite IH.
Qed.

Lemma compact_string_rfc3339 (txt : bytes) :
  rfc3339_text txt = true -> JSON.compact_string txt = txt.
Proof.
  unfold rfc3339_text.
  induction txt as [|c txt IH]; intros H; [reflexivity|].
  simpl in H. apply andb_true_iff in H. destruct H as [Hc Ht].
  pose proof (htmlSafe_bounds _ (rfc3339_char_plain c Hc))
    as ([H1 H2] & H3 & H4 & H5 & H6 & H7).
  cbn [JSON.compact_string].
  apply N.eqb_neq in H5, H6, H7. rewrite H5, H6, H7. cbn [orb].
  assert (E : (Byte.to_N c =? 0xE2) = false) by (apply N.eqb_neq; lia).
  rewrite E. cbn [andb]. rewrite (IH Ht).
  destruct txt as [|c1 [|c2 s3]]; reflexivity.
Qed.

Lemma compact_literal_rfc3339 (txt : bytes) :
  rfc3339_text txt = true ->
  JSON.compact_literal (x22 :: txt ++ [x22]) = Some (x22 :: txt ++ [x22]).
Proof.
  intros H. unfold JSON.compact_literal.
  change (JSON.isb x22 0x22) with true. cbv iota.
  rewrite (scannable_rfc3339 txt H []).
  now rewrite compact_string_rfc3339.
Qed.

Section RoundTrip.

Context {L : StdLib}.

Abbreviation WebhookPayload := (WebhookPayload.t Time).

Lemma member_bytes (first omitempty : bool) (n v : string) (R : bytes) :
  member first omitempty n v ++ R
  = if omitempty && is_empty v then R
    else (if first then [] else [x2c])
         ++ x22 :: enc n ++ x22 :: x3a :: x22 :: enc v ++ x22 :: R.
Proof.
  unfold member, name, JSON.appendString, enc.
  destruct (omitempty && is_empty v); [reflexivity|].
  destruct first; cbn [app]; rewrite <- ?app_assoc; cbn [app];
    rewrite <- ?app_assoc; reflexivity.
Qed.

Lemma name_bytes (n : string) (R : bytes) :
  name n ++ R = x22 :: enc n ++ x22 :: x3a :: R.
Proof.
  unfold name, JSON.appendString, enc. cbn [app].
  rewrite <- !app_assoc. reflexivity.
Qed.

Lemma Marshal_WebhookPayload_bytes (p : WebhookPayload) (txt : bytes) :
  appendStrictRFC3339 (WebhookPayload.Timestamp p) = Some txt ->
  rfc3339_text txt = true ->
  Marshal_WebhookPayload p
  = inr (x7b :: members_bytes (payload_members p txt) []).
Proof.
  intros Hf Ht. unfold Marshal_WebhookPayload, Time_MarshalJSON.
  rewrite Hf, compact_literal_rfc3339 by assumption.
  f_equal. f_equal. rewrite !member_bytes. cbn [andb app].
  change (x2c :: name "timestamp" ++ (x22 :: txt ++ [x22]) ++ [x7d])
    with (x2c :: name "timestamp" ++ ((x22 :: txt ++ [x22]) ++ [x7d])).
  rewrite name_bytes. cbn [app]. rewrite <- app_assoc. cbn [app].
  unfold payload_members.
  destruct (is_empty (WebhookPayload.UDF p)),
           (is_empty (WebhookPayload.TxHash p)); reflexivity.
Qed.

Lemma unquote_enc (s : string) :
  UTF8.ValidString s = true -> JSON.unquote (enc s) = Some s.
Proof. apply unquote_appendString_loop. Qed.

Lemma decode_member_string (p : WebhookPayload) (saved : option ext_error)
      (key : string) (f : WebhookPayload.field) (v : string) :
  JSON.lookup_field WebhookPayload.fields key = Some f ->
  f <> WebhookPayload.f_timestamp ->
  UTF8.ValidString key = true -> UTF8.ValidString v = true ->
  decode_member p saved (enc key, JSON.JString (enc v))
  = inr (set_string p f v, saved).
Proof.
  intros Hl Hf Hk Hv. unfold decode_member.
  rewrite (unquote_enc key Hk), Hl. unfold decode_string.
  rewrite (unquote_enc v Hv).
  destruct f; try (now elim Hf); destruct saved; reflexivity.
Qed.

Lemma Time_UnmarshalJSON_literal (t0 t : Time) (txt : bytes) :
  parseStrictRFC3339 txt = Some t ->
  Time_UnmarshalJSON t0 (x22 :: txt ++ [x22]) = inr t.
Proof.
  intros Hp. unfold Time_UnmarshalJSON.
  assert (E1 : URL.bytes_eqb (x22 :: txt ++ [x22]) (bytes_of_string "null")
               = false) by reflexivity.
  rewrite E1.
  assert (E2 : Nat.ltb (length (x22 :: txt ++ [x22])) 2 = false).
  { apply Nat.ltb_ge. cbn [length]. rewrite length_app. simpl. lia. }
  rewrite E2. change (JSON.isb x22 0x22) with true.
  change (x22 :: txt ++ [x22]) with ((x22 :: txt) ++ [x22]) at 1.
  rewrite last_last. change (JSON.isb x22 0x22) with true. cbn [negb orb].
  now rewrite removelast_last, Hp.
Qed.

Lemma decode_member_timestamp (p : WebhookPayload)
      (saved : option ext_error) (txt : bytes) (t : Time) :
  parseStrictRFC3339 txt = Some t ->
  decode_member p saved (enc "timestamp", JSON.JString txt)
  = inr (set_Timestamp p t, saved).
Proof.
  intros Hp. unfold decode_member.
  rewrite (unquote_enc "timestamp") by reflexivity.
  change (JSON.lookup_field WebhookPayload.fields "timestamp")
    with (Some WebhookPayload.f_timestamp).
  cbn [literal_bytes]. now rewrite (Time_UnmarshalJSON_literal _ t).
Qed.

Lemma payload_members_scannable (p : WebhookPayload) (txt : bytes) :
  rfc3339_text txt = true ->
  Forall (fun kv => scannable (fst kv) /\ scannable (snd kv))
         (payload_members p txt).
Proof.
  intros Ht. unfold payload_members.
  destruct (is_empty (WebhookPayload.UDF p)),
           (is_empty (WebhookPayload.TxHash p));
    repeat (constructor; [split; cbn [fst snd];
                          first [apply scannable_enc
                                |now apply scannable_rfc3339]|]);
    constructor.
Qed.

Lemma enumerated_valid (p : WebhookPayload) :
  enumerated p ->
  UTF8.ValidString (WebhookPayload.Type_ p) = true
  /\ UTF8.ValidString (WebhookPayload.Status p) = true
  /\ UTF8.ValidString (WebhookPayload.NetworkType p) = true.
Proof.
  intros (Hty & Hst & Hnt). repeat split.
  - simpl in Hty.
    repeat (destruct Hty as [<-|Hty]; [reflexivity|]). contradiction.
  - simpl in Hst.
    repeat (destruct Hst as [<-|Hst]; [reflexivity|]). contradiction.
  - simpl in Hnt.
    repeat (destruct Hnt as [<-|Hnt]; [reflexivity|]). contradiction.
Qed.

Lemma decode_payload_members (p : WebhookPayload) (txt : bytes) :
  enumerated p -> valid_text p ->
  parseStrictRFC3339 txt = Some (WebhookPayload.Timestamp p) ->
  decode_members WebhookPayload_zero None
                 (map string_member (payload_members p txt))
  = inr (p, None).
Proof.
  intros He Hv Hp. destruct (enumerated_valid p He) as (Vty & Vst & Vnt).
  unfold valid_text, text_fields in Hv. cbn [forallb] in Hv.
  rewrite !andb_true_iff in Hv.
  destruct Hv as (Vid & Vad & Vam & Vudf & Vtx & _).
  destruct p as [id ty st ad nt am udf tx ts].
  cbn [WebhookPayload.ID WebhookPayload.Type_ WebhookPayload.Status
       WebhookPayload.Address WebhookPayload.NetworkType
       WebhookPayload.Amount WebhookPayload.UDF WebhookPayload.TxHash
       WebhookPayload.Timestamp] in *.
  unfold payload_members.
  cbn [WebhookPayload.ID WebhookPayload.Type_ WebhookPayload.Status
       WebhookPayload.Address WebhookPayload.NetworkType
       WebhookPayload.Amount WebhookPayload.UDF WebhookPayload.TxHash
       WebhookPayload.Timestamp].
  destruct (is_empty udf) eqn:Eu; destruct (is_empty tx) eqn:Et;
    try (apply is_empty_true in Eu; subst udf);
    try (apply is_empty_true in Et; subst tx);
    cbn [app map decode_members]; unfold string_member; cbn [fst snd];
    repeat (erewrite decode_member_string;
            [|reflexivity|discriminate|reflexivity|eassumption];
            cbv beta iota);
    erewrite decode_member_timestamp by eassumption;
    reflexivity.
Qed.

(** C8, as the code has it. A payload whose type, status and network are
    enumerated constants, whose free-text fields are valid UTF-8 and whose
    timestamp is written by [time.Time] as an RFC 3339 text that it reads
    back as the same value is encoded by [json.Marshal] to bytes that
    [json.Unmarshal] decodes, into a zero payload, to the payload itself. *)
Theorem WebhookPayload_round_trip (p : WebhookPayload) :
  enumerated p -> valid_text p ->
  timestamp_round_trips (WebhookPayload.Timestamp p) ->
  round_trips p.
Proof.
  intros He Hv (txt & Hf & Ht & Hp).
  exists (x7b :: members_bytes (payload_members p txt) []).
  split; [now apply Marshal_WebhookPayload_bytes|].
  unfold Unmarshal_WebhookPayload.
  rewrite parse_object.
  - now rewrite decode_payload_members.
  - unfold payload_members. discriminate.
  - now apply payload_members_scannable.
Qed.

End RoundTrip.

(** The witness of C8: the payload of the end-to-end scenario. *)
Lemma WebhookPayload_round_trip_witness :
  enumerated sample_payload
  /\ valid_text sample_payload
  /\ timestamp_round_trips (WebhookPayload.Timestamp sample_payload)
  /\ round_trips sample_payload.
Proof.
  assert (He : enumerated sample_payload).
  { unfold enumerated. simpl. tauto. }
  assert (Hv : valid_text sample_payload).
  { vm_compute. reflexivity. }
  assert (Ht : timestamp_round_trips (WebhookPayload.Timestamp sample_payload)).
  { exists (bytes_of_string "2025-01-01T00:00:00Z").
    split; [|split]; vm_compute; reflexivity. }
  split; [exact He|]. split; [exact Hv|]. split; [exact Ht|].
  exact (WebhookPayload_round_trip sample_payload He Hv Ht).
Defined.

(** What encoding and decoding make of the payload with the invalid
    identifier. *)
Lemma invalid_id_decoded :
  match Marshal_WebhookPayload invalid_id_payload with
  | inr data =>
      Unmarshal_WebhookPayload data WebhookPayload_zero
      = inr replaced_id_payload
  | inl _ => False
  end.
Proof. vm_compute. reflexivity. Qed.

(** C8 does not hold of every payload with enumerated type, status and
    network: an identifier that is not valid UTF-8 is written with U+FFFD
    in place of its invalid bytes, so the decoded payload differs from
    the original. *)
Lemma WebhookPayload_invalid_id_changes :
  enumerated invalid_id_payload /\ ~ round_trips invalid_id_payload.
Proof.
  split.
  - unfold enumerated. simpl. tauto.
  - intros (data & Hm & Hu).
    pose proof invalid_id_decoded as H.
    rewrite Hm, Hu in H. discriminate H.
Qed.

(** ** Single-bit changes *)

Lemma flip_bit_neq (k : N) (b : byte) : k < 8 -> flip_bit k b <> b.
Proof.
  intros Hk E. unfold flip_bit in E.
  assert (Hm : 2 ^ k < 256).
  { change 256 with (2 ^ 8). apply N.pow_lt_mono_r; lia. }
  apply (f_equal Byte.to_N) in E.
  rewrite to_N_bxor, to_N_byte_of_N in E by assumption.
  apply (f_equal (N.lxor (Byte.to_N b))) in E.
  rewrite <- N.lxor_assoc, !N.lxor_nilpotent, N.lxor_0_l in E.
  assert (0 < 2 ^ k) by (apply N.neq_0_lt_0, N.pow_nonzero; lia). lia.
Qed.

Lemma flip_at_neq (i : nat) (k : N) (s : bytes) :
  (i < length s)%nat -> k < 8 -> flip_at i k s <> s.
Proof.
  revert i. induction s as [|b s IH]; intros [|i] Hi Hk; simpl in *;
    try lia; intros E; inversion E.
  - now apply (flip_bit_neq k b).
  - apply (IH i); [lia|assumption|assumption].
Qed.

Lemma flip_string_neq (i : nat) (k : N) (s : string) :
  (i < length (bytes_of_string s))%nat -> k < 8 -> flip_string i k s <> s.
Proof.
  intros Hi Hk E. apply (flip_at_neq i k (bytes_of_string s) Hi Hk).
  unfold flip_string, string_of_bytes in E.
  apply (f_equal list_byte_of_string) in E.
  now rewrite list_byte_of_string_of_list_byte in E.
Qed.

(** ** The webhook handler *)

Section WebhookProperties.

Context {L : StdLib}.

Abbreviation WebhookPayload := (WebhookPayload.t Time).

Lemma VerifySignature_iff (h : WebhookHandler) (body : bytes) (sig : string) :
  VerifySignature h body sig = true <-> sig = expected_signature h body.
Proof.
  unfold VerifySignature, expected_signature. rewrite hmac_Equal_iff.
  split.
  - intros E. symmetry. now apply bytes_of_string_inj.
  - intros ->. reflexivity.
Qed.

Lemma VerifySignature_false_iff (h : WebhookHandler) (body : bytes)
      (sig : string) :
  VerifySignature h body sig = false <-> sig <> expected_signature h body.
Proof.
  rewrite <- VerifySignature_iff.
  destruct (VerifySignature h body sig); intuition congruence.
Qed.

(** A signature that verifies stops verifying when any one of its bits is
    inverted. *)
Lemma VerifySignature_signature_bit (h : WebhookHandler) (body : bytes)
      (sig : string) (i : nat) (k : N) :
  VerifySignature h body sig = true ->
  (i < length (bytes_of_string sig))%nat -> k < 8 ->
  VerifySignature h body (flip_string i k sig) = false.
Proof.
  intros Hv Hi Hk. apply VerifySignature_false_iff.
  apply VerifySignature_iff in Hv. rewrite <- Hv.
  now apply flip_string_neq.
Qed.

(** The verdict on a changed body is the verdict on its own digest: the
    signature of the old body is rejected exactly when the two digests
    differ. *)
Lemma VerifySignature_body_change (h : WebhookHandler) (body body' : bytes)
      (sig : string) :
  VerifySignature h body sig = true ->
  (VerifySignature h body' sig = false <->
   expected_signature h body' <> expected_signature h body).
Proof.
  intros Hv. apply VerifySignature_iff in Hv. subst sig.
  rewrite VerifySignature_false_iff. intuition congruence.
Qed.

(** ** C2: verify, then parse *)

Lemma ProcessWebhook_cases (h : WebhookHandler) (body : bytes)
      (sig : string) :
  (VerifySignature h body sig = false /\
   ProcessWebhook h body sig = (None, Some ErrInvalidSignature))
  \/ (VerifySignature h body sig = true /\
      exists e, Unmarshal_WebhookPayload body WebhookPayload_zero = inl e /\
                ProcessWebhook h body sig =
                (None, Some (fmt_Errorf_w "failed to parse webhook payload: "
                                          (external e))))
  \/ (VerifySignature h body sig = true /\
      exists p, Unmarshal_WebhookPayload body WebhookPayload_zero = inr p /\
                ProcessWebhook h body sig = (Some p, None)).
Proof.
  unfold ProcessWebhook.
  destruct (VerifySignature h body sig); simpl.
  - right.
    destruct (Unmarshal_WebhookPayload body WebhookPayload_zero) as [e|p].
    + left. split; [reflexivity|]. now exists e.
    + right. split; [reflexivity|]. now exists p.
  - left. split; reflexivity.
Qed.



(** C2. When the signature does not verify, [ProcessWebhook] returns the
    signature error and no payload, whatever the body holds; a payload is
    returned only for a verified body that decodes, and a payload and an
    error never come together. *)
Theorem ProcessWebhook_verify_then_parse (h : WebhookHandler) (body : bytes)
        (sig : string) :
  (VerifySignature h body sig = false ->
   ProcessWebhook h body sig = (None, Some ErrInvalidSignature))
  /\ (forall p, fst (ProcessWebhook h body sig) = Some p ->
                VerifySignature h body sig = true
                /\ Unmarshal_WebhookPayload body WebhookPayload_zero = inr p)
  /\ (fst (ProcessWebhook h body sig) = None <->
      snd (ProcessWebhook h body sig) <> None).
Proof.
  destruct (ProcessWebhook_cases h body sig)
    as [[Hv ->]|[[Hv [e [He ->]]]|[Hv [p [Hp ->]]]]]; simpl;
    rewrite ?Hv; intuition (try discriminate; try congruence).
Qed.

(** ** C7 and C9: the HTTP-bound form *)


Lemma HandleRequest_present (h : WebhookHandler) (r : Request) :
  Header_Get (Header_ r) signature_header <> EmptyString ->
  HandleRequest h r =
  match failure (Body r) with
  | Some e => (None, Some (fmt_Errorf_w "failed to read request body: " e))
  | None =>
      ProcessWebhook h (content (Body r))
                     (Header_Get (Header_ r) signature_header)
  end.
Proof.
  intros E. unfold HandleRequest, ProcessWebhook. fold signature_header.
  destruct (is_empty (Header_Get (Header_ r) signature_header)) eqn:Ee.
  - apply String.eqb_eq in Ee. now elim E.
  - unfold io_ReadAll. destruct (failure (Body r)); reflexivity.
Qed.



(** C9. For a request whose signature header is present and not empty and
    whose body reads without error, [HandleRequest] returns what
    [ProcessWebhook] returns on the bytes of the body and the value of the
    header. *)
Theorem HandleRequest_refines_ProcessWebhook (h : WebhookHandler)
        (r : Request) (body : bytes) (sig : string) :
  Header_Get (Header_ r) signature_header = sig ->
  sig <> EmptyString ->
  io_ReadAll (Body r) = (body, None) ->
  HandleRequest h r = ProcessWebhook h body sig.
Proof.
  intros Hs Hne Hb. subst sig. rewrite HandleRequest_present by assumption.
  unfold io_ReadAll in Hb. inversion Hb as [[Hc Hf]]. now rewrite Hf.
Qed.

(** ** C10: a handler for any secret *)


End WebhookProperties.

(** The witness of C9: the request of the end-to-end scenario. *)
Lemma HandleRequest_refines_ProcessWebhook_witness :
  Header_Get (Header_ (signed_request sample_signature sample_body))
             signature_header = sample_signature
  /\ sample_signature <> EmptyString
  /\ io_ReadAll (Body (signed_request sample_signature sample_body))
     = (sample_body, None)
  /\ HandleRequest (NewWebhookHandler "s2")
                   (signed_request sample_signature sample_body)
     = ProcessWebhook (NewWebhookHandler "s2") sample_body sample_signature.
Proof.
  split; [reflexivity|]. split; [discriminate|]. split; [reflexivity|].
  apply (HandleRequest_refines_ProcessWebhook
           (NewWebhookHandler "s2")
           (signed_request sample_signature sample_body)
           sample_body sample_signature);
    [reflexivity | discriminate | reflexivity].
Defined.

(** The end-to-end scenario of the webhook: the signed body is decoded,
    and the same body under a signature with one bit inverted is
    rejected. *)
Example ProcessWebhook_scenario :
  ProcessWebhook (NewWebhookHandler "s2") sample_body sample_signature
  = (Some sample_payload, None)
  /\ ProcessWebhook (NewWebhookHandler "s2") sample_body
                    (flip_string 0 0 sample_signature)
     = (None, Some ErrInvalidSignature).
Proof. split; vm_compute; reflexivity. Qed.

(** ** The signature check, in full *)

Lemma Encode_lower_hex (src : bytes) :
  forallb lower_hex (Hex.Encode src) = true.
Proof.
  induction src as [|v src IH]; [reflexivity|].
  cbn [Hex.Encode forallb]. rewrite IH.
  destruct v; reflexivity.
Qed.

(** The first half of C1: [VerifySignature] accepts a signature exactly
    when it is the hexadecimal text, in lower-case digits, of the
    HMAC-SHA256 of the body under the handler's secret. *)
Theorem VerifySignature_accepts_hex_hmac (h : WebhookHandler) (body : bytes)
        (sig : string) :
  (VerifySignature h body sig = true <->
   sig = Hex.EncodeToString (HMAC.Sum (bytes_of_string (apiSecret h)) body))
  /\ forallb lower_hex
       (Hex.Encode (HMAC.Sum (bytes_of_string (apiSecret h)) body)) = true.
Proof. split; [apply VerifySignature_iff | apply Encode_lower_hex]. Qed.

(** The signature half of the last part of C1: inverting any one bit of a
    signature that verifies gives a signature that does not. *)
Theorem VerifySignature_rejects_inverted_bit (h : WebhookHandler)
        (body : bytes) (sig : string) (i : nat) (k : N) :
  VerifySignature h body sig = true ->
  (i < length (bytes_of_string sig))%nat -> k < 8 ->
  VerifySignature h body (flip_string i k sig) = false.
Proof. apply VerifySignature_signature_bit. Qed.

(** A witness: the last bit of the signature of the end-to-end scenario. *)
Lemma VerifySignature_rejects_inverted_bit_witness :
  VerifySignature (NewWebhookHandler "s2") sample_body sample_signature = true
  /\ VerifySignature (NewWebhookHandler "s2") sample_body
                     (flip_string 63 7 sample_signature) = false.
Proof.
  assert (Hv : VerifySignature (NewWebhookHandler "s2") sample_body
                               sample_signature = true).
  { vm_compute. reflexivity. }
  split; [exact Hv|].
  apply (VerifySignature_rejects_inverted_bit
           (NewWebhookHandler "s2") sample_body sample_signature 63 7 Hv).
  - vm_compute. reflexivity.
  - reflexivity.
Defined.

(** ** Acknowledgments *)

Lemma Encode_success :
  JSON.Encoder_Encode_map [("received", JSON.SBool true)] = success_body.
Proof. vm_compute. reflexivity. Qed.

Ltac evaluate c := let v := eval vm_compute in c in change c with v.

Lemma Encode_error (msg : string) :
  JSON.Encoder_Encode_map
    [("received", JSON.SBool false); ("error", JSON.SString msg)]
  = error_body msg.
Proof.
  unfold JSON.Encoder_Encode_map, JSON.encode_map, error_body.
  change (JSON.sort_keys [("received", JSON.SBool false);
                          ("error", JSON.SString msg)])
    with [("error", JSON.SString msg); ("received", JSON.SBool false)].
  cbn [JSON.encode_members JSON.encode_scalar].
  evaluate (JSON.appendString [] "error").
  evaluate (JSON.appendString [] "received").
  evaluate (bytes_of_string "false").
  evaluate error_prefix. evaluate error_suffix.
  cbn [app]. rewrite <- !app_assoc. reflexivity.
Qed.

Lemma parse_success_body :
  JSON.parse success_body
  = Some (JSON.JObject [(enc "received", JSON.JBool true)]).
Proof. vm_compute. reflexivity. Qed.

Lemma scan_members_head (f : nat) (depth : N) (k v T : bytes) :
  scannable k -> scannable v ->
  JSON.scan_members (S (S f)) depth
    (x22 :: k ++ x22 :: x3a :: x22 :: v ++ x22 :: T)
  = match JSON.skip_space T with
    | d :: r3 =>
        if JSON.isb d 0x2c then
          match JSON.scan_members (S f) depth r3 with
          | Some (ms', r4) => Some ((k, JSON.JString v) :: ms', r4)
          | None => None
          end
        else if JSON.isb d 0x7d then Some ([(k, JSON.JString v)], r3)
        else None
    | [] => None
    end.
Proof.
  intros Hk Hv. cbn [JSON.scan_members JSON.skip_space].
  change (JSON.isSpace x22) with false. cbv iota.
  change (JSON.isb x22 0x22) with true. cbv iota.
  rewrite Hk. cbn [JSON.skip_space].
  change (JSON.isSpace x3a) with false. cbv iota.
  change (JSON.isb x3a 0x3a) with true. cbv iota.
  rewrite scan_value_string by assumption. reflexivity.
Qed.

Lemma parse_error_body (msg : string) :
  JSON.parse (error_body msg)
  = Some (JSON.JObject [(enc "error", JSON.JString (enc msg));
                        (enc "received", JSON.JBool false)]).
Proof.
  unfold JSON.parse, error_body, JSON.appendString.
  evaluate error_prefix. evaluate error_suffix.
  cbn [app length]. rewrite <- app_assoc. cbn [app]. fold (enc msg).
  change (x22 :: x65 :: x72 :: x72 :: x6f :: x72 :: x22 :: ?T)
    with (x22 :: enc "error" ++ x22 :: T).
  cbn [JSON.scan_value JSON.skip_space].
  change (JSON.isSpace x7b) with false. cbv iota.
  change (JSON.isb x7b 0x7b) with true. cbv iota.
  change (JSON.maxNestingDepth <=? 0) with false. cbv iota.
  cbn [JSON.skip_space].   change (JSON.isSpace x22) with false. cbv iota.
  change (JSON.isb x22 0x7d) with false. cbv iota.
  rewrite scan_members_head by apply scannable_enc.
  generalize (enc msg); intro l. rewrite length_app, Nat.add_comm.
  vm_compute. reflexivity.
Qed.

Section ResponseProperties.

Context {L : StdLib}.

(** C6: [SendSuccessResponse] and [SendErrorResponse] both append exactly
    three calls to the response writer: the content type, [WriteHeader]
    with 200 (the only status code either of them writes, whatever the
    error), and one body.  The success body is the JSON object
    [{received: true}]; the error body is the JSON object with [received]
    false and [error] the JSON string literal of the error's message,
    which reads back as the message itself when the message is valid
    UTF-8 (the encoder writes U+FFFD for bytes that are not). *)
Theorem Send_responses_status_OK (w : ResponseWriter) (err : error) :
  SendSuccessResponse w = w ++ acknowledgment success_body
  /\ SendErrorResponse w err = w ++ acknowledgment (error_body (Error err))
  /\ (forall body : bytes, status_codes (acknowledgment body) = [200%Z])
  /\ JSON.parse success_body
     = Some (JSON.JObject [(enc "received", JSON.JBool true)])
  /\ JSON.parse (error_body (Error err))
     = Some (JSON.JObject [(enc "error", JSON.JString (enc (Error err)));
                           (enc "received", JSON.JBool false)])
  /\ (UTF8.ValidString (Error err) = true ->
      JSON.unquote (enc (Error err)) = Some (Error err)).
Proof.
  unfold SendSuccessResponse, SendErrorResponse, acknowledgment.
  rewrite Encode_success, Encode_error.
  split; [reflexivity|]. split; [reflexivity|]. split; [reflexivity|].
  split; [apply parse_success_body|].
  split; [apply parse_error_body|apply unquote_enc].
Qed.

End ResponseProperties.

(** ** The client *)

Section ClientProperties.

Context {L : StdLib} {D : DefaultTransport}.

Abbreviation APIError := (APIError.t float64).

(** *** C4: validation *)

Lemma deposit_Validate_None (p : CreateDepositParams.t) :
  CreateDepositParams_Validate p = None <-> all_nonempty (deposit_required p).
Proof.
  unfold CreateDepositParams_Validate, all_nonempty, deposit_required.
  rewrite !Forall_cons_iff, <- !is_empty_false.
  destruct (is_empty (CreateDepositParams.NetworkType p)),
           (is_empty (CreateDepositParams.ContractAddress p)),
           (is_empty (CreateDepositParams.Amount p)),
           (is_empty (CreateDepositParams.IPNUrl p));
    intuition (try discriminate; auto).
Qed.

Lemma withdrawal_Validate_None (p : CreateWithdrawalParams.t) :
  CreateWithdrawalParams_Validate p = None
  <-> all_nonempty (withdrawal_required p).
Proof.
  unfold CreateWithdrawalParams_Validate, all_nonempty, withdrawal_required.
  rewrite !Forall_cons_iff, <- !is_empty_false.
  destruct (is_empty (CreateWithdrawalParams.NetworkType p)),
           (is_empty (CreateWithdrawalParams.ContractAddress p)),
           (is_empty (CreateWithdrawalParams.Address p)),
           (is_empty (CreateWithdrawalParams.Amount p)),
           (is_empty (CreateWithdrawalParams.IPNUrl p));
    intuition (try discriminate; auto).
Qed.

Lemma deposit_Validate_Some (p : CreateDepositParams.t) (e : error) :
  CreateDepositParams_Validate p = Some e -> is_validation_error e.
Proof.
  unfold CreateDepositParams_Validate, is_validation_error, errors_New.
  destruct (is_empty (CreateDepositParams.NetworkType p));
    [intros [= <-]; now exists "networkType"|].
  destruct (is_empty (CreateDepositParams.ContractAddress p));
    [intros [= <-]; now exists "contractAddress"|].
  destruct (is_empty (CreateDepositParams.Amount p));
    [intros [= <-]; now exists "amount"|].
  destruct (is_empty (CreateDepositParams.IPNUrl p));
    [intros [= <-]; now exists "ipnUrl"|discriminate].
Qed.

Lemma withdrawal_Validate_Some (p : CreateWithdrawalParams.t) (e : error) :
  CreateWithdrawalParams_Validate p = Some e -> is_validation_error e.
Proof.
  unfold CreateWithdrawalParams_Validate, is_validation_error, errors_New.
  destruct (is_empty (CreateWithdrawalParams.NetworkType p));
    [intros [= <-]; now exists "networkType"|].
  destruct (is_empty (CreateWithdrawalParams.ContractAddress p));
    [intros [= <-]; now exists "contractAddress"|].
  destruct (is_empty (CreateWithdrawalParams.Address p));
    [intros [= <-]; now exists "address"|].
  destruct (is_empty (CreateWithdrawalParams.Amount p));
    [intros [= <-]; now exists "amount"|].
  destruct (is_empty (CreateWithdrawalParams.IPNUrl p));
    [intros [= <-]; now exists "ipnUrl"|discriminate].
Qed.

(** C4. [Validate] succeeds exactly when every required field is not
    empty (deposit: network type, contract address, amount, notification
    URL; withdrawal: those and the destination address); otherwise
    [CreateDeposit] and [CreateWithdrawal] return the validation error,
    no response, and hand no request to the transport. *)
Theorem Validate_required_fields (c : Client) (ctx : option Ctx)
        (p : CreateDepositParams.t) (w : CreateWithdrawalParams.t) :
  (CreateDepositParams_Validate p = None
   <-> all_nonempty (deposit_required p))
  /\ (CreateWithdrawalParams_Validate w = None
      <-> all_nonempty (withdrawal_required w))
  /\ (~ all_nonempty (deposit_required p) ->
      exists e, is_validation_error e
                /\ CreateDepositParams_Validate p = Some e
                /\ CreateDeposit c ctx p = (None, Some e, []))
  /\ (~ all_nonempty (withdrawal_required w) ->
      exists e, is_validation_error e
                /\ CreateWithdrawalParams_Validate w = Some e
                /\ CreateWithdrawal c ctx w = (None, Some e, [])).
Proof.
  split; [apply deposit_Validate_None|].
  split; [apply withdrawal_Validate_None|]. split.
  - intros Hn. rewrite <- deposit_Validate_None in Hn.
    destruct (CreateDepositParams_Validate p) as [e|] eqn:E;
      [|now elim Hn].
    exists e. split; [now apply (deposit_Validate_Some p)|].
    split; [reflexivity|]. unfold CreateDeposit. now rewrite E.
  - intros Hn. rewrite <- withdrawal_Validate_None in Hn.
    destruct (CreateWithdrawalParams_Validate w) as [e|] eqn:E;
      [|now elim Hn].
    exists e. split; [now apply (withdrawal_Validate_Some w)|].
    split; [reflexivity|]. unfold CreateWithdrawal. now rewrite E.
Qed.

(** *** C5: construction of the client *)

Lemma effective_base_eq (config : Config) :
  (if negb (is_empty (BaseURL config)) then BaseURL config
   else DefaultBaseURL) = effective_base config.
Proof. unfold effective_base. now destruct (is_empty (BaseURL config)). Qed.

Lemma NewClient_cases (config : Config) :
  (APIKey config = EmptyString /\
   NewClient config = (None, Some (errorString "API key is required")))
  \/ (APIKey config <> EmptyString /\ APISecret config = EmptyString /\
      NewClient config = (None, Some (errorString "API secret is required")))
  \/ (APIKey config <> EmptyString /\ APISecret config <> EmptyString /\
      exists e, url_Parse (effective_base config) = inl e /\
                NewClient config
                = (None, Some (fmt_Errorf_w "invalid base URL: " e)))
  \/ (APIKey config <> EmptyString /\ APISecret config <> EmptyString /\
      exists u, url_Parse (effective_base config) = inr u /\
                NewClient config
                = (Some (mkClient (chosen_client config) u (APIKey config)
                                  (APISecret config)), None)).
Proof.
  unfold NewClient. rewrite effective_base_eq.
  destruct (is_empty (APIKey config)) eqn:Ek.
  { left. apply is_empty_true in Ek. auto. }
  apply is_empty_false in Ek. right.
  destruct (is_empty (APISecret config)) eqn:Es.
  { left. apply is_empty_true in Es. auto. }
  apply is_empty_false in Es. right.
  destruct (url_Parse (effective_base config)) as [e|u].
  - left. repeat split; auto. now exists e.
  - right. repeat split; auto. now exists u.
Qed.

(** C5, as the code has it. [NewClient] fails exactly when the API key is
    empty, the API secret is empty, or [url.Parse] rejects the base URL,
    the default one when none is configured; on success the client holds
    the parsed URL and the credentials, the configured HTTP client if
    there is one, and otherwise a client whose timeout is the configured
    one when positive and 30 seconds when not. *)
Theorem NewClient_configuration (config : Config) :
  (snd (NewClient config) <> None <->
   APIKey config = EmptyString \/ APISecret config = EmptyString
   \/ exists e, url_Parse (effective_base config) = inl e)
  /\ (fst (NewClient config) = None <-> snd (NewClient config) <> None)
  /\ (BaseURL config = EmptyString -> effective_base config = DefaultBaseURL)
  /\ (BaseURL config <> EmptyString -> effective_base config = BaseURL config)
  /\ DefaultTimeout = (30 * 1000000000)%Z
  /\ (forall c, fst (NewClient config) = Some c ->
      url_Parse (effective_base config) = inr (c_baseURL c)
      /\ c_apiKey c = APIKey config /\ c_apiSecret c = APISecret config
      /\ (forall hc, HTTPClient config = Some hc -> c_client c = hc)
      /\ (HTTPClient config = None -> (Timeout config <= 0)%Z ->
          c_client c = mk_http_Client DefaultTimeout (default_Do DefaultTimeout))
      /\ (HTTPClient config = None -> (0 < Timeout config)%Z ->
          c_client c = mk_http_Client (Timeout config)
                                      (default_Do (Timeout config)))).
Proof.
  split; [|split; [|split; [|split; [|split]]]].
  - destruct (NewClient_cases config)
      as [[Hk ->]|[[Hk [Hs ->]]|[[Hk [Hs [e [He ->]]]]|[Hk [Hs [u [Hu ->]]]]]]];
      simpl; split; try discriminate; eauto;
      try (intros H; now elim H);
      try (intros [H|[H|[e' H]]]; congruence).
  - destruct (NewClient_cases config)
      as [[Hk ->]|[[Hk [Hs ->]]|[[Hk [Hs [e [He ->]]]]|[Hk [Hs [u [Hu ->]]]]]]];
      simpl; split; try discriminate; auto;
      try (intros H; now elim H).
  - intros E. unfold effective_base. now rewrite E.
  - intros E. unfold effective_base. apply is_empty_false in E.
    now rewrite E.
  - reflexivity.
  - intros c.
    destruct (NewClient_cases config)
      as [[Hk ->]|[[Hk [Hs ->]]|[[Hk [Hs [e [He ->]]]]|[Hk [Hs [u [Hu ->]]]]]]];
      simpl; try discriminate.
    intros [= <-]. simpl. unfold chosen_client.
    split; [assumption|]. split; [reflexivity|]. split; [reflexivity|].
    split; [|split].
    + intros hc ->. reflexivity.
    + intros -> Ht. apply Z.ltb_ge in Ht. now rewrite Ht.
    + intros -> Ht. apply Z.ltb_lt in Ht. now rewrite Ht.
Qed.

(** *** C3: error responses *)

Lemma decode_APIError_member_Code (a : APIError) (saved : option ext_error)
      (kv : bytes * JSON.Value) :
  APIError.Code (fst (decode_APIError_member a saved kv)) = APIError.Code a.
Proof.
  unfold decode_APIError_member. destruct kv as [k v].
  destruct (JSON.unquote k) as [key|]; [|reflexivity].
  destruct (JSON.lookup_field APIError.fields key) as [[| |]|];
    try reflexivity.
  - destruct (decode_string v) as [[s|] e]; reflexivity.
  - destruct (decode_string v) as [[s|] e]; reflexivity.
  - destruct (JSON.valueInterface float64 ParseFloat v); reflexivity.
Qed.

Lemma decode_APIError_members_Code (ms : list (bytes * JSON.Value))
      (st : APIError * option ext_error) :
  APIError.Code
    (fst (fold_left (fun st kv => decode_APIError_member (fst st) (snd st) kv)
                    ms st))
  = APIError.Code (fst st).
Proof.
  revert st. induction ms as [|kv ms IH]; intros st; simpl; [reflexivity|].
  rewrite IH. apply decode_APIError_member_Code.
Qed.

(** Decoding never stores anything in the field [Code]. *)
Lemma Decode_APIError_Code (body : bytes) (a : APIError) :
  Decode_APIError body = inr a -> APIError.Code a = 0%Z.
Proof.
  unfold Decode_APIError.
  destruct (JSON.parse_first body) as [[| | | | |ms]|]; try discriminate.
  - intros [= <-]. reflexivity.
  - pose proof (decode_APIError_members_Code ms (APIError_zero, None)) as H.
    destruct (fold_left _ ms _) as [a' [e|]]; [discriminate|].
    intros [= <-]. exact H.
Qed.

Lemma sendRequestWithQuery_error_status {T : Type} (c : Client)
      (ctx : option Ctx) (method path : string)
      (query : option (list (string * string))) (body : option body_value)
      (v : option (bytes -> ext_error + T)) (req : ClientRequest)
      (resp : Response) (err : option error) (x : option T) :
  sendRequestWithQuery c ctx method path query body v = (err, x, [req]) ->
  http_Do (c_client c) req = inr resp ->
  (400 <= StatusCode resp)%Z ->
  err = Some (error_of_response resp) /\ x = None.
Proof.
  unfold sendRequestWithQuery, error_of_response.
  destruct (url_Parse path) as [e|u]; [discriminate|].
  destruct (match body with
            | Some b => match Encode_body b with
                        | inl e => inl e
                        | inr data => inr (Some data)
                        end
            | None => inr None
            end) as [e|buf]; [discriminate|].
  destruct (http_NewRequestWithContext _ _ _ _) as [e|req0];
    [discriminate|].
  set (req1 := set_Header _ _ _).
  destruct (http_Do (c_client c) req1) as [e|resp1] eqn:Ed.
  - intros [= <- <- <-] Hd. congruence.
  - destruct (400 <=? StatusCode resp1)%Z eqn:Es.
    + destruct (Decode_APIError (Response_Body resp1)) eqn:Ea;
        intros [= <- <- <-] Hd Hs;
        rewrite Ed in Hd; inversion Hd; subst; rewrite Ea; auto.
    + destruct v as [decode|];
        [destruct (decode (Response_Body resp1))|];
        intros [= <- <- <-] Hd Hs; rewrite Ed in Hd; inversion Hd; subst;
        apply Z.leb_gt in Es; lia.
Qed.

End ClientProperties.

(** What [url.Parse] makes of a base URL without a scheme: a relative
    reference that is all path. *)
Lemma schemeless_base_parses :
  url_Parse (effective_base schemeless_config)
  = inr (URL.mkURL unit EmptyString EmptyString None EmptyString
                   "api.sagapay.net" EmptyString false false EmptyString
                   EmptyString EmptyString).
Proof. vm_compute. reflexivity. Qed.

(** The counterexample to C5 as stated: with both credentials given, a
    base URL without a scheme is accepted although it does not parse as
    an absolute URL. *)
Lemma NewClient_accepts_relative_base :
  APIKey schemeless_config <> EmptyString
  /\ APISecret schemeless_config <> EmptyString
  /\ ~ parses_as_absolute (effective_base schemeless_config)
  /\ snd (NewClient schemeless_config) = None
  /\ ~ (snd (NewClient schemeless_config) <> None <->
        APIKey schemeless_config = EmptyString
        \/ APISecret schemeless_config = EmptyString
        \/ ~ parses_as_absolute (effective_base schemeless_config)).
Proof.
  assert (Hrel : ~ parses_as_absolute (effective_base schemeless_config)).
  { intros [u [Hu Ha]]. rewrite schemeless_base_parses in Hu.
    injection Hu as <-. discriminate Ha. }
  assert (Hok : snd (NewClient schemeless_config) = None)
    by (vm_compute; reflexivity).
  split; [discriminate|]. split; [discriminate|]. split; [exact Hrel|].
  split; [exact Hok|].
  intros [_ H]. apply H; [|exact Hok]. right. right. exact Hrel.
Qed.

(** C3 at the failing input: the gateway answers 401 with a structured
    error body; the error returned carries the two texts of the body, and
    its field [Code] is 0, not the status 401 of the response. *)
Theorem CreateDeposit_unauthorized_Code :
  StatusCode unauthorized_response = 401%Z
  /\ fst (CreateDeposit unauthorized_client (Some tt) sample_deposit)
     = (None,
        Some (APIErrorPtr (APIError.mk "unauthorized" "bad key"
                                       JSON.GNil 0%Z)))
  /\ length (snd (CreateDeposit unauthorized_client (Some tt)
                                sample_deposit)) = 1%nat.
Proof. repeat split; vm_compute; reflexivity. Qed.

(** ** More about the webhook *)

(** *** The length and the alphabet of a signature *)

Lemma be_bytes_length (n : nat) (x : N) :
  length (SHA256.be_bytes n x) = n.
Proof. induction n as [|n IH]; simpl; [reflexivity|now rewrite IH]. Qed.

Lemma block1_length (h : list N) (p : bytes) :
  length (SHA256.block1 h p) = 8%nat.
Proof.
  unfold SHA256.block1.
  now destruct (fold_left SHA256.round _ _).
Qed.

Lemma blockGeneric_length (n : nat) (h : list N) (p : bytes) :
  length h = 8%nat -> length (SHA256.blockGeneric n h p) = 8%nat.
Proof.
  revert h p. induction n as [|n IH]; intros h p Hh; [exact Hh|].
  simpl. apply IH, block1_length.
Qed.

Lemma flat_map_be_bytes_length (l : list N) :
  length (flat_map (SHA256.be_bytes 4) l) = (4 * length l)%nat.
Proof.
  induction l as [|x l IH]; [reflexivity|].
  cbn [flat_map]. rewrite length_app, be_bytes_length, IH. simpl. lia.
Qed.

Lemma Sum256_length (msg : bytes) :
  length (SHA256.Sum256 msg) = SHA256.Size.
Proof.
  unfold SHA256.Sum256. rewrite flat_map_be_bytes_length.
  now rewrite blockGeneric_length.
Qed.

Lemma HMAC_Sum_length (key msg : bytes) :
  length (HMAC.Sum key msg) = SHA256.Size.
Proof. apply Sum256_length. Qed.

Lemma Encode_length (src : bytes) :
  length (Hex.Encode src) = (2 * length src)%nat.
Proof.
  induction src as [|v src IH]; [reflexivity|].
  cbn [Hex.Encode length]. rewrite IH. lia.
Qed.

Lemma bytes_of_string_of_bytes (b : bytes) :
  bytes_of_string (string_of_bytes b) = b.
Proof.
  unfold bytes_of_string, string_of_bytes.
  apply list_byte_of_string_of_list_byte.
Qed.

Section SignatureShape.

Context {L : StdLib}.

Lemma expected_signature_bytes (h : WebhookHandler) (body : bytes) :
  bytes_of_string (expected_signature h body)
  = Hex.Encode (HMAC.Sum (bytes_of_string (apiSecret h)) body).
Proof.
  unfold expected_signature, Hex.EncodeToString.
  apply bytes_of_string_of_bytes.
Qed.

Lemma expected_signature_length (h : WebhookHandler) (body : bytes) :
  length (bytes_of_string (expected_signature h body)) = 64%nat.
Proof.
  rewrite expected_signature_bytes, Encode_length, HMAC_Sum_length.
  reflexivity.
Qed.

(** X3. [VerifySignature] rejects every signature that is not 64 characters
    long and every signature with a character other than a digit or a
    letter from [a] to [f]: an empty signature, a truncated one and one in
    upper-case digits all fail, whatever the body and the secret. *)
Theorem VerifySignature_rejects_malformed (h : WebhookHandler)
        (body : bytes) (sig : string) :
  length (bytes_of_string sig) <> 64%nat
  \/ forallb lower_hex (bytes_of_string sig) = false ->
  VerifySignature h body sig = false.
Proof.
  intros H. apply VerifySignature_false_iff. intros ->.
  destruct H as [H|H].
  - apply H, expected_signature_length.
  - rewrite expected_signature_bytes, Encode_lower_hex in H. discriminate H.
Qed.

End SignatureShape.

Lemma VerifySignature_rejects_malformed_witness :
  forallb lower_hex (bytes_of_string upper_case_signature) = false
  /\ VerifySignature (NewWebhookHandler "s2") sample_body
                     upper_case_signature = false.
Proof.
  assert (H : forallb lower_hex (bytes_of_string upper_case_signature)
              = false) by (vm_compute; reflexivity).
  split; [exact H|].
  exact (VerifySignature_rejects_malformed
           (NewWebhookHandler "s2") sample_body upper_case_signature
           (or_intror H)).
Defined.

(** *** From the encoded payload to the handler's answer *)

Section SignedPayload.

Context {L : StdLib}.

Abbreviation WebhookPayload := (WebhookPayload.t Time).

Lemma decode_payload_members_valid (p : WebhookPayload) (txt : bytes) :
  forallb UTF8.ValidString (string_fields p) = true ->
  parseStrictRFC3339 txt = Some (WebhookPayload.Timestamp p) ->
  decode_members WebhookPayload_zero None
                 (map string_member (payload_members p txt))
  = inr (p, None).
Proof.
  intros Hv Hp.
  unfold string_fields in Hv. cbn [forallb] in Hv.
  rewrite !andb_true_iff in Hv.
  destruct Hv as (Vid & Vty & Vst & Vad & Vnt & Vam & Vudf & Vtx & _).
  destruct p as [id ty st ad nt am udf tx ts].
  cbn [WebhookPayload.ID WebhookPayload.Type_ WebhookPayload.Status
       WebhookPayload.Address WebhookPayload.NetworkType
       WebhookPayload.Amount WebhookPayload.UDF WebhookPayload.TxHash
       WebhookPayload.Timestamp] in *.
  unfold payload_members.
  cbn [WebhookPayload.ID WebhookPayload.Type_ WebhookPayload.Status
       WebhookPayload.Address WebhookPayload.NetworkType
       WebhookPayload.Amount WebhookPayload.UDF WebhookPayload.TxHash
       WebhookPayload.Timestamp].
  destruct (is_empty udf) eqn:Eu; destruct (is_empty tx) eqn:Et;
    try (apply is_empty_true in Eu; subst udf);
    try (apply is_empty_true in Et; subst tx);
    cbn [app map decode_members]; unfold string_member; cbn [fst snd];
    repeat (erewrite decode_member_string;
            [|reflexivity|discriminate|reflexivity|eassumption];
            cbv beta iota);
    erewrite decode_member_timestamp by eassumption;
    reflexivity.
Qed.

Lemma Unmarshal_Marshal (p : WebhookPayload) (data : bytes) :
  forallb UTF8.ValidString (string_fields p) = true ->
  timestamp_round_trips (WebhookPayload.Timestamp p) ->
  Marshal_WebhookPayload p = inr data ->
  Unmarshal_WebhookPayload data WebhookPayload_zero = inr p.
Proof.
  intros Hv (txt & Hf & Ht & Hp) Hm.
  rewrite (Marshal_WebhookPayload_bytes p txt Hf Ht) in Hm.
  assert (E : data = x7b :: members_bytes (payload_members p txt) [])
    by congruence.
  rewrite E. unfold Unmarshal_WebhookPayload.
  rewrite parse_object.
  - now rewrite decode_payload_members_valid.
  - unfold payload_members. discriminate.
  - now apply payload_members_scannable.
Qed.

Lemma expected_signature_nonempty (h : WebhookHandler) (body : bytes) :
  expected_signature h body <> EmptyString.
Proof.
  intros E. pose proof (expected_signature_length h body) as Hl.
  rewrite E in Hl. discriminate Hl.
Qed.

(** X4. A payload encoded by [json.Marshal] and signed with the secret of the
    handler is accepted and decoded to the payload itself, by
    [ProcessWebhook] and by [HandleRequest] on a request that carries the
    signature in its header. The type, the status and the network are not
    checked against the enumerated constants: any valid UTF-8 text is
    taken. *)
Theorem signed_payload_is_accepted (h : WebhookHandler) (p : WebhookPayload)
        (data : bytes) :
  forallb UTF8.ValidString (string_fields p) = true ->
  timestamp_round_trips (WebhookPayload.Timestamp p) ->
  Marshal_WebhookPayload p = inr data ->
  ProcessWebhook h data (expected_signature h data) = (Some p, None)
  /\ HandleRequest h (signed_request (expected_signature h data) data)
     = (Some p, None).
Proof.
  intros Hv Ht Hm.
  assert (Hp : ProcessWebhook h data (expected_signature h data)
               = (Some p, None)).
  { unfold ProcessWebhook.
    rewrite (proj2 (VerifySignature_iff h data _) eq_refl). cbn [negb].
    now rewrite (Unmarshal_Marshal p data Hv Ht Hm). }
  split; [exact Hp|].
  rewrite HandleRequest_present.
  - exact Hp.
  - apply expected_signature_nonempty.
Qed.

End SignedPayload.

Lemma signed_payload_is_accepted_witness :
  ~ In (WebhookPayload.Status unlisted_status_payload) TransactionStatuses
  /\ exists data,
       Marshal_WebhookPayload unlisted_status_payload = inr data
       /\ ProcessWebhook (NewWebhookHandler "s2") data
            (expected_signature (NewWebhookHandler "s2") data)
          = (Some unlisted_status_payload, None).
Proof.
  split.
  - simpl. intros [H|[H|[H|[H|[H|[]]]]]]; discriminate H.
  - assert (Hv : forallb UTF8.ValidString
                         (string_fields unlisted_status_payload) = true)
      by (vm_compute; reflexivity).
    assert (Ht : timestamp_round_trips
                   (WebhookPayload.Timestamp unlisted_status_payload)).
    { exists (bytes_of_string "2025-01-01T00:00:00Z").
      split; [|split]; vm_compute; reflexivity. }
    eexists. split; [vm_compute; reflexivity|].
    refine (proj1 (signed_payload_is_accepted
                     (NewWebhookHandler "s2") unlisted_status_payload
                     _ Hv Ht _)).
    vm_compute. reflexivity.
Defined.

(** *** Bodies without members *)

Section EdgeBodies.

Context {L : StdLib}.

Abbreviation WebhookPayload := (WebhookPayload.t Time).

(** X5. A correctly signed body is not thereby a notification: the empty
    body fails as a parse error, while [null] and the empty object are
    accepted and give the zero payload, with every field empty, without
    an error. No member is required. *)
Theorem ProcessWebhook_bodies_without_members (h : WebhookHandler) :
  ProcessWebhook h [] (expected_signature h [])
  = (None, Some (fmt_Errorf_w "failed to parse webhook payload: "
                              (external json_SyntaxError)))
  /\ ProcessWebhook h (bytes_of_string "null")
                    (expected_signature h (bytes_of_string "null"))
     = (Some WebhookPayload_zero, None)
  /\ ProcessWebhook h (bytes_of_string "{}")
                    (expected_signature h (bytes_of_string "{}"))
     = (Some WebhookPayload_zero, None).
Proof.
  unfold ProcessWebhook.
  rewrite !(proj2 (VerifySignature_iff h _ _) eq_refl). cbn [negb].
  repeat split.
Qed.

Lemma decode_member_unknown (p : WebhookPayload)
      (saved : option ext_error) (kv : bytes * JSON.Value) :
  known_member kv = false -> decode_member p saved kv = inr (p, saved).
Proof.
  destruct kv as [k v]. unfold known_member, decode_member. cbn [fst].
  destruct (JSON.unquote k) as [key|]; [|reflexivity].
  destruct (JSON.lookup_field WebhookPayload.fields key);
    [discriminate|reflexivity].
Qed.

Lemma decode_members_known (p : WebhookPayload)
      (saved : option ext_error) (ms : list (bytes * JSON.Value)) :
  decode_members p saved ms
  = decode_members p saved (filter known_member ms).
Proof.
  revert p saved. induction ms as [|kv ms IH]; intros p saved;
    [reflexivity|].
  cbn [filter]. destruct (known_member kv) eqn:Ek.
  - cbn [decode_members].
    destruct (decode_member p saved kv) as [e|[p' saved']];
      [reflexivity|apply IH].
  - cbn [decode_members]. rewrite decode_member_unknown by assumption.
    apply IH.
Qed.

(** X6. Members of the body whose names match no field of [WebhookPayload]
    are ignored, whatever their values: the body decodes as the body
    without them does. *)
Theorem unknown_members_are_ignored (data data' : bytes)
        (ms : list (bytes * JSON.Value)) (p : WebhookPayload) :
  JSON.parse data = Some (JSON.JObject ms) ->
  JSON.parse data' = Some (JSON.JObject (filter known_member ms)) ->
  Unmarshal_WebhookPayload data p = Unmarshal_WebhookPayload data' p.
Proof.
  intros H H'. unfold Unmarshal_WebhookPayload. rewrite H, H'.
  now rewrite decode_members_known.
Qed.

End EdgeBodies.

Lemma unknown_members_are_ignored_witness :
  Unmarshal_WebhookPayload body_with_extra sample_payload
  = Unmarshal_WebhookPayload body_without_extra sample_payload.
Proof.
  refine (unknown_members_are_ignored
            (L := sample) body_with_extra body_without_extra _
            sample_payload _ _).
  - vm_compute. reflexivity.
  - vm_compute. reflexivity.
Defined.

(** *** Members of the wrong kind *)

Section Mistyped.

Context {L : StdLib}.

Abbreviation WebhookPayload := (WebhookPayload.t Time).

Lemma decode_member_saved (p : WebhookPayload) (e : ext_error)
      (kv : bytes * JSON.Value) :
  (exists e', decode_member p (Some e) kv = inl e')
  \/ (exists p', decode_member p (Some e) kv = inr (p', Some e)).
Proof.
  destruct kv as [k v]. unfold decode_member.
  destruct (JSON.unquote k) as [key|]; [|right; eexists; reflexivity].
  destruct (JSON.lookup_field WebhookPayload.fields key) as [f|];
    [|right; eexists; reflexivity].
  assert (Hs : exists p',
             (let '(s, e0) := decode_string v in
              @inr ext_error _
                   (match s with
                    | Some s' => set_string p f s'
                    | None => p
                    end, first_error (Some e) e0))
             = inr (p', Some e)).
  { destruct (decode_string v) as [[s|] e0]; eexists; reflexivity. }
  destruct f; try (right; exact Hs).
  destruct (literal_bytes v) as [data|]; [|left; eexists; reflexivity].
  destruct (Time_UnmarshalJSON _ data);
    [left|right]; eexists; reflexivity.
Qed.

Lemma decode_members_saved (ms : list (bytes * JSON.Value))
      (p : WebhookPayload) (e : ext_error) :
  (exists e', decode_members p (Some e) ms = inl e')
  \/ (exists p', decode_members p (Some e) ms = inr (p', Some e)).
Proof.
  revert p. induction ms as [|kv ms IH]; intros p;
    [right; eexists; reflexivity|].
  cbn [decode_members].
  destruct (decode_member_saved p e kv) as [[e' ->]|[p' ->]];
    [left; eexists; reflexivity|apply IH].
Qed.

Lemma decode_member_mistyped (p : WebhookPayload)
      (saved : option ext_error) (k : bytes) (v : JSON.Value) :
  names_string_field k = true -> mistyped v = true ->
  exists p' e, decode_member p saved (k, v) = inr (p', Some e).
Proof.
  unfold names_string_field, decode_member.
  destruct (JSON.unquote k) as [key|]; [|discriminate].
  destruct (JSON.lookup_field WebhookPayload.fields key) as [f|];
    [|discriminate].
  intros Hf Hm.
  destruct f; try discriminate Hf;
    destruct v; try discriminate Hm; destruct saved;
    do 2 eexists; reflexivity.
Qed.

Lemma decode_members_mistyped (ms : list (bytes * JSON.Value))
      (p : WebhookPayload) (saved : option ext_error) (k : bytes)
      (v : JSON.Value) :
  In (k, v) ms -> names_string_field k = true -> mistyped v = true ->
  (exists e, decode_members p saved ms = inl e)
  \/ (exists p' e, decode_members p saved ms = inr (p', Some e)).
Proof.
  intros Hin Hk Hm. revert p saved.
  induction ms as [|kv ms IH]; intros p saved; [destruct Hin|].
  cbn [decode_members]. destruct Hin as [->|Hin].
  - destruct (decode_member_mistyped p saved k v Hk Hm) as (p' & e & ->).
    destruct (decode_members_saved ms p' e) as [[e' ->]|[p'' ->]];
      [left|right]; eauto.
  - destruct (decode_member p saved kv) as [e|[p' saved']];
      [left; eauto|apply (IH Hin)].
Qed.

(** X7. A notification with a member of the wrong kind is rejected as a
    whole: when a member that names a field of kind string (any field but
    the timestamp) holds a number, a boolean, an array or an object, a
    correctly signed body yields a parse error and no payload, whatever
    the other members are. An amount sent as a number is such a case. *)
Theorem mistyped_member_is_rejected (h : WebhookHandler) (data : bytes)
        (ms : list (bytes * JSON.Value)) (k : bytes) (v : JSON.Value) :
  JSON.parse data = Some (JSON.JObject ms) ->
  In (k, v) ms -> names_string_field k = true -> mistyped v = true ->
  exists e,
    ProcessWebhook h data (expected_signature h data)
    = (None, Some (fmt_Errorf_w "failed to parse webhook payload: "
                               (external e))).
Proof.
  intros Hp Hin Hk Hm. unfold ProcessWebhook.
  rewrite (proj2 (VerifySignature_iff h data _) eq_refl). cbn [negb].
  unfold Unmarshal_WebhookPayload. rewrite Hp.
  destruct (decode_members_mistyped ms WebhookPayload_zero None k v
                                    Hin Hk Hm)
    as [[e ->]|(p' & e & ->)]; now exists e.
Qed.

End Mistyped.

Lemma mistyped_member_is_rejected_witness :
  exists e,
    ProcessWebhook (NewWebhookHandler "s2") body_with_number
                   (expected_signature (NewWebhookHandler "s2")
                                       body_with_number)
    = (None,
       Some (fmt_Errorf_w (L := sample) "failed to parse webhook payload: "
               (external e))).
Proof.
  apply (mistyped_member_is_rejected
           (L := sample) (NewWebhookHandler "s2") body_with_number
           [(enc "id", JSON.JString (enc "t1"));
            (enc "amount", JSON.JNumber (bytes_of_string "10.5"))]
           (enc "amount") (JSON.JNumber (bytes_of_string "10.5"))).
  - vm_compute. reflexivity.
  - right. left. reflexivity.
  - vm_compute. reflexivity.
  - reflexivity.
Defined.

(** ** The example server *)

Section ExampleServerProperties.

Context {L : StdLib}.

Variable http_Error : ResponseWriter -> string -> Z -> ResponseWriter.

Lemma HandleRequest_exclusive (h : WebhookHandler) (r : Request) :
  (exists p, HandleRequest h r = (Some p, None))
  \/ (exists e, HandleRequest h r = (None, Some e)).
Proof.
  unfold HandleRequest.
  destruct (is_empty _); [right; eexists; reflexivity|].
  destruct (io_ReadAll (Body r)) as [body [e|]];
    [right; eexists; reflexivity|].
  destruct (negb _); [right; eexists; reflexivity|].
  destruct (Unmarshal_WebhookPayload _ _);
    [right|left]; eexists; reflexivity.
Qed.

(** X8. The function that the example server registers for [/webhook]
    answers a request that is not a POST with [http.Error] and the status
    405, without looking at it further. A POST is always acknowledged
    with the status 200: with the success body exactly when
    [HandleRequest] returns a payload, and with the error body of the
    error otherwise. It never reads a field through a nil payload. *)
Theorem webhook_endpoint_acknowledges (h : WebhookHandler)
        (w : ResponseWriter) (r : ServerRequest) :
  (sr_Method r <> "POST" ->
   webhook_endpoint http_Error h w r
   = Some (http_Error w "Method not allowed" 405%Z, []))
  /\ (sr_Method r = "POST" ->
      exists log,
        webhook_endpoint http_Error h w r
        = Some (w ++ acknowledgment
                       match snd (HandleRequest h (sr_Request r)) with
                       | Some e => error_body (Error e)
                       | None => success_body
                       end,
                log)
        /\ (snd (HandleRequest h (sr_Request r)) = None <->
            exists p, fst (HandleRequest h (sr_Request r)) = Some p)).
Proof.
  unfold webhook_endpoint. split.
  - intros Hm. apply String.eqb_neq in Hm.
    unfold http_MethodPost. now rewrite Hm.
  - intros Hm. unfold http_MethodPost. rewrite Hm, String.eqb_refl.
    cbn [negb].
    destruct (HandleRequest_exclusive h (sr_Request r))
      as [[p ->]|[e ->]]; cbn [fst snd]; eexists; split.
    + unfold SendSuccessResponse, acknowledgment.
      rewrite Encode_success. reflexivity.
    + split; [intros _; now exists p|reflexivity].
    + unfold SendErrorResponse, acknowledgment.
      rewrite Encode_error. reflexivity.
    + split; [discriminate|intros [p Hp]; discriminate Hp].
Qed.

End ExampleServerProperties.

(** ** The client's requests *)

Section TransportProperties.

Context {L : StdLib}.

Lemma Header_lookup_store_same (h : Header) (k : string) (v : list string) :
  Header_lookup (Header_store h k v) k = v.
Proof.
  induction h as [|[k' v'] h IH]; simpl.
  - now rewrite String.eqb_refl.
  - destruct (String.eqb k' k) eqn:E; simpl.
    + now rewrite String.eqb_refl.
    + now rewrite E.
Qed.

Lemma Header_lookup_store_other (h : Header) (k k' : string)
      (v : list string) :
  k <> k' -> Header_lookup (Header_store h k v) k' = Header_lookup h k'.
Proof.
  intros Hn. induction h as [|[k0 v0] h IH]; simpl.
  - destruct (String.eqb k k') eqn:E; [|reflexivity].
    apply String.eqb_eq in E. contradiction.
  - destruct (String.eqb k0 k) eqn:E; simpl.
    + apply String.eqb_eq in E. subst k0.
      destruct (String.eqb k k') eqn:E'; [|reflexivity].
      apply String.eqb_eq in E'. contradiction.
    + destruct (String.eqb k0 k'); [reflexivity|exact IH].
Qed.

Lemma set_Header_credentials (c : Client) (req : ClientRequest) :
  carries_credentials c
    (set_Header
       (set_Header
          (set_Header (set_Header req "Content-Type" "application/json")
                      "Accept" "application/json")
          "x-api-key" (c_apiKey c))
       "x-api-secret" (c_apiSecret c)).
Proof.
  unfold carries_credentials, set_Header, Header_Get, Header_Set.
  cbn [req_Header].
  change (Textproto.CanonicalMIMEHeaderKey "Content-Type")
    with "Content-Type".
  change (Textproto.CanonicalMIMEHeaderKey "Accept") with "Accept".
  change (Textproto.CanonicalMIMEHeaderKey "x-api-key") with "X-Api-Key".
  change (Textproto.CanonicalMIMEHeaderKey "x-api-secret")
    with "X-Api-Secret".
  repeat split;
    repeat first [ rewrite Header_lookup_store_same
                 | rewrite Header_lookup_store_other by discriminate ];
    reflexivity.
Qed.

(** [sendRequestWithQuery] for a path that parses and a method that is
    valid: without a context it fails, and so it does when the URL text
    does not parse; otherwise one request goes to [Do]. *)
Lemma sendRequestWithQuery_sent {T : Type} (c : Client)
      (ctx : option Ctx) (method path : string)
      (query : option (list (string * string))) (body : option body_value)
      (v : option (bytes -> ext_error + T)) (ref : URL.URL Userinfo) :
  url_Parse path = inr ref ->
  is_empty method = false -> validMethod method = true ->
  match ctx with
  | None =>
      sendRequestWithQuery c ctx method path query body v
      = (Some (external http_NilContext), None, [])
  | Some cx =>
      match url_Parse (request_url c ref query) with
      | inl e =>
          sendRequestWithQuery c ctx method path query body v
          = (Some e, None, [])
      | inr u =>
          exists req,
            sendRequestWithQuery c ctx method path query body v
            = (answered v (http_Do (c_client c) req), [req])
            /\ carries_credentials c req
            /\ req_ctx req = cx
            /\ req_Method req = method
            /\ req_URL req = set_Host u (removeEmptyPort (URL.Host u))
            /\ req_Body req = encoded_body body
      end
  end.
Proof.
  intros Hp Hm Hv. unfold sendRequestWithQuery. rewrite Hp.
  assert (Hb : match body with
               | Some b => match Encode_body b with
                           | inl e => inl e
                           | inr data => inr (Some data)
                           end
               | None => inr None
               end = inr (encoded_body body)).
  { destruct body as [[p|p]|]; reflexivity. }
  rewrite Hb. unfold http_NewRequestWithContext. rewrite Hm, Hv.
  cbn [negb]. destruct ctx as [cx|]; [|reflexivity].
  change (URL_String
            match query with
            | Some q =>
                set_RawQuery (ResolveReference (c_baseURL c) ref)
                             (Values_Encode q)
            | None => ResolveReference (c_baseURL c) ref
            end)
    with (request_url c ref query).
  destruct (url_Parse (request_url c ref query)) as [e|u]; [reflexivity|].
  exists (set_Header
            (set_Header
               (set_Header
                  (set_Header
                     (mkClientRequest
                        cx method (set_Host u (removeEmptyPort (URL.Host u)))
                        [] (encoded_body body))
                     "Content-Type" "application/json")
                  "Accept" "application/json")
               "x-api-key" (c_apiKey c))
            "x-api-secret" (c_apiSecret c)).
  split; [|split; [apply set_Header_credentials|]].
  - unfold answered, error_of_response.
    destruct (http_Do _ _) as [e|resp]; [reflexivity|].
    destruct (400 <=? StatusCode resp)%Z.
    + destruct (Decode_APIError _); reflexivity.
    + destruct v as [decode|]; [destruct (decode _)|]; reflexivity.
  - repeat split.
Qed.

Lemma finish_one_exchange {T : Type} (c : Client) (ctx : option Ctx)
      (method path : string) (query : option (list (string * string)))
      (body : option body_value) (decode : bytes -> ext_error + T)
      (ref : URL.URL Userinfo) :
  url_Parse path = inr ref ->
  is_empty method = false -> validMethod method = true ->
  one_exchange c ctx method (request_url c ref query) (encoded_body body)
    decode
    (finish (sendRequestWithQuery c ctx method path query body
                                  (Some decode))).
Proof.
  intros Hp Hm Hv.
  pose proof (sendRequestWithQuery_sent c ctx method path query body
                (Some decode) ref Hp Hm Hv) as H.
  destruct ctx as [cx|]; cbv iota in H;
    [|rewrite H; left; eexists; reflexivity].
  revert H.
  destruct (url_Parse (request_url c ref query)) as [e|u] eqn:Eu; intros H;
    [rewrite H; left; eexists; reflexivity|].
  destruct H as (req & -> & Hc & Hx & Hmeth & Hu & Hbody).
  right. exists req.
  assert (Hf : forall o : option error * option T,
             snd (finish (o, [req])) = [req]).
  { intros [[e|] x]; reflexivity. }
  split; [apply Hf|]. split; [assumption|].
  split; [now rewrite Hx|]. split; [assumption|].
  split; [now exists u|]. split; [assumption|].
  unfold answered, finish.
  destruct (http_Do (c_client c) req) as [e|resp]; [reflexivity|].
  destruct (400 <=? StatusCode resp)%Z; [reflexivity|].
  destruct (decode (Response_Body resp)); reflexivity.
Qed.

Lemma CreateDeposit_one_exchange (c : Client) (ctx : option Ctx)
      (p : CreateDepositParams.t) :
  one_exchange c ctx http_MethodPost
               (request_url c (endpoint "/create-deposit") None)
               (Some (Marshal_CreateDepositParams p ++ [x0a]))
               Decode_DepositResponse (CreateDeposit c ctx p).
Proof.
  unfold CreateDeposit.
  destruct (CreateDepositParams_Validate p) as [e|];
    [left; now exists e|].
  now apply (finish_one_exchange c ctx http_MethodPost "/create-deposit"
                                 None (Some (body_deposit p))).
Qed.

Lemma CreateWithdrawal_one_exchange (c : Client) (ctx : option Ctx)
      (p : CreateWithdrawalParams.t) :
  one_exchange c ctx http_MethodPost
               (request_url c (endpoint "/create-withdrawal") None)
               (Some (Marshal_CreateWithdrawalParams p ++ [x0a]))
               Decode_WithdrawalResponse (CreateWithdrawal c ctx p).
Proof.
  unfold CreateWithdrawal.
  destruct (CreateWithdrawalParams_Validate p) as [e|];
    [left; now exists e|].
  now apply (finish_one_exchange c ctx http_MethodPost "/create-withdrawal"
                                 None (Some (body_withdrawal p))).
Qed.

Lemma CheckTransactionStatus_one_exchange (c : Client) (ctx : option Ctx)
      (address : string) (ty : TransactionType) :
  one_exchange c ctx http_MethodGet
               (request_url c (endpoint "/check-transaction-status")
                            (Some (status_query address ty)))
               None Decode_TransactionStatusResponse
               (CheckTransactionStatus c ctx address ty).
Proof.
  unfold CheckTransactionStatus.
  destruct (is_empty address); [left; eexists; reflexivity|].
  now apply (finish_one_exchange c ctx http_MethodGet
                                 "/check-transaction-status" _ None).
Qed.

Lemma balance_query_eq (address : string) (nt : NetworkType)
      (contract : string) :
  [("address", address); ("networkType", nt)]
  ++ (if negb (is_empty contract) then [("contractAddress", contract)]
      else [])
  = balance_query address nt contract.
Proof.
  unfold balance_query, is_empty.
  now destruct (String.eqb contract EmptyString).
Qed.

Lemma FetchWalletBalance_one_exchange (c : Client) (ctx : option Ctx)
      (address : string) (nt : NetworkType) (contract : string) :
  one_exchange c ctx http_MethodGet
               (request_url c (endpoint "/fetch-wallet-balance")
                            (Some (balance_query address nt contract)))
               None Decode_WalletBalanceResponse
               (FetchWalletBalance c ctx address nt contract).
Proof.
  unfold FetchWalletBalance.
  destruct (is_empty address); [left; eexists; reflexivity|].
  rewrite balance_query_eq.
  now apply (finish_one_exchange c ctx http_MethodGet
                                 "/fetch-wallet-balance" _ None).
Qed.

(** What follows from the shape, for any operation. *)
Lemma one_exchange_length {T : Type} (c : Client) (ctx : option Ctx)
      (method url : string) (body : option bytes)
      (decode : bytes -> ext_error + T)
      (r : option T * option error * list ClientRequest) :
  one_exchange c ctx method url body decode r -> (length (snd r) <= 1)%nat.
Proof.
  intros [[e ->]|(req & Hl & _)]; [simpl; lia|]. rewrite Hl. simpl. lia.
Qed.

Lemma one_exchange_exclusive {T : Type} (c : Client) (ctx : option Ctx)
      (method url : string) (body : option bytes)
      (decode : bytes -> ext_error + T)
      (r : option T * option error * list ClientRequest) :
  one_exchange c ctx method url body decode r ->
  (fst (fst r) = None <-> snd (fst r) <> None).
Proof.
  intros [[e ->]|(req & _ & _ & _ & _ & _ & _ & ->)].
  - simpl. split; [discriminate|reflexivity].
  - destruct (http_Do (c_client c) req) as [e|resp];
      [simpl; split; [discriminate|reflexivity]|].
    destruct (400 <=? StatusCode resp)%Z;
      [simpl; split; [discriminate|reflexivity]|].
    destruct (decode (Response_Body resp)); simpl;
      split; try discriminate; try reflexivity.
    intros H. now elim H.
Qed.

Lemma one_exchange_credentials {T : Type} (c : Client) (ctx : option Ctx)
      (method url : string) (body : option bytes)
      (decode : bytes -> ext_error + T)
      (r : option T * option error * list ClientRequest) :
  one_exchange c ctx method url body decode r ->
  Forall (carries_credentials c) (snd r).
Proof.
  intros [[e ->]|(req & Hl & Hc & _)]; [constructor|].
  rewrite Hl. constructor; [assumption|constructor].
Qed.

Lemma one_exchange_request_for {T : Type} (c : Client) (ctx : option Ctx)
      (method url : string) (body : option bytes)
      (decode : bytes -> ext_error + T)
      (r : option T * option error * list ClientRequest) :
  one_exchange c ctx method url body decode r ->
  Forall (request_for method url body) (snd r).
Proof.
  intros [[e ->]|(req & Hl & _ & _ & Hm & Hu & Hb & _)]; [constructor|].
  rewrite Hl. constructor; [|constructor]. unfold request_for. auto.
Qed.

Lemma one_exchange_answer {T : Type} (c : Client) (ctx : option Ctx)
      (method url : string) (body : option bytes)
      (decode : bytes -> ext_error + T)
      (r : option T * option error * list ClientRequest)
      (req : ClientRequest) :
  one_exchange c ctx method url body decode r -> In req (snd r) ->
  fst r
  = match http_Do (c_client c) req with
    | inl err => (None, Some err)
    | inr resp =>
        if (400 <=? StatusCode resp)%Z then
          (None, Some (error_of_response resp))
        else
          match decode (Response_Body resp) with
          | inl err => (None, Some (external err))
          | inr x => (Some x, None)
          end
    end.
Proof.
  intros [[e ->]|(req' & Hl & _ & _ & _ & _ & _ & Hf)] Hin; [destruct Hin|].
  rewrite Hl in Hin. destruct Hin as [<-|[]]. exact Hf.
Qed.

Lemma one_exchange_sent {T : Type} (c : Client) (ctx : option Ctx)
      (method url : string) (body : option bytes)
      (decode : bytes -> ext_error + T)
      (r : option T * option error * list ClientRequest) :
  one_exchange c ctx method url body decode r ->
  snd r <> [] -> ctx <> None /\ parses url.
Proof.
  intros [[e ->]|(req & _ & _ & Hx & _ & (u & Hu & _) & _)] Hs;
    [now elim Hs|].
  split; [now rewrite Hx|now exists u].
Qed.

Lemma finish_sent {T : Type} (c : Client) (cx : Ctx)
      (method path : string) (query : option (list (string * string)))
      (body : option body_value) (decode : bytes -> ext_error + T)
      (ref : URL.URL Userinfo) :
  url_Parse path = inr ref ->
  is_empty method = false -> validMethod method = true ->
  parses (request_url c ref query) ->
  snd (finish (sendRequestWithQuery c (Some cx) method path query body
                                    (Some decode))) <> [].
Proof.
  intros Hp Hm Hv [u Hu].
  pose proof (sendRequestWithQuery_sent c (Some cx) method path query body
                (Some decode) ref Hp Hm Hv) as H.
  cbv iota in H. rewrite Hu in H. destruct H as (req & -> & _).
  destruct (answered _ _) as [[e|] x]; discriminate.
Qed.

Lemma finish_nil_context {T : Type} (c : Client)
      (method path : string) (query : option (list (string * string)))
      (body : option body_value) (decode : bytes -> ext_error + T)
      (ref : URL.URL Userinfo) :
  url_Parse path = inr ref ->
  is_empty method = false -> validMethod method = true ->
  finish (sendRequestWithQuery c None method path query body (Some decode))
  = (None, Some (external http_NilContext), []).
Proof.
  intros Hp Hm Hv.
  pose proof (sendRequestWithQuery_sent c None method path query body
                (Some decode) ref Hp Hm Hv) as H.
  cbv iota in H. now rewrite H.
Qed.

(** X9. No operation of the client repeats a request: each of the four hands
    at most one request to the transport, whatever the answer. *)
Theorem operations_send_at_most_one_request (c : Client)
        (ctx : option Ctx) (p : CreateDepositParams.t)
        (w : CreateWithdrawalParams.t) (address contract : string)
        (ty : TransactionType) (nt : NetworkType) :
  (length (snd (CreateDeposit c ctx p)) <= 1)%nat
  /\ (length (snd (CreateWithdrawal c ctx w)) <= 1)%nat
  /\ (length (snd (CheckTransactionStatus c ctx address ty)) <= 1)%nat
  /\ (length (snd (FetchWalletBalance c ctx address nt contract)) <= 1)%nat.
Proof.
  split; [|split; [|split]].
  - exact (one_exchange_length _ _ _ _ _ _ _
             (CreateDeposit_one_exchange c ctx p)).
  - exact (one_exchange_length _ _ _ _ _ _ _
             (CreateWithdrawal_one_exchange c ctx w)).
  - exact (one_exchange_length _ _ _ _ _ _ _
             (CheckTransactionStatus_one_exchange c ctx address ty)).
  - exact (one_exchange_length _ _ _ _ _ _ _
             (FetchWalletBalance_one_exchange c ctx address nt contract)).
Qed.

(** X10. Each of the four operations returns either a response or an error,
    never both and never neither: the response is nil exactly when the
    error is not. *)
Theorem operations_return_response_or_error (c : Client)
        (ctx : option Ctx) (p : CreateDepositParams.t)
        (w : CreateWithdrawalParams.t) (address contract : string)
        (ty : TransactionType) (nt : NetworkType) :
  (fst (fst (CreateDeposit c ctx p)) = None
   <-> snd (fst (CreateDeposit c ctx p)) <> None)
  /\ (fst (fst (CreateWithdrawal c ctx w)) = None
      <-> snd (fst (CreateWithdrawal c ctx w)) <> None)
  /\ (fst (fst (CheckTransactionStatus c ctx address ty)) = None
      <-> snd (fst (CheckTransactionStatus c ctx address ty)) <> None)
  /\ (fst (fst (FetchWalletBalance c ctx address nt contract)) = None
      <-> snd (fst (FetchWalletBalance c ctx address nt contract)) <> None).
Proof.
  split; [|split; [|split]].
  - exact (one_exchange_exclusive _ _ _ _ _ _ _
             (CreateDeposit_one_exchange c ctx p)).
  - exact (one_exchange_exclusive _ _ _ _ _ _ _
             (CreateWithdrawal_one_exchange c ctx w)).
  - exact (one_exchange_exclusive _ _ _ _ _ _ _
             (CheckTransactionStatus_one_exchange c ctx address ty)).
  - exact (one_exchange_exclusive _ _ _ _ _ _ _
             (FetchWalletBalance_one_exchange c ctx address nt contract)).
Qed.

(** X11. Every request that an operation hands to the transport carries the
    content type and the accepted type [application/json] and the API key
    and secret of the client, under [x-api-key] and [x-api-secret]. *)
Theorem requests_carry_credentials (c : Client)
        (ctx : option Ctx) (p : CreateDepositParams.t)
        (w : CreateWithdrawalParams.t) (address contract : string)
        (ty : TransactionType) (nt : NetworkType) :
  Forall (carries_credentials c) (snd (CreateDeposit c ctx p))
  /\ Forall (carries_credentials c) (snd (CreateWithdrawal c ctx w))
  /\ Forall (carries_credentials c)
            (snd (CheckTransactionStatus c ctx address ty))
  /\ Forall (carries_credentials c)
            (snd (FetchWalletBalance c ctx address nt contract)).
Proof.
  split; [|split; [|split]].
  - exact (one_exchange_credentials _ _ _ _ _ _ _
             (CreateDeposit_one_exchange c ctx p)).
  - exact (one_exchange_credentials _ _ _ _ _ _ _
             (CreateWithdrawal_one_exchange c ctx w)).
  - exact (one_exchange_credentials _ _ _ _ _ _ _
             (CheckTransactionStatus_one_exchange c ctx address ty)).
  - exact (one_exchange_credentials _ _ _ _ _ _ _
             (FetchWalletBalance_one_exchange c ctx address nt contract)).
Qed.

(** X12. The requests of [CreateDeposit] and [CreateWithdrawal] are POST
    requests to [/create-deposit] and [/create-withdrawal], resolved
    against the base URL, without a query; the body is the JSON encoding
    of the parameters followed by a newline. *)
Theorem create_requests_post_json (c : Client) (ctx : option Ctx)
        (p : CreateDepositParams.t) (w : CreateWithdrawalParams.t) :
  Forall (request_for "POST"
            (request_url c (endpoint "/create-deposit") None)
            (Some (Marshal_CreateDepositParams p ++ [x0a])))
         (snd (CreateDeposit c ctx p))
  /\ Forall (request_for "POST"
               (request_url c (endpoint "/create-withdrawal") None)
               (Some (Marshal_CreateWithdrawalParams w ++ [x0a])))
            (snd (CreateWithdrawal c ctx w)).
Proof.
  split.
  - exact (one_exchange_request_for _ _ _ _ _ _ _
             (CreateDeposit_one_exchange c ctx p)).
  - exact (one_exchange_request_for _ _ _ _ _ _ _
             (CreateWithdrawal_one_exchange c ctx w)).
Qed.

(** X13. [CheckTransactionStatus] and [FetchWalletBalance] refuse an empty
    address before anything is sent. Their requests are GET requests
    without a body to [/check-transaction-status] and
    [/fetch-wallet-balance]; the query holds the address and the type,
    or the address, the network type and, only when it is not empty, the
    contract address. *)
Theorem lookup_requests_get_query (c : Client) (ctx : option Ctx)
        (address contract : string) (ty : TransactionType)
        (nt : NetworkType) :
  CheckTransactionStatus c ctx EmptyString ty
  = (None, Some (errorString "address is required"), [])
  /\ FetchWalletBalance c ctx EmptyString nt contract
     = (None, Some (errorString "address is required"), [])
  /\ Forall (request_for "GET"
               (request_url c (endpoint "/check-transaction-status")
                            (Some (status_query address ty)))
               None)
            (snd (CheckTransactionStatus c ctx address ty))
  /\ Forall (request_for "GET"
               (request_url c (endpoint "/fetch-wallet-balance")
                            (Some (balance_query address nt contract)))
               None)
            (snd (FetchWalletBalance c ctx address nt contract)).
Proof.
  split; [reflexivity|]. split; [reflexivity|].
  split.
  - exact (one_exchange_request_for _ _ _ _ _ _ _
             (CheckTransactionStatus_one_exchange c ctx address ty)).
  - exact (one_exchange_request_for _ _ _ _ _ _ _
             (FetchWalletBalance_one_exchange c ctx address nt contract)).
Qed.

(** X14. An operation hands a request to the transport exactly when its
    parameters pass the validation, the context is not nil and the URL
    text made from the base URL, the path and the query parses. *)
Theorem request_sent_iff (c : Client) (ctx : option Ctx)
        (p : CreateDepositParams.t) (w : CreateWithdrawalParams.t)
        (address contract : string) (ty : TransactionType)
        (nt : NetworkType) :
  (snd (CreateDeposit c ctx p) <> [] <->
   all_nonempty (deposit_required p) /\ ctx <> None
   /\ parses (request_url c (endpoint "/create-deposit") None))
  /\ (snd (CreateWithdrawal c ctx w) <> [] <->
      all_nonempty (withdrawal_required w) /\ ctx <> None
      /\ parses (request_url c (endpoint "/create-withdrawal") None))
  /\ (snd (CheckTransactionStatus c ctx address ty) <> [] <->
      address <> EmptyString /\ ctx <> None
      /\ parses (request_url c (endpoint "/check-transaction-status")
                             (Some (status_query address ty))))
  /\ (snd (FetchWalletBalance c ctx address nt contract) <> [] <->
      address <> EmptyString /\ ctx <> None
      /\ parses (request_url c (endpoint "/fetch-wallet-balance")
                             (Some (balance_query address nt contract)))).
Proof.
  split; [|split; [|split]]; split.
  - intros Hs. split.
    + apply deposit_Validate_None. unfold CreateDeposit in Hs.
      destruct (CreateDepositParams_Validate p); [now elim Hs|reflexivity].
    + exact (one_exchange_sent _ _ _ _ _ _ _
               (CreateDeposit_one_exchange c ctx p) Hs).
  - intros (Hv & Hx & Hu). apply deposit_Validate_None in Hv.
    unfold CreateDeposit. rewrite Hv.
    destruct ctx as [cx|]; [|now elim Hx].
    now apply (finish_sent c cx http_MethodPost "/create-deposit" None
                           (Some (body_deposit p))
                           Decode_DepositResponse
                           (endpoint "/create-deposit")).
  - intros Hs. split.
    + apply withdrawal_Validate_None. unfold CreateWithdrawal in Hs.
      destruct (CreateWithdrawalParams_Validate w);
        [now elim Hs|reflexivity].
    + exact (one_exchange_sent _ _ _ _ _ _ _
               (CreateWithdrawal_one_exchange c ctx w) Hs).
  - intros (Hv & Hx & Hu). apply withdrawal_Validate_None in Hv.
    unfold CreateWithdrawal. rewrite Hv.
    destruct ctx as [cx|]; [|now elim Hx].
    now apply (finish_sent c cx http_MethodPost "/create-withdrawal" None
                           (Some (body_withdrawal w))
                           Decode_WithdrawalResponse
                           (endpoint "/create-withdrawal")).
  - intros Hs. split.
    + intros ->. now apply Hs.
    + exact (one_exchange_sent _ _ _ _ _ _ _
               (CheckTransactionStatus_one_exchange c ctx address ty) Hs).
  - intros (Ha & Hx & Hu). apply is_empty_false in Ha.
    unfold CheckTransactionStatus. rewrite Ha.
    destruct ctx as [cx|]; [|now elim Hx].
    now apply (finish_sent c cx http_MethodGet "/check-transaction-status"
                           (Some (status_query address ty)) None
                           Decode_TransactionStatusResponse
                           (endpoint "/check-transaction-status")).
  - intros Hs. split.
    + intros ->. now apply Hs.
    + exact (one_exchange_sent _ _ _ _ _ _ _
               (FetchWalletBalance_one_exchange c ctx address nt contract)
               Hs).
  - intros (Ha & Hx & Hu). apply is_empty_false in Ha.
    unfold FetchWalletBalance. rewrite Ha, balance_query_eq.
    destruct ctx as [cx|]; [|now elim Hx].
    now apply (finish_sent c cx http_MethodGet "/fetch-wallet-balance"
                           (Some (balance_query address nt contract)) None
                           Decode_WalletBalanceResponse
                           (endpoint "/fetch-wallet-balance")).
Qed.

(** X15. Without a context an operation whose parameters pass the validation
    fails with the error of [http.NewRequestWithContext] for a nil
    context, and nothing is sent. *)
Theorem nil_context_fails_before_sending (c : Client)
        (p : CreateDepositParams.t) (w : CreateWithdrawalParams.t)
        (address contract : string) (ty : TransactionType)
        (nt : NetworkType) :
  (all_nonempty (deposit_required p) ->
   CreateDeposit c None p = (None, Some (external http_NilContext), []))
  /\ (all_nonempty (withdrawal_required w) ->
      CreateWithdrawal c None w
      = (None, Some (external http_NilContext), []))
  /\ (address <> EmptyString ->
      CheckTransactionStatus c None address ty
      = (None, Some (external http_NilContext), []))
  /\ (address <> EmptyString ->
      FetchWalletBalance c None address nt contract
      = (None, Some (external http_NilContext), [])).
Proof.
  split; [|split; [|split]].
  - intros Hv. apply deposit_Validate_None in Hv.
    unfold CreateDeposit. rewrite Hv.
    now apply (finish_nil_context c http_MethodPost "/create-deposit" None
                 (Some (body_deposit p)) Decode_DepositResponse
                 (endpoint "/create-deposit")).
  - intros Hv. apply withdrawal_Validate_None in Hv.
    unfold CreateWithdrawal. rewrite Hv.
    now apply (finish_nil_context c http_MethodPost "/create-withdrawal"
                 None (Some (body_withdrawal w)) Decode_WithdrawalResponse
                 (endpoint "/create-withdrawal")).
  - intros Ha. apply is_empty_false in Ha.
    unfold CheckTransactionStatus. rewrite Ha.
    now apply (finish_nil_context c http_MethodGet
                 "/check-transaction-status"
                 (Some (status_query address ty)) None
                 Decode_TransactionStatusResponse
                 (endpoint "/check-transaction-status")).
  - intros Ha. apply is_empty_false in Ha.
    unfold FetchWalletBalance. rewrite Ha, balance_query_eq.
    now apply (finish_nil_context c http_MethodGet "/fetch-wallet-balance"
                 (Some (balance_query address nt contract)) None
                 Decode_WalletBalanceResponse
                 (endpoint "/fetch-wallet-balance")).
Qed.

(** X16. An error of the transport is returned as it is, not wrapped, and
    with a nil response. *)
Theorem transport_error_returned_unchanged (c : Client)
        (ctx : option Ctx) (req : ClientRequest) (err : error)
        (p : CreateDepositParams.t) (w : CreateWithdrawalParams.t)
        (address contract : string) (ty : TransactionType)
        (nt : NetworkType) :
  http_Do (c_client c) req = inl err ->
  (In req (snd (CreateDeposit c ctx p)) ->
   fst (CreateDeposit c ctx p) = (None, Some err))
  /\ (In req (snd (CreateWithdrawal c ctx w)) ->
      fst (CreateWithdrawal c ctx w) = (None, Some err))
  /\ (In req (snd (CheckTransactionStatus c ctx address ty)) ->
      fst (CheckTransactionStatus c ctx address ty) = (None, Some err))
  /\ (In req (snd (FetchWalletBalance c ctx address nt contract)) ->
      fst (FetchWalletBalance c ctx address nt contract)
      = (None, Some err)).
Proof.
  intros Hd. split; [|split; [|split]]; intros Hin.
  - rewrite (one_exchange_answer _ _ _ _ _ _ _ req
               (CreateDeposit_one_exchange c ctx p) Hin).
    now rewrite Hd.
  - rewrite (one_exchange_answer _ _ _ _ _ _ _ req
               (CreateWithdrawal_one_exchange c ctx w) Hin).
    now rewrite Hd.
  - rewrite (one_exchange_answer _ _ _ _ _ _ _ req
               (CheckTransactionStatus_one_exchange c ctx address ty) Hin).
    now rewrite Hd.
  - rewrite (one_exchange_answer _ _ _ _ _ _ _ req
               (FetchWalletBalance_one_exchange c ctx address nt contract)
               Hin).
    now rewrite Hd.
Qed.


End TransportProperties.

(** Witnesses: the sample deposit through a transport that fails, and
    through one that answers 200 with a body that does not decode. *)
Lemma transport_error_returned_unchanged_witness :
  http_Do (c_client offline_client) sample_request = inl unreachable
  /\ In sample_request
        (snd (CreateDeposit offline_client (Some tt) sample_deposit))
  /\ fst (CreateDeposit offline_client (Some tt) sample_deposit)
     = (None, Some unreachable).
Proof.
  assert (Hd : http_Do (c_client offline_client) sample_request
               = inl unreachable) by reflexivity.
  assert (Hin : In sample_request
                   (snd (CreateDeposit offline_client (Some tt)
                                       sample_deposit))).
  { left. reflexivity. }
  split; [exact Hd|]. split; [exact Hin|].
  exact (proj1 (transport_error_returned_unchanged
                  offline_client (Some tt) sample_request unreachable
                  sample_deposit withdrawal_sample EmptyString EmptyString
                  EmptyString EmptyString Hd) Hin).
Defined.


(** The sample deposit reaches the transport as one request, the one
    written out above. *)
Example CreateDeposit_sample_request :
  snd (CreateDeposit accepting_client (Some tt) sample_deposit)
  = [sample_request].
Proof. reflexivity. Qed.

(** ** The bodies of the requests *)

Lemma parse_object_line (ms : list (bytes * bytes)) :
  ms <> [] ->
  Forall (fun kv => scannable (fst kv) /\ scannable (snd kv)) ms ->
  JSON.parse (x7b :: members_bytes ms [x0a])
  = Some (JSON.JObject (map string_member ms)).
Proof.
  intros Hne Hs. unfold JSON.parse.
  cbn [JSON.scan_value JSON.skip_space].
  change (JSON.isSpace x7b) with false. cbv iota.
  change (JSON.isb x7b 0x7b) with true. cbv iota.
  change (JSON.maxNestingDepth <=? 0) with false. cbv iota.
  destruct ms as [|[k v] ms]; [now elim Hne|].
  assert (Hm : exists T, members_bytes ((k, v) :: ms) [x0a] = x22 :: T).
  { destruct ms; simpl; eauto. }
  destruct Hm as [T HT]. rewrite HT. cbn [JSON.skip_space].
  change (JSON.isSpace x22) with false. cbv iota.
  change (JSON.isb x22 0x7d) with false. cbv iota.
  rewrite <- HT.
  rewrite scan_members_bytes; [reflexivity|assumption|assumption|].
  pose proof (members_bytes_length ((k, v) :: ms) [x0a]).
  cbn [length] in *. lia.
Qed.

Lemma enc_members_scannable (fields : list (string * string)) :
  Forall (fun kv => scannable (fst kv) /\ scannable (snd kv))
         (enc_members fields).
Proof.
  induction fields as [|[k v] fields IH]; constructor; [|exact IH].
  split; apply scannable_enc.
Qed.

Lemma all_some_enc_members (fields : list (string * string)) :
  forallb (fun kv => UTF8.ValidString (fst kv)) fields = true ->
  all_valid fields ->
  all_some (map member_strings (map string_member (enc_members fields)))
  = Some fields.
Proof.
  unfold all_valid.
  induction fields as [|[k v] fields IH]; intros Hk Hv; [reflexivity|].
  cbn [forallb fst snd] in Hk, Hv. apply andb_true_iff in Hk, Hv.
  destruct Hk as [Hk Hk'], Hv as [Hv Hv'].
  change (enc_members ((k, v) :: fields))
    with ((enc k, enc v) :: enc_members fields).
  cbn [map all_some]. unfold member_strings at 1. unfold string_member at 1 2.
  cbn [fst snd]. rewrite (unquote_enc k Hk), (unquote_enc v Hv).
  now rewrite (IH Hk' Hv').
Qed.

Lemma read_object_enc_members (fields : list (string * string)) :
  fields <> [] ->
  forallb (fun kv => UTF8.ValidString (fst kv)) fields = true ->
  all_valid fields ->
  read_object (x7b :: members_bytes (enc_members fields) [x0a])
  = Some fields.
Proof.
  intros Hne Hk Hv. unfold read_object.
  rewrite parse_object_line.
  - now apply all_some_enc_members.
  - destruct fields; [now elim Hne|discriminate].
  - apply enc_members_scannable.
Qed.

Lemma Marshal_CreateDepositParams_bytes (p : CreateDepositParams.t) :
  Marshal_CreateDepositParams p ++ [x0a]
  = x7b :: members_bytes (enc_members (deposit_fields p)) [x0a].
Proof.
  unfold Marshal_CreateDepositParams, deposit_fields.
  cbn [app]. f_equal. rewrite <- !app_assoc.
  rewrite !member_bytes. cbn [andb app]. unfold optional, is_empty.
  destruct (String.eqb (CreateDepositParams.UDF p) EmptyString),
           (String.eqb (CreateDepositParams.Type_ p) EmptyString);
    reflexivity.
Qed.

Lemma Marshal_CreateWithdrawalParams_bytes (p : CreateWithdrawalParams.t) :
  Marshal_CreateWithdrawalParams p ++ [x0a]
  = x7b :: members_bytes (enc_members (withdrawal_fields p)) [x0a].
Proof.
  unfold Marshal_CreateWithdrawalParams, withdrawal_fields.
  cbn [app]. f_equal. rewrite <- !app_assoc.
  rewrite !member_bytes. cbn [andb app]. unfold optional, is_empty.
  destruct (String.eqb (CreateWithdrawalParams.UDF p) EmptyString);
    reflexivity.
Qed.

Lemma optional_names (n v : string) :
  UTF8.ValidString n = true ->
  forallb (fun kv => UTF8.ValidString (fst kv)) (optional n v) = true.
Proof.
  intros Hn. unfold optional.
  destruct (String.eqb v EmptyString); [reflexivity|].
  cbn [forallb fst]. now rewrite Hn.
Qed.

(** X18. The body that [CreateDeposit] sends reads back as the JSON object of
    the parameters: the four required members in the order of the struct,
    then [udf] and [type], each left out exactly when it is empty. Every
    value reads back as the field itself when the fields are valid
    UTF-8. *)
Theorem deposit_body_reads_back (p : CreateDepositParams.t) :
  all_valid (deposit_fields p) ->
  read_object (Marshal_CreateDepositParams p ++ [x0a])
  = Some (deposit_fields p).
Proof.
  intros Hv. rewrite Marshal_CreateDepositParams_bytes.
  apply read_object_enc_members; [discriminate| |exact Hv].
  unfold deposit_fields. rewrite !forallb_app, !optional_names
    by reflexivity.
  reflexivity.
Qed.

(** X19. The same for [CreateWithdrawal]: five required members, then [udf]
    unless it is empty. *)
Theorem withdrawal_body_reads_back (p : CreateWithdrawalParams.t) :
  all_valid (withdrawal_fields p) ->
  read_object (Marshal_CreateWithdrawalParams p ++ [x0a])
  = Some (withdrawal_fields p).
Proof.
  intros Hv. rewrite Marshal_CreateWithdrawalParams_bytes.
  apply read_object_enc_members; [discriminate| |exact Hv].
  unfold withdrawal_fields. rewrite !forallb_app, !optional_names
    by reflexivity.
  reflexivity.
Qed.

Lemma deposit_body_reads_back_witness :
  all_valid (deposit_fields sample_deposit)
  /\ read_object (Marshal_CreateDepositParams sample_deposit ++ [x0a])
     = Some [("networkType", "BEP20"); ("contractAddress", "0");
             ("amount", "1.5"); ("ipnUrl", "https://x/webhook")].
Proof.
  assert (Hv : all_valid (deposit_fields sample_deposit))
    by (vm_compute; reflexivity).
  split; [exact Hv|].
  exact (deposit_body_reads_back sample_deposit Hv).
Defined.

Lemma withdrawal_body_reads_back_witness :
  all_valid (withdrawal_fields withdrawal_sample)
  /\ read_object (Marshal_CreateWithdrawalParams withdrawal_sample ++ [x0a])
     = Some [("networkType", "ERC20"); ("contractAddress", "0");
             ("address", "0x742d"); ("amount", "10.5");
             ("ipnUrl", "https://x/webhook"); ("udf", "withdrawal-456")].
Proof.
  assert (Hv : all_valid (withdrawal_fields withdrawal_sample))
    by (vm_compute; reflexivity).
  split; [exact Hv|].
  exact (withdrawal_body_reads_back withdrawal_sample Hv).
Defined.

(** *** Decoding the responses of the two creations *)

Lemma parse_first_object (ms : list (bytes * bytes)) (R : bytes) :
  ms <> [] ->
  Forall (fun kv => scannable (fst kv) /\ scannable (snd kv)) ms ->
  JSON.parse_first (x7b :: members_bytes ms R)
  = Some (JSON.JObject (map string_member ms)).
Proof.
  intros Hne Hs. unfold JSON.parse_first.
  cbn [JSON.scan_value JSON.skip_space].
  change (JSON.isSpace x7b) with false. cbv iota.
  change (JSON.isb x7b 0x7b) with true. cbv iota.
  change (JSON.maxNestingDepth <=? 0) with false. cbv iota.
  destruct ms as [|[k v] ms]; [now elim Hne|].
  assert (Hm : exists T, members_bytes ((k, v) :: ms) R = x22 :: T).
  { destruct ms; simpl; eauto. }
  destruct Hm as [T HT]. rewrite HT. cbn [JSON.skip_space].
  change (JSON.isSpace x22) with false. cbv iota.
  change (JSON.isb x22 0x7d) with false. cbv iota.
  rewrite <- HT.
  rewrite scan_members_bytes; [reflexivity|assumption|assumption|].
  pose proof (members_bytes_length ((k, v) :: ms) R).
  cbn [length] in *. lia.
Qed.

Section ResponseDecodingProperties.

Context {L : StdLib}.

Lemma decode_deposit_response_string (r : DepositResponse.t Time)
      (saved : option ext_error) (key : string)
      (f : deposit_response_field) (v : string) :
  JSON.lookup_field deposit_response_fields key = Some f ->
  f <> dr_expiresAt ->
  UTF8.ValidString key = true -> UTF8.ValidString v = true ->
  decode_deposit_response_member r saved (enc key, JSON.JString (enc v))
  = inr (set_deposit_response r f v, saved).
Proof.
  intros Hl Hf Hk Hv. unfold decode_deposit_response_member.
  rewrite (unquote_enc key Hk), Hl. unfold decode_string.
  rewrite (unquote_enc v Hv).
  destruct f; try (now elim Hf); destruct saved; reflexivity.
Qed.

Lemma decode_deposit_response_expiresAt (r : DepositResponse.t Time)
      (saved : option ext_error) (txt : bytes) (t : Time) :
  parseStrictRFC3339 txt = Some t ->
  decode_deposit_response_member r saved
                                 (enc "expiresAt", JSON.JString txt)
  = inr (set_ExpiresAt r t, saved).
Proof.
  intros Hp. unfold decode_deposit_response_member.
  rewrite (unquote_enc "expiresAt") by reflexivity.
  change (JSON.lookup_field deposit_response_fields "expiresAt")
    with (Some dr_expiresAt).
  cbn [literal_bytes]. now rewrite (Time_UnmarshalJSON_literal _ t).
Qed.

Lemma DepositResponse_of_body (r : DepositResponse.t Time)
      (expires R : bytes) :
  forallb UTF8.ValidString
          [ DepositResponse.ID r; DepositResponse.Address r;
            DepositResponse.Amount r; DepositResponse.Status r ] = true ->
  rfc3339_text expires = true ->
  parseStrictRFC3339 expires = Some (DepositResponse.ExpiresAt r) ->
  exists v, JSON.parse_first (deposit_response_body r expires R) = Some v
            /\ DepositResponse_of_value v = inr r.
Proof.
  intros Hv Ht Hp. cbn [forallb] in Hv. rewrite !andb_true_iff in Hv.
  destruct Hv as (Vid & Vad & Vam & Vst & _).
  eexists. split.
  - unfold deposit_response_body. apply parse_first_object; [discriminate|].
    repeat (constructor; [split; cbn [fst snd];
                          first [apply scannable_enc
                                |now apply scannable_rfc3339]|]).
    constructor.
  - destruct r as [id ad ex am st].
    cbn [DepositResponse.ID DepositResponse.Address DepositResponse.Amount
         DepositResponse.Status DepositResponse.ExpiresAt] in *.
    unfold DepositResponse_of_value.
    cbn [map decode_deposit_response_members]. unfold string_member.
    cbn [fst snd].
    repeat first
      [ erewrite decode_deposit_response_string;
        [|reflexivity|discriminate|reflexivity|eassumption];
        cbv beta iota
      | erewrite decode_deposit_response_expiresAt by eassumption;
        cbv beta iota ].
    reflexivity.
Qed.

Lemma WithdrawalResponse_of_body (r : WithdrawalResponse.t) (R : bytes) :
  forallb UTF8.ValidString
          [ WithdrawalResponse.ID r; WithdrawalResponse.Status r;
            WithdrawalResponse.Fee r ] = true ->
  exists v, JSON.parse_first (withdrawal_response_body r R) = Some v
            /\ WithdrawalResponse_of_value v = inr r.
Proof.
  intros Hv. cbn [forallb] in Hv. rewrite !andb_true_iff in Hv.
  destruct Hv as (Vid & Vst & Vfee & _).
  eexists. split.
  - unfold withdrawal_response_body.
    apply parse_first_object; [discriminate|].
    repeat (constructor; [split; cbn [fst snd]; apply scannable_enc|]).
    constructor.
  - destruct r as [id st fee].
    cbn [WithdrawalResponse.ID WithdrawalResponse.Status
         WithdrawalResponse.Fee] in *.
    unfold WithdrawalResponse_of_value.
    cbn [map fold_left]. unfold string_member. cbn [fst snd].
    unfold decode_withdrawal_response_member, decode_string.
    rewrite !(unquote_enc "id"), !(unquote_enc "status"),
      !(unquote_enc "fee") by reflexivity.
    change (JSON.lookup_field withdrawal_response_fields "id")
      with (Some wr_id).
    change (JSON.lookup_field withdrawal_response_fields "status")
      with (Some wr_status).
    change (JSON.lookup_field withdrawal_response_fields "fee")
      with (Some wr_fee).
    cbv beta iota. rewrite (unquote_enc id Vid). cbn [fst snd].
    rewrite (unquote_enc st Vst). cbn [fst snd].
    rewrite (unquote_enc fee Vfee). reflexivity.
Qed.

End ResponseDecodingProperties.

Section CreatedResponses.

Context {L : StdLib}.

(** X23. When the platform decodes as [encoding/json] does, a deposit that the
    gateway answers with a status below 400 and an object holding [id],
    [address], [expiresAt], [amount] and [status] as strings is returned
    as the [DepositResponse] with those values and no error; what follows
    the object in the body is not read. *)
Theorem deposit_response_is_returned (c : Client) (ctx : option Ctx)
        (p : CreateDepositParams.t) (req : ClientRequest)
        (resp : Response) (r : DepositResponse.t Time)
        (expires R : bytes) :
  decodes_as_json ->
  http_Do (c_client c) req = inr resp ->
  (StatusCode resp < 400)%Z ->
  Response_Body resp = deposit_response_body r expires R ->
  forallb UTF8.ValidString
          [ DepositResponse.ID r; DepositResponse.Address r;
            DepositResponse.Amount r; DepositResponse.Status r ] = true ->
  rfc3339_text expires = true ->
  parseStrictRFC3339 expires = Some (DepositResponse.ExpiresAt r) ->
  In req (snd (CreateDeposit c ctx p)) ->
  fst (CreateDeposit c ctx p) = (Some r, None).
Proof.
  intros HJ Hd Hs Hb Hv Ht Hp Hin. apply Z.leb_gt in Hs.
  rewrite (one_exchange_answer _ _ _ _ _ _ _ req
             (CreateDeposit_one_exchange c ctx p) Hin).
  rewrite Hd, Hs, Hb.
  destruct (DepositResponse_of_body r expires R Hv Ht Hp) as (v & Hv1 & Hv2).
  now rewrite (proj1 (HJ _ v Hv1)), Hv2.
Qed.

(** X24. The same for a withdrawal: an object holding [id], [status] and
    [fee] as strings is returned as the [WithdrawalResponse] with those
    values and no error. *)
Theorem withdrawal_response_is_returned (c : Client) (ctx : option Ctx)
        (w : CreateWithdrawalParams.t) (req : ClientRequest)
        (resp : Response) (r : WithdrawalResponse.t) (R : bytes) :
  decodes_as_json ->
  http_Do (c_client c) req = inr resp ->
  (StatusCode resp < 400)%Z ->
  Response_Body resp = withdrawal_response_body r R ->
  forallb UTF8.ValidString
          [ WithdrawalResponse.ID r; WithdrawalResponse.Status r;
            WithdrawalResponse.Fee r ] = true ->
  In req (snd (CreateWithdrawal c ctx w)) ->
  fst (CreateWithdrawal c ctx w) = (Some r, None).
Proof.
  intros HJ Hd Hs Hb Hv Hin. apply Z.leb_gt in Hs.
  rewrite (one_exchange_answer _ _ _ _ _ _ _ req
             (CreateWithdrawal_one_exchange c ctx w) Hin).
  rewrite Hd, Hs, Hb.
  destruct (WithdrawalResponse_of_body r R Hv) as (v & Hv1 & Hv2).
  now rewrite (proj2 (HJ _ v Hv1)), Hv2.
Qed.

End CreatedResponses.

Lemma sample_json_decodes_as_json : decodes_as_json (L := sample_json).
Proof.
  intros body v Hv. cbn [Decode_DepositResponse Decode_WithdrawalResponse
                         sample_json].
  rewrite Hv. split; reflexivity.
Qed.

Lemma deposit_response_is_returned_witness :
  fst (CreateDeposit creating_client (Some tt) sample_deposit)
  = (Some created_deposit, None).
Proof.
  apply (deposit_response_is_returned
           (L := sample_json) creating_client (Some tt) sample_deposit
           creating_request created_response created_deposit
           (bytes_of_string "2025-01-01T00:00:00Z") [x0a]).
  - exact sample_json_decodes_as_json.
  - reflexivity.
  - reflexivity.
  - reflexivity.
  - vm_compute. reflexivity.
  - vm_compute. reflexivity.
  - vm_compute. reflexivity.
  - left. reflexivity.
Defined.

Lemma withdrawal_response_is_returned_witness :
  fst (CreateWithdrawal withdrawing_client (Some tt) withdrawal_sample)
  = (Some created_withdrawal, None).
Proof.
  apply (withdrawal_response_is_returned
           (L := sample_json) withdrawing_client (Some tt) withdrawal_sample
           withdrawing_request withdrawing_response created_withdrawal []).
  - exact sample_json_decodes_as_json.
  - reflexivity.
  - reflexivity.
  - reflexivity.
  - vm_compute. reflexivity.
  - left. reflexivity.
Defined.

(** ** Configuration and validation *)

Lemma cut_app (pre s : bytes) (sep : byte) :
  ~ In sep pre ->
  URL.cut (pre ++ s) sep
  = let '(b, a, found) := URL.cut s sep in (pre ++ b, a, found).
Proof.
  induction pre as [|c pre IH]; intros Hn.
  - simpl. now destruct (URL.cut s sep) as [[b a] f].
  - simpl. destruct (Byte.eqb c sep) eqn:E.
    + apply Byte.byte_dec_bl in E. subst c. elim Hn. now left.
    + rewrite IH by (intros H; apply Hn; now right).
      now destruct (URL.cut s sep) as [[b a] f].
Qed.

Lemma control_not_hash (c : byte) : control c -> Byte.eqb c x23 = false.
Proof.
  intros H. destruct (Byte.eqb c x23) eqn:E; [|reflexivity].
  apply Byte.byte_dec_bl in E. subst c. destruct H as [H|H].
  - vm_compute in H. discriminate H.
  - discriminate H.
Qed.

Lemma control_CTL (c : byte) :
  control c -> (Byte.to_N c <? 0x20) || (Byte.to_N c =? 0x7f) = true.
Proof.
  intros [H|H]; apply orb_true_iff;
    [left; now apply N.ltb_lt|right; now apply N.eqb_eq].
Qed.

Lemma string_of_bytes_nonempty (pre post : bytes) (c : byte) :
  string_of_bytes (pre ++ c :: post) <> EmptyString.
Proof.
  intros E. apply (f_equal bytes_of_string) in E.
  unfold bytes_of_string, string_of_bytes in E.
  rewrite list_byte_of_string_of_list_byte in E.
  destruct pre; discriminate E.
Qed.

Section Configuration.

Context {L : StdLib} {D : DefaultTransport}.

Lemma url_Parse_control (pre post : bytes) (c : byte) :
  ~ In x23 pre -> control c ->
  url_Parse (string_of_bytes (pre ++ c :: post))
  = inl (external (url_Error "parse" URL.ErrControlCharacter)).
Proof.
  intros Hn Hc. unfold url_Parse, URL.Parse.
  unfold bytes_of_string, string_of_bytes.
  rewrite list_byte_of_string_of_list_byte.
  rewrite cut_app by assumption. cbn [URL.cut].
  rewrite (control_not_hash c Hc).
  destruct (URL.cut post x23) as [[b a] f].
  unfold URL.parse, URL.stringContainsCTLByte.
  rewrite existsb_app. cbn [existsb].
  rewrite (control_CTL c Hc). rewrite orb_true_r. reflexivity.
Qed.

(** X20. A base URL with a control character before any [#], such as a
    newline left at its end, is rejected: with both credentials given,
    [NewClient] fails with the error of [url.Parse] for a control
    character, wrapped as [invalid base URL]. *)
Theorem NewClient_rejects_control_characters (config : Config)
        (pre post : bytes) (c : byte) :
  APIKey config <> EmptyString -> APISecret config <> EmptyString ->
  BaseURL config = string_of_bytes (pre ++ c :: post) ->
  ~ In x23 pre -> control c ->
  NewClient config
  = (None,
     Some (fmt_Errorf_w "invalid base URL: "
             (external (url_Error "parse" URL.ErrControlCharacter)))).
Proof.
  intros Hk Hs Hb Hn Hc.
  assert (Hp : url_Parse (effective_base config)
               = inl (external (url_Error "parse"
                                          URL.ErrControlCharacter))).
  { unfold effective_base.
    assert (E : is_empty (BaseURL config) = false).
    { apply is_empty_false. rewrite Hb. apply string_of_bytes_nonempty. }
    rewrite E, Hb. now apply url_Parse_control. }
  destruct (NewClient_cases config)
    as [[Hk' _]|[(_ & Hs' & _)|[(_ & _ & e & He & ->)
                               |(_ & _ & u & Hu & _)]]].
  - now elim Hk.
  - now elim Hs.
  - rewrite Hp in He. now injection He as <-.
  - rewrite Hp in Hu. discriminate Hu.
Qed.

(** X21. [NewClient] reports the first problem only, in the order key, secret,
    base URL: with an empty key the error is [API key is required]
    whatever the rest of the configuration; the texts of the three errors
    are fixed, the last one followed by the text of the error of
    [url.Parse]. *)
Theorem NewClient_reports_first_problem (config : Config) :
  (APIKey config = EmptyString ->
   NewClient config = (None, Some (errorString "API key is required")))
  /\ (APIKey config <> EmptyString -> APISecret config = EmptyString ->
      NewClient config
      = (None, Some (errorString "API secret is required")))
  /\ (forall e, snd (NewClient config) = Some e ->
      Error e = "API key is required"
      \/ Error e = "API secret is required"
      \/ exists ue, url_Parse (effective_base config) = inl ue
                    /\ Error e = ("invalid base URL: " ++ Error ue)%string).
Proof.
  destruct (NewClient_cases config)
    as [[Hk ->]|[(Hk & Hs & ->)|[(Hk & Hs & ue & He & ->)
                                |(Hk & Hs & u & Hu & ->)]]].
  - split; [reflexivity|]. split; [intros H; now elim H|].
    intros e [= <-]. now left.
  - split; [intros H; now elim Hk|]. split; [reflexivity|].
    intros e [= <-]. right. now left.
  - split; [intros H; now elim Hk|]. split; [intros _ H; now elim Hs|].
    intros e [= <-]. right. right. now exists ue.
  - split; [intros H; now elim Hk|]. split; [intros _ H; now elim Hs|].
    intros e [=].
Qed.

(** X22. [Validate] names the first required field that is empty, in the
    order network type, contract address, (destination address,) amount,
    notification URL, in an error [<field> is required]; later empty
    fields are not reported. *)
Theorem Validate_names_first_empty_field (p : CreateDepositParams.t)
        (w : CreateWithdrawalParams.t) :
  CreateDepositParams_Validate p
  = required_error (first_empty (deposit_required_named p))
  /\ CreateWithdrawalParams_Validate w
     = required_error (first_empty (withdrawal_required_named w)).
Proof.
  unfold CreateDepositParams_Validate, CreateWithdrawalParams_Validate,
    deposit_required_named, withdrawal_required_named, is_empty.
  cbn [first_empty]. split.
  - destruct (String.eqb (CreateDepositParams.NetworkType p) _);
      [reflexivity|].
    destruct (String.eqb (CreateDepositParams.ContractAddress p) _);
      [reflexivity|].
    destruct (String.eqb (CreateDepositParams.Amount p) _); [reflexivity|].
    destruct (String.eqb (CreateDepositParams.IPNUrl p) _); reflexivity.
  - destruct (String.eqb (CreateWithdrawalParams.NetworkType w) _);
      [reflexivity|].
    destruct (String.eqb (CreateWithdrawalParams.ContractAddress w) _);
      [reflexivity|].
    destruct (String.eqb (CreateWithdrawalParams.Address w) _);
      [reflexivity|].
    destruct (String.eqb (CreateWithdrawalParams.Amount w) _);
      [reflexivity|].
    destruct (String.eqb (CreateWithdrawalParams.IPNUrl w) _); reflexivity.
Qed.

End Configuration.

Lemma NewClient_rejects_control_characters_witness :
  Error (L := sample)
        (fmt_Errorf_w "invalid base URL: "
           (external (url_Error "parse" URL.ErrControlCharacter)))
  = "invalid base URL: parse: invalid URL"
  /\ NewClient newline_config
     = (None,
        Some (fmt_Errorf_w "invalid base URL: "
                (external (url_Error "parse" URL.ErrControlCharacter)))).
Proof.
  split; [reflexivity|].
  apply (NewClient_rejects_control_characters
           newline_config (bytes_of_string "https://api.sagapay.net")
           [] x0a).
  - discriminate.
  - discriminate.
  - reflexivity.
  - vm_compute. intuition discriminate.
  - left. reflexivity.
Defined.
